(** * Microbit Manager: a shallow embedding of [microbit_manager.py]

    The manager object of the program is a record of its mutable attributes;
    every call the program makes to the operating system or to the Python
    runtime library is a request answered by an environment, so that a method
    of the class becomes a finite interaction tree over these requests.  A run
    against an environment yields the method's result, the manager it leaves
    behind, the environment's new state and the list of requests that were
    actually issued, with their answers. *)

From Stdlib Require Import ZArith List Bool Lia Ascii String
  Sorting.Sorted Sorting.Permutation Numbers.DecimalString Eqdep_dec.
Import ListNotations.

#[local] Set Warnings "-register-all".

Open Scope bool_scope.
Open Scope string_scope.
Open Scope Z_scope.

(** ** Python strings

    A [str] is a [string] whose characters are code points below 256; the
    white space class and the case mapping are those of [str.isspace] and
    [str.lower] on this range. *)

Module PyStr.

Definition is_space (c : ascii) : bool :=
  let n := nat_of_ascii c in
  ((9 <=? n) && (n <=? 13) || (28 <=? n) && (n <=? 32)
   || (n =? 133) || (n =? 160))%nat.

Definition lower_char (c : ascii) : ascii :=
  let n := nat_of_ascii c in
  if ((65 <=? n) && (n <=? 90)
      || (192 <=? n) && (n <=? 222) && negb (n =? 215))%nat
  then ascii_of_nat (n + 32) else c.

(** [s.lower()] *)
Fixpoint lower (s : string) : string :=
  match s with
  | EmptyString => EmptyString
  | String c t => String (lower_char c) (lower t)
  end.

(** [s.startswith(p)] *)
Definition startswith (p s : string) : bool := String.prefix p s.

(** [needle in hay] *)
Fixpoint contains (needle hay : string) : bool :=
  String.prefix needle hay ||
  match hay with
  | EmptyString => false
  | String _ t => contains needle t
  end.

(** [s.lstrip()] *)
Fixpoint lstrip (s : string) : string :=
  match s with
  | EmptyString => EmptyString
  | String c t => if is_space c then lstrip t else s
  end.

(** [s.rstrip()]: the trailing run of white space is dropped. *)
Fixpoint rstrip (s : string) : string :=
  match s with
  | EmptyString => EmptyString
  | String c t =>
      match rstrip t with
      | EmptyString => if is_space c then EmptyString else String c EmptyString
      | r => String c r
      end
  end.

(** [s.strip()] *)
Definition strip (s : string) : string := lstrip (rstrip s).

(** [s.rstrip(chars)] for a one-character [chars]. *)
Fixpoint rstrip_char (d : ascii) (s : string) : string :=
  match s with
  | EmptyString => EmptyString
  | String c t =>
      match rstrip_char d t with
      | EmptyString => if Ascii.eqb c d then EmptyString else String c EmptyString
      | r => String c r
      end
  end.

(** [s.split(sep)] for a one-character separator: always at least one
    field. *)
Fixpoint split_on (sep : ascii) (s : string) : list string :=
  match s with
  | EmptyString => [EmptyString]
  | String c t =>
      if Ascii.eqb c sep then EmptyString :: split_on sep t
      else match split_on sep t with
           | [] => [String c EmptyString]
           | f :: fs => String c f :: fs
           end
  end.

(** [s.split()]: fields separated by runs of white space, no empty
    field. *)
Fixpoint split_ws_aux (cur : string) (s : string) : list string :=
  match s with
  | EmptyString => match cur with EmptyString => [] | _ => [cur] end
  | String c t =>
      if is_space c
      then match cur with
           | EmptyString => split_ws_aux EmptyString t
           | _ => cur :: split_ws_aux EmptyString t
           end
      else split_ws_aux (cur ++ String c EmptyString) t
  end.

Definition split_ws (s : string) : list string := split_ws_aux EmptyString s.

(** [s.split(sep, 1)] for a one-character separator. *)
Fixpoint split_once (sep : ascii) (s : string) : list string :=
  match s with
  | EmptyString => [EmptyString]
  | String c t =>
      if Ascii.eqb c sep then [EmptyString; t]
      else match split_once sep t with
           | f :: fs => String c f :: fs
           | [] => [String c EmptyString]
           end
  end.

(** [len(s)] *)
Definition len (s : string) : Z := Z.of_nat (String.length s).

(** [s[1:]] *)
Definition tail (s : string) : string :=
  match s with
  | EmptyString => EmptyString
  | String _ t => t
  end.

(** [os.path.basename(p)]: what follows the last slash. *)
Fixpoint basename (p : string) : string :=
  match p with
  | EmptyString => EmptyString
  | String c t =>
      if contains "/" t then basename t
      else if Ascii.eqb c "/" then t else p
  end.

(** [str(n)] for an integer. *)
Definition of_Z (n : Z) : string := NilZero.string_of_int (Z.to_int n).

(** Digits grouped by three from the right, as [format(n, ",")] prints a
    non-negative integer. *)
Fixpoint group3 (digits : list ascii) : list ascii :=
  match digits with
  | a :: b :: c :: ((_ :: _) as rest) => a :: b :: c :: ","%char :: group3 rest
  | _ => digits
  end.

Definition of_Z_grouped (n : Z) : string :=
  let body := string_of_list_ascii
                (rev (group3 (rev (list_ascii_of_string (of_Z (Z.abs n)))))) in
  if n <? 0 then "-" ++ body else body.

(** Python's order on strings: lexicographic on code points. *)
Fixpoint ltb (a b : string) : bool :=
  match a, b with
  | EmptyString, EmptyString => false
  | EmptyString, String _ _ => true
  | String _ _, EmptyString => false
  | String x a', String y b' =>
      let n := nat_of_ascii x in
      let k := nat_of_ascii y in
      if (n <? k)%nat then true
      else if (k <? n)%nat then false
      else ltb a' b'
  end.

End PyStr.

(** ** [int(text, 16)]

    Whether Python's [int] accepts a text in base 16: white space around, an
    optional sign, an optional [0x] prefix (after which one underscore may
    follow), then hexadecimal digits separated by single underscores. *)

Module PyInt.

(** The white space that [int] skips around the number: the white space of
    C in the ASCII range, and the two other white-space code points below
    256.  The code points 28 to 31, white space for [str.strip], are not
    skipped. *)
Definition is_space (c : ascii) : bool :=
  let n := nat_of_ascii c in
  ((9 <=? n) && (n <=? 13) || (n =? 32) || (n =? 133) || (n =? 160))%nat.

Fixpoint lstrip (s : string) : string :=
  match s with
  | EmptyString => EmptyString
  | String c t => if is_space c then lstrip t else s
  end.

Fixpoint rstrip (s : string) : string :=
  match s with
  | EmptyString => EmptyString
  | String c t =>
      match rstrip t with
      | EmptyString => if is_space c then EmptyString else String c EmptyString
      | r => String c r
      end
  end.

Definition strip (s : string) : string := lstrip (rstrip s).

Definition is_hex_digit (c : ascii) : bool :=
  let n := nat_of_ascii c in
  ((48 <=? n) && (n <=? 57) || (65 <=? n) && (n <=? 70)
   || (97 <=? n) && (n <=? 102))%nat.

Fixpoint digit_run (prev_underscore : bool) (s : string) : bool :=
  match s with
  | EmptyString => negb prev_underscore
  | String c t =>
      if Ascii.eqb c "_" then negb prev_underscore && digit_run true t
      else is_hex_digit c && digit_run false t
  end.

Definition skip_sign (s : string) : string :=
  match s with
  | String c t => if Ascii.eqb c "+" || Ascii.eqb c "-" then t else s
  | EmptyString => s
  end.

Definition skip_prefix16 (s : string) : string :=
  match s with
  | String "0" (String c t) =>
      if Ascii.eqb c "x" || Ascii.eqb c "X"
      then match t with
           | String "_" t' => t'
           | _ => t
           end
      else s
  | _ => s
  end.

Definition digits_ok (s : string) : bool :=
  match s with
  | EmptyString => false
  | String c _ => negb (Ascii.eqb c "_") && digit_run false s
  end.

(** [true] when [int(s, 16)] returns, [false] when it raises
    [ValueError]. *)
Definition parses16 (s : string) : bool :=
  digits_ok (skip_prefix16 (skip_sign (strip s))).

End PyInt.

(** ** Exceptions and values of the runtime *)

Inductive ExcKind : Type :=
| PermissionError
| FileNotFoundError
| OSError
| ValueError
| KeyError
| IndexError
| TypeError
| AttributeError
| UnicodeDecodeError.

(** An exception object; [str(e)] is its message. *)
Record Exc : Type := mkExc { exc_kind : ExcKind; exc_msg : string }.

Definition is_PermissionError (e : Exc) : bool :=
  match exc_kind e with PermissionError => true | _ => false end.

(** What [json.loads] builds.  A number keeps the text [str] prints for it
    and whether it is zero; a dictionary is its items in insertion order,
    each key once. *)
Inductive JSON : Type :=
| JNull
| JBool (b : bool)
| JNum (text : string) (is_zero : bool)
| JStr (s : string)
| JArr (items : list JSON)
| JObj (fields : list (string * JSON)).

(** [subprocess.run(cmd, shell=True, capture_output=True, text=True,
    check=True)]: the process ends with status 0 and its standard output, or
    [CalledProcessError] is raised with the status and the standard error, or
    the call raises something else: [UnicodeDecodeError] when what the
    process printed does not decode, [ValueError] for a NUL in the command,
    [OSError] when the shell cannot be started. *)
Inductive ProcResult : Type :=
| Completed (stdout : string)
| CalledProcessError (returncode : Z) (stderr : string)
| RunRaised (e : Exc).

(** [os.stat]: the size and the modification time, the latter kept exactly,
    in nanoseconds since the epoch. *)
Record StatResult : Type := mkStat { st_size : Z; st_mtime_ns : Z }.

(** [os.statvfs] *)
Record StatVfs : Type := mkStatVfs { f_frsize : Z; f_bavail : Z }.

(** ** Requests to the environment *)

Inductive Request : Type :=
| SubprocessRun (command : string)
| PathExists (path : string)          (* os.path.exists *)
| PathlibExists (path : string)       (* Path.exists: raises the OSError of stat unless it is ENOENT, ENOTDIR, EBADF or ELOOP *)
| PathIsFile (path : string)          (* os.path.isfile *)
| ReadText (path : string)            (* open(path, 'r') and reading from it *)
| GetSize (path : string)             (* os.path.getsize *)
| StatVfsOf (path : string)           (* os.statvfs *)
| StatOf (path : string)              (* os.stat, Path.stat *)
| ListDir (path : string)             (* os.listdir *)
| GlobHex (dir : string)              (* Path(dir).glob("*.hex"), the names *)
| LocalTime (mtime_ns : Z)            (* datetime.fromtimestamp(t).strftime('%Y-%m-%d %H:%M') *)
| JsonLoads (text : string)           (* json.loads; None is JSONDecodeError *)
| Getch.                              (* stdscr.getch() *)

Definition Response (r : Request) : Type :=
  match r with
  | SubprocessRun _ => ProcResult
  | PathExists _ => bool
  | PathlibExists _ => Exc + bool
  | PathIsFile _ => bool
  | ReadText _ => Exc + string
  | GetSize _ => Exc + Z
  | StatVfsOf _ => Exc + StatVfs
  | StatOf _ => Exc + StatResult
  | ListDir _ => Exc + list string
  | GlobHex _ => Exc + list string
  | LocalTime _ => Exc + string
  | JsonLoads _ => option JSON
  | Getch => Z
  end.

(** One request with the answer it got. *)
Inductive Event : Type :=
| Ev (r : Request) (a : Response r).

Definition Trace : Type := list Event.

(** ** Programs

    A program asks finitely many requests and returns.  [Result] is a Python
    call's outcome: a value or a raised exception. *)

Inductive Prog (A : Type) : Type :=
| Ret (a : A)
| Vis (r : Request) (k : Response r -> Prog A).

Arguments Ret {A} a.
Arguments Vis {A} r k.

Fixpoint pbind {A B : Type} (p : Prog A) (f : A -> Prog B) : Prog B :=
  match p with
  | Ret a => f a
  | Vis r k => Vis r (fun x => pbind (k x) f)
  end.

Inductive Result (A : Type) : Type :=
| Ok (a : A)
| Raised (e : Exc).

Arguments Ok {A} a.
Arguments Raised {A} e.

(** The environment: a state and an answer to every request. *)
Definition Handler (W : Type) : Type := forall r : Request, W -> Response r * W.

Fixpoint run {W A : Type} (h : Handler W) (p : Prog A) (w : W) : A * W * Trace :=
  match p with
  | Ret a => (a, w, [])
  | Vis r k =>
      let '(x, w1) := h r w in
      let '(a, w2, t) := run h (k x) w1 in
      (a, w2, Ev r x :: t)
  end.

(** ** The manager and its monad *)

(** The attributes of [MicrobitManager] that change or depend on the
    process's environment.  [microbit_vendor_id], [microbit_product_id] and
    [mount_point] are assigned once in [__init__] and never again: they are
    constants below. *)
Record Manager : Type := mkManager {
  downloads_dir : string;
  is_mounted : bool;
  microbit_device : option string;
  status_message : string;
  selected_file_idx : Z;
  manual_unmount : bool;
  show_info_area : bool
}.

Definition microbit_vendor_id : string := "0d28".
Definition microbit_product_id : string := "0204".
Definition mount_point : string := "/mnt/microbit".

(** [__init__], once the Downloads directory has been chosen. *)
Definition init (downloads : string) : Manager :=
  {| downloads_dir := downloads;
     is_mounted := false;
     microbit_device := None;
     status_message := "";
     selected_file_idx := 0;
     manual_unmount := false;
     show_info_area := false |}.

Definition set_is_mounted (b : bool) (m : Manager) : Manager :=
  {| downloads_dir := downloads_dir m; is_mounted := b;
     microbit_device := microbit_device m; status_message := status_message m;
     selected_file_idx := selected_file_idx m; manual_unmount := manual_unmount m;
     show_info_area := show_info_area m |}.

Definition set_microbit_device (d : option string) (m : Manager) : Manager :=
  {| downloads_dir := downloads_dir m; is_mounted := is_mounted m;
     microbit_device := d; status_message := status_message m;
     selected_file_idx := selected_file_idx m; manual_unmount := manual_unmount m;
     show_info_area := show_info_area m |}.

Definition set_status_message (s : string) (m : Manager) : Manager :=
  {| downloads_dir := downloads_dir m; is_mounted := is_mounted m;
     microbit_device := microbit_device m; status_message := s;
     selected_file_idx := selected_file_idx m; manual_unmount := manual_unmount m;
     show_info_area := show_info_area m |}.

Definition set_selected_file_idx (i : Z) (m : Manager) : Manager :=
  {| downloads_dir := downloads_dir m; is_mounted := is_mounted m;
     microbit_device := microbit_device m; status_message := status_message m;
     selected_file_idx := i; manual_unmount := manual_unmount m;
     show_info_area := show_info_area m |}.

Definition set_manual_unmount (b : bool) (m : Manager) : Manager :=
  {| downloads_dir := downloads_dir m; is_mounted := is_mounted m;
     microbit_device := microbit_device m; status_message := status_message m;
     selected_file_idx := selected_file_idx m; manual_unmount := b;
     show_info_area := show_info_area m |}.

Definition set_show_info_area (b : bool) (m : Manager) : Manager :=
  {| downloads_dir := downloads_dir m; is_mounted := is_mounted m;
     microbit_device := microbit_device m; status_message := status_message m;
     selected_file_idx := selected_file_idx m; manual_unmount := manual_unmount m;
     show_info_area := b |}.

(** A method of the manager: from the manager to a program that returns a
    value or raises, together with the manager as the call leaves it. *)
Definition M (A : Type) : Type := Manager -> Prog (Result A * Manager).

Definition ret {A : Type} (a : A) : M A := fun m => Ret (Ok a, m).

Definition raise {A : Type} (e : Exc) : M A := fun m => Ret (Raised e, m).

Definition bind {A B : Type} (c : M A) (f : A -> M B) : M B :=
  fun m => pbind (c m) (fun rm =>
    match fst rm with
    | Ok a => f a (snd rm)
    | Raised e => Ret (Raised e, snd rm)
    end).

(** [try: c except Exception as e: handler e] *)
Definition try_except {A : Type} (c : M A) (handler : Exc -> M A) : M A :=
  fun m => pbind (c m) (fun rm =>
    match fst rm with
    | Ok a => Ret (Ok a, snd rm)
    | Raised e => handler e (snd rm)
    end).

Definition ask (r : Request) : M (Response r) :=
  fun m => Vis r (fun x => Ret (Ok x, m)).

Definition gets {A : Type} (f : Manager -> A) : M A := fun m => Ret (Ok (f m), m).

Definition modify (f : Manager -> Manager) : M unit := fun m => Ret (Ok tt, f m).

(** A request that may raise. *)
Definition ask_or_raise {A : Type} (r : Request) (conv : Response r -> Exc + A) : M A :=
  bind (ask r) (fun x => match conv x with inl e => raise e | inr a => ret a end).

Declare Scope manager_scope.
Delimit Scope manager_scope with manager.

Notation "x <- c ;; k" := (bind c (fun x => k))
  (at level 100, c at next level, right associativity) : manager_scope.
Notation "' p <- c ;; k" := (bind c (fun x => match x with p => k end))
  (at level 100, p pattern, c at next level, right associativity) : manager_scope.
Notation "c ;; k" := (bind c (fun _ => k))
  (at level 100, right associativity) : manager_scope.

Open Scope manager_scope.

(** Running a method against an environment. *)
Definition exec {W A : Type} (h : Handler W) (c : M A) (m : Manager) (w : W)
  : Result A * Manager * W * Trace :=
  run h (c m) w.

Definition result_of {W A : Type} (x : Result A * Manager * W * Trace) : Result A :=
  fst (fst (fst x)).
Definition manager_of {W A : Type} (x : Result A * Manager * W * Trace) : Manager :=
  snd (fst (fst x)).
Definition world_of {W A : Type} (x : Result A * Manager * W * Trace) : W :=
  snd (fst x).
Definition trace_of {W A : Type} (x : Result A * Manager * W * Trace) : Trace :=
  snd x.

(** ** The library calls of the program *)

Definition os_path_exists (p : string) : M bool := ask (PathExists p).
Definition os_path_isfile (p : string) : M bool := ask (PathIsFile p).
Definition pathlib_exists (p : string) : M bool := ask_or_raise (PathlibExists p) (fun x => x).
Definition os_path_getsize (p : string) : M Z := ask_or_raise (GetSize p) (fun x => x).
Definition os_statvfs (p : string) : M StatVfs := ask_or_raise (StatVfsOf p) (fun x => x).
Definition os_stat (p : string) : M StatResult := ask_or_raise (StatOf p) (fun x => x).
Definition os_listdir (p : string) : M (list string) := ask_or_raise (ListDir p) (fun x => x).
Definition glob_hex (dir : string) : M (list string) := ask_or_raise (GlobHex dir) (fun x => x).
Definition read_text (p : string) : M string := ask_or_raise (ReadText p) (fun x => x).

(** [datetime.fromtimestamp(t).strftime('%Y-%m-%d %H:%M')] *)
Definition format_mtime (t : Z) : M string := ask_or_raise (LocalTime t) (fun x => x).

Definition newline : ascii := "010"%char.

(** ** [run_command] and [run_command_with_error] *)

(** [run_command(command)] with the defaults [check=True] and
    [capture_output=True], which every caller uses.  Only
    [CalledProcessError] is caught. *)
Definition run_command (command : string) : M string :=
  r <- ask (SubprocessRun command);;
  match r with
  | Completed stdout => ret (PyStr.strip stdout)
  | CalledProcessError _ _ => ret ""
  | RunRaised e => raise e
  end.

(** [e.stderr.strip() if e.stderr else f"Command failed with exit code
    {e.returncode}"] *)
Definition error_msg (returncode : Z) (stderr : string) : string :=
  match stderr with
  | EmptyString => "Command failed with exit code " ++ PyStr.of_Z returncode
  | _ => PyStr.strip stderr
  end.

Definition run_command_with_error (command : string) : M (bool * string) :=
  r <- ask (SubprocessRun command);;
  match r with
  | Completed stdout => ret (true, PyStr.strip stdout)
  | CalledProcessError returncode stderr => ret (false, error_msg returncode stderr)
  | RunRaised e => raise e
  end.

(** ** [detect_microbit] *)

Fixpoint detect_in_lines (lines : list string) : bool * option string :=
  match lines with
  | [] => (false, None)
  | line :: rest =>
      if PyStr.contains microbit_vendor_id line
         && PyStr.contains microbit_product_id line
      then match PyStr.split_ws line with
           | _ :: bus :: _ :: device :: _ =>
               (true, Some ("Bus " ++ bus ++ " Device "
                            ++ PyStr.rstrip_char ":" device))
           | _ => detect_in_lines rest
           end
      else detect_in_lines rest
  end.

Definition detect_microbit : M (bool * option string) :=
  lsusb_output <- run_command "lsusb";;
  ret (detect_in_lines (PyStr.split_on newline lsusb_output)).

(** ** Python's view of a JSON value *)

Module Py.

Definition type_name (v : JSON) : string :=
  match v with
  | JNull => "NoneType"
  | JBool _ => "bool"
  | JNum text _ =>
      if PyStr.contains "." text || PyStr.contains "e" text
         || PyStr.contains "n" text
      then "float" else "int"
  | JStr _ => "str"
  | JArr _ => "list"
  | JObj _ => "dict"
  end.

(** [bool(v)] *)
Definition truthy (v : JSON) : bool :=
  match v with
  | JNull => false
  | JBool b => b
  | JNum _ is_zero => negb is_zero
  | JStr s => negb (String.eqb s "")
  | JArr items => match items with [] => false | _ => true end
  | JObj fields => match fields with [] => false | _ => true end
  end.

Fixpoint lookup (key : string) (fields : list (string * JSON)) : option JSON :=
  match fields with
  | [] => None
  | (k, v) :: rest => if String.eqb k key then Some v else lookup key rest
  end.

(** [v.get(key, default)] *)
Definition get (v : JSON) (key : string) (default : JSON) : Result JSON :=
  match v with
  | JObj fields =>
      Ok (match lookup key fields with Some x => x | None => default end)
  | _ => Raised (mkExc AttributeError
                   ("'" ++ type_name v ++ "' object has no attribute 'get'"))
  end.

(** The elements [for x in v] goes through. *)
Definition iterate (v : JSON) : Result (list JSON) :=
  match v with
  | JArr items => Ok items
  | JObj fields => Ok (map (fun kv => JStr (fst kv)) fields)
  | JStr s => Ok (map (fun c => JStr (String c EmptyString)) (list_ascii_of_string s))
  | _ => Raised (mkExc TypeError
                   ("'" ++ type_name v ++ "' object is not iterable"))
  end.

Definition hex_digit (n : nat) : ascii :=
  ascii_of_nat (if (n <? 10)%nat then 48 + n else 87 + n).

Definition repr_char (quote : ascii) (c : ascii) : string :=
  let n := nat_of_ascii c in
  if Ascii.eqb c "\" then "\\"
  else if Ascii.eqb c quote then String "\" (String c EmptyString)
  else if (n =? 10)%nat then "\n"
  else if (n =? 13)%nat then "\r"
  else if (n =? 9)%nat then "\t"
  else if ((n <? 32) || (127 <=? n) && (n <=? 160) || (n =? 173))%nat
  then String "\" (String "x" (String (hex_digit (n / 16))
                                 (String (hex_digit (n mod 16)) EmptyString)))
  else String c EmptyString.

Fixpoint repr_body (quote : ascii) (s : string) : string :=
  match s with
  | EmptyString => EmptyString
  | String c t => repr_char quote c ++ repr_body quote t
  end.

(** The double quote character. *)
Definition double_quote : ascii := "034"%char.

(** [repr(s)] of a string. *)
Definition repr_str (s : string) : string :=
  let quote : ascii :=
    if PyStr.contains "'" s && negb (PyStr.contains (String double_quote EmptyString) s)
    then double_quote else "'"%char in
  String quote (repr_body quote s ++ String quote EmptyString).

Definition str_eqb_json (s : string) (v : JSON) : bool :=
  match v with JStr x => String.eqb x s | _ => false end.

(** [needle in v] for a string [needle]. *)
Definition contains (needle : string) (v : JSON) : Result bool :=
  match v with
  | JStr s => Ok (PyStr.contains needle s)
  | JArr items => Ok (existsb (str_eqb_json needle) items)
  | JObj fields => Ok (existsb (fun kv => String.eqb (fst kv) needle) fields)
  | _ => Raised (mkExc TypeError
                   ("argument of type '" ++ type_name v ++ "' is not iterable"))
  end.

Fixpoint repr (v : JSON) : string :=
  match v with
  | JNull => "None"
  | JBool true => "True"
  | JBool false => "False"
  | JNum text _ => text
  | JStr s => repr_str s
  | JArr items =>
      "[" ++ (fix go (l : list JSON) : string :=
                match l with
                | [] => ""
                | x :: r => match r with
                            | [] => repr x
                            | _ => repr x ++ ", " ++ go r
                            end
                end) items ++ "]"
  | JObj fields =>
      "{" ++ (fix go (l : list (string * JSON)) : string :=
                match l with
                | [] => ""
                | (k, x) :: r => match r with
                                 | [] => repr_str k ++ ": " ++ repr x
                                 | _ => repr_str k ++ ": " ++ repr x ++ ", " ++ go r
                                 end
                end) fields ++ "}"
  end.

(** [str(v)], what an f-string inserts. *)
Definition str (v : JSON) : string :=
  match v with
  | JStr s => s
  | _ => repr v
  end.

End Py.

(** ** [get_microbit_block_device] *)

(** [device['name']] inside the f-string [f"/dev/{device['name']}"]. *)
Definition device_path (device : JSON) : Result (option string) :=
  match device with
  | JObj fields =>
      match Py.lookup "name" fields with
      | Some name => Ok (Some ("/dev/" ++ Py.str name))
      | None => Raised (mkExc KeyError "'name'")
      end
  | _ => Raised (mkExc TypeError
                   ("'" ++ Py.type_name device ++ "' object is not subscriptable"))
  end.

(** ['8.1M' in size or '8M' in size] *)
Definition size_matches (size : JSON) : Result bool :=
  match Py.contains "8.1M" size with
  | Raised e => Raised e
  | Ok true => Ok true
  | Ok false => Py.contains "8M" size
  end.

(** The loop over [data.get('blockdevices', [])]: [Ok (Some path)] when it
    returns from the method, [Ok None] when it ends, [Raised] when a value
    has not the type the loop body relies on. *)
Fixpoint scan_blockdevices (devices : list JSON) : Result (option string) :=
  match devices with
  | [] => Ok None
  | device :: rest =>
      match Py.get device "rm" (JBool false) with
      | Raised e => Raised e
      | Ok rm =>
          if Py.truthy rm then
            match Py.get device "size" (JStr "") with
            | Raised e => Raised e
            | Ok size =>
                match size_matches size with
                | Raised e => Raised e
                | Ok true => device_path device
                | Ok false => scan_blockdevices rest
                end
            end
          else scan_blockdevices rest
      end
  end.

Definition find_removable (data : JSON) : Result (option string) :=
  match Py.get data "blockdevices" (JArr []) with
  | Raised e => Raised e
  | Ok devices =>
      match Py.iterate devices with
      | Raised e => Raised e
      | Ok l => scan_blockdevices l
      end
  end.

(** The fallback over the common device names. *)
Fixpoint probe_common_devices (devices : list string) : M (option string) :=
  match devices with
  | [] => ret None
  | device :: rest =>
      present <- os_path_exists device;;
      if present then
        size_output <- run_command ("lsblk -b " ++ device ++ " | tail -1");;
        if negb (String.eqb size_output "") && PyStr.contains "8" size_output
        then ret (Some device)
        else probe_common_devices rest
      else probe_common_devices rest
  end.

Definition get_microbit_block_device : M (option string) :=
  lsblk_output <- run_command "lsblk -J";;
  parsed <- ask (JsonLoads lsblk_output);;
  match parsed with
  | Some data =>
      match find_removable data with
      | Raised e => raise e
      | Ok (Some device) => ret (Some device)
      | Ok None => probe_common_devices ["/dev/sda"; "/dev/sdb"; "/dev/sdc"]
      end
  | None => probe_common_devices ["/dev/sda"; "/dev/sdb"; "/dev/sdc"]
  end.

(** ** [is_microbit_mounted] *)

Definition is_microbit_mounted : M bool :=
  mount_output <- run_command "mount";;
  ret (PyStr.contains mount_point mount_output).

(** ** [mount_microbit] *)

(** [if not device] fails for [None] and for the empty string; otherwise
    the device is a path. *)
Definition truthy_device (device : option string) : option string :=
  match device with
  | None => None
  | Some d => if String.eqb d "" then None else Some d
  end.

Definition record_mounted (device : string) : M unit :=
  modify (set_is_mounted true);;
  modify (set_microbit_device (Some device)).

Definition mount_microbit : M (bool * string) :=
  device <- get_microbit_block_device;;
  match truthy_device device with
  | None => ret (false, "No microbit block device found")
  | Some device =>
    already <- is_microbit_mounted;;
    if already then
      record_mounted device;;
      ret (true, "Already mounted " ++ device ++ " to " ++ mount_point)
    else
      ' (success, result) <- run_command_with_error ("sudo mkdir -p " ++ mount_point);;
      if negb success then ret (false, "Failed to create mount point: " ++ result)
      else
        ' (success, result) <- run_command_with_error
                                 ("sudo mount " ++ device ++ " " ++ mount_point);;
        if success then
          record_mounted device;;
          ret (true, "Mounted " ++ device ++ " to " ++ mount_point)
        else
          let error_lower := PyStr.lower result in
          if PyStr.contains "already mounted" error_lower then
            record_mounted device;;
            ret (true, "Already mounted " ++ device)
          else if PyStr.contains "permission denied" error_lower then
            ret (false, "Permission denied - run with sudo")
          else if PyStr.contains "no such file or directory" error_lower then
            ret (false, "Device " ++ device
                        ++ " not found - microbit may have been disconnected")
          else if PyStr.contains "wrong fs type" error_lower
                  || PyStr.contains "invalid argument" error_lower then
            ret (false, "Cannot mount " ++ device
                        ++ " - unsupported filesystem or corrupted device")
          else ret (false, "Mount failed: " ++ result)
  end.

(** ** [unmount_microbit] *)

Definition record_unmounted : M unit :=
  modify (set_is_mounted false);;
  modify (set_microbit_device None).

Definition umount_command : string := "sudo umount " ++ mount_point.

Definition busy_message : string :=
  "Cannot unmount - device is busy (close any files or programs using it)".

(** The method from the [umount] command on, entered unless the manager
    neither believes nor observes the mount. *)
Definition unmount_after_check : M (bool * string) :=
  ' (success, result) <- run_command_with_error umount_command;;
  if success then
    record_unmounted;;
    ret (true, "Microbit unmounted successfully")
  else
    let error_lower := PyStr.lower result in
    if PyStr.contains "not mounted" error_lower then
      record_unmounted;;
      ret (true, "Microbit was not mounted")
    else if PyStr.contains "device is busy" error_lower
            || PyStr.contains "target is busy" error_lower then
      ret (false, busy_message)
    else if PyStr.contains "permission denied" error_lower then
      ret (false, "Permission denied - run with sudo")
    else if PyStr.contains "no such file or directory" error_lower then
      record_unmounted;;
      ret (true, "Mount point not found - considering unmounted")
    else ret (false, "Unmount failed: " ++ result).

(** [not self.is_mounted and not self.is_microbit_mounted()]: the mount
    table is queried only when the manager believes itself unmounted. *)
Definition unmount_microbit : M (bool * string) :=
  believed <- gets is_mounted;;
  if believed then unmount_after_check
  else
    observed <- is_microbit_mounted;;
    if negb observed then ret (true, "Microbit not mounted")
    else unmount_after_check.

(** ** [sorted]

    Python's sort is stable; with [reverse=True] the list is reversed, sorted
    and reversed again, so that items with equal keys keep their order. *)

Section PySorted.

Context {A K : Type} (key : A -> K) (lt : K -> K -> bool).

Fixpoint insert_sorted (x : A) (l : list A) : list A :=
  match l with
  | [] => [x]
  | y :: r => if lt (key y) (key x) then y :: insert_sorted x r else x :: y :: r
  end.

Definition sort_stable (l : list A) : list A := fold_right insert_sorted [] l.

Definition sorted (reverse : bool) (l : list A) : list A :=
  if reverse then rev (sort_stable (rev l)) else sort_stable l.

End PySorted.

(** ** [get_hex_files] *)

Record HexFile : Type := mkHexFile {
  hex_name : string;
  hex_path : string;
  hex_size : Z;
  hex_mtime : string
}.

(** [str(downloads_dir / name)] *)
Definition path_join (dir name : string) : string :=
  if String.eqb dir "/" then dir ++ name else dir ++ "/" ++ name.

Fixpoint stat_hex_files (dir : string) (names : list string) : M (list HexFile) :=
  match names with
  | [] => ret []
  | name :: rest =>
      stat <- os_stat (path_join dir name);;
      mtime <- format_mtime (st_mtime_ns stat);;
      later <- stat_hex_files dir rest;;
      ret ({| hex_name := name; hex_path := path_join dir name;
              hex_size := st_size stat; hex_mtime := mtime |} :: later)
  end.

Definition get_hex_files : M (list HexFile) :=
  dir <- gets downloads_dir;;
  present <- pathlib_exists dir;;
  hex_files <- (if present then names <- glob_hex dir;; stat_hex_files dir names
                else ret []);;
  ret (sorted hex_mtime PyStr.ltb true hex_files).

(** ** [validate_hex_file] *)

(** The lines of a text, each with its line end. *)
Fixpoint lines_keepends (s : string) : list string :=
  match s with
  | EmptyString => []
  | String c t =>
      if Ascii.eqb c newline then String c EmptyString :: lines_keepends t
      else match lines_keepends t with
           | [] => [String c EmptyString]
           | l :: ls => String c l :: ls
           end
  end.

(** [f.readlines(hint)] for a positive [hint]: lines are taken until their
    total length exceeds [hint]. *)
Fixpoint take_hint (hint total : Z) (lines : list string) : list string :=
  match lines with
  | [] => []
  | line :: rest =>
      if PyStr.len line >? hint - total then [line]
      else line :: take_hint hint (total + PyStr.len line) rest
  end.

Definition readlines (hint : Z) (text : string) : list string :=
  take_hint hint 0 (lines_keepends text).

(** The test of the loop body: the stripped line starts with a colon, is at
    least 11 long, and what follows the colon is accepted by [int(_, 16)]. *)
Definition is_hex_line (line : string) : bool :=
  let line := PyStr.strip line in
  PyStr.startswith ":" line && (PyStr.len line >=? 11)
  && PyInt.parses16 (PyStr.tail line).

Definition hex_line_count (lines : list string) : Z :=
  Z.of_nat (List.length (filter is_hex_line (firstn 10 lines))).

Definition validate_hex_file (hex_file_path : string) : M (bool * string) :=
  try_except
    (text <- read_text hex_file_path;;
     let lines := readlines 100 text in
     match lines with
     | [] => ret (false, "File is empty")
     | _ =>
         if hex_line_count lines =? 0
         then ret (false, "File does not appear to be in Intel HEX format")
         else ret (true, "Valid HEX file")
     end)
    (fun e => ret (false, "Cannot validate file: " ++ exc_msg e)).

(** ** [copy_hex_file] *)

Definition copy_command (hex_file_path dest_path : string) : string :=
  "sudo cp '" ++ hex_file_path ++ "' '" ++ dest_path ++ "'".

(** The rough space check: [Some] is the early return of the method. *)
Definition check_space (hex_file_path : string) : M (option (bool * string)) :=
  try_except
    (statvfs <- os_statvfs mount_point;;
     let free_bytes := f_frsize statvfs * f_bavail statvfs in
     file_size <- os_path_getsize hex_file_path;;
     if free_bytes <? file_size
     then ret (Some (false, "Not enough space on microbit (" ++ PyStr.of_Z free_bytes
                            ++ " bytes free, need " ++ PyStr.of_Z file_size ++ ")"))
     else ret None)
    (fun _ => ret None).

(** The branch taken when the copy command reported success. *)
Definition verify_copy (hex_file_path filename dest_path : string) : M (bool * string) :=
  present <- os_path_exists dest_path;;
  if present then
    try_except
      (copied_size <- os_path_getsize dest_path;;
       original_size <- os_path_getsize hex_file_path;;
       if negb (copied_size =? original_size)
       then ret (false, "Copy incomplete: " ++ PyStr.of_Z copied_size ++ "/"
                        ++ PyStr.of_Z original_size ++ " bytes")
       else ret (true, "Successfully copied " ++ filename ++ " ("
                       ++ PyStr.of_Z_grouped copied_size ++ " bytes)"))
      (fun e => ret (true, "Copied " ++ filename ++ " (verification failed: "
                           ++ exc_msg e ++ ")"))
  else ret (false, "Copy appeared successful but file not found on microbit").

(** The branch taken when the copy command failed. *)
Definition classify_copy_error (result : string) : bool * string :=
  let error_lower := PyStr.lower result in
  if PyStr.contains "no space left" error_lower then
    (false, "No space left on microbit")
  else if PyStr.contains "permission denied" error_lower then
    (false, "Permission denied - microbit may be read-only or disconnected")
  else if PyStr.contains "no such file" error_lower then
    (false, "Microbit disconnected during copy")
  else if PyStr.contains "input/output error" error_lower then
    (false, "I/O error - microbit may have been disconnected")
  else (false, "Copy failed: " ++ result).

Definition copy_hex_file (hex_file_path : string) : M (bool * string) :=
  mounted <- gets is_mounted;;
  if negb mounted then ret (false, "Microbit not mounted")
  else
    present <- os_path_exists hex_file_path;;
    if negb present then ret (false, "Source file not found: " ++ hex_file_path)
    else
      regular <- os_path_isfile hex_file_path;;
      if negb regular then ret (false, "Source is not a file: " ++ hex_file_path)
      else
        ' (is_valid, validation_msg) <- validate_hex_file hex_file_path;;
        if negb is_valid then ret (false, "Invalid HEX file: " ++ validation_msg)
        else
          readable <- try_except
                        (read_text hex_file_path;; ret None)
                        (fun e =>
                           if is_PermissionError e
                           then ret (Some (false, "Permission denied reading source file"))
                           else ret (Some (false, "Cannot read source file: " ++ exc_msg e)));;
          match readable with
          | Some failure => ret failure
          | None =>
              let filename := PyStr.basename hex_file_path in
              let dest_path := mount_point ++ "/" ++ filename in
              there <- os_path_exists mount_point;;
              if negb there
              then ret (false, "Mount point no longer exists - microbit may have been disconnected")
              else
                space <- check_space hex_file_path;;
                match space with
                | Some failure => ret failure
                | None =>
                    ' (success, result) <- run_command_with_error
                                             (copy_command hex_file_path dest_path);;
                    if success then verify_copy hex_file_path filename dest_path
                    else ret (classify_copy_error result)
                end
          end.

(** ** [get_microbit_files] *)

Record MicrobitFile : Type := mkMicrobitFile {
  file_name : string;
  file_size : Z;
  file_mtime : string
}.

(** [os.path.join(mount_point, item)] *)
Definition os_path_join (dir item : string) : string :=
  if PyStr.startswith "/" item then item else dir ++ "/" ++ item.

(** The [try] around [os.stat] in the loop: the entry of a file, or the entry
    with unknown size and time when its metadata cannot be read. *)
Definition stat_entry (item item_path : string) : M MicrobitFile :=
  try_except
    (stat <- os_stat item_path;;
     mtime <- format_mtime (st_mtime_ns stat);;
     ret {| file_name := item; file_size := st_size stat; file_mtime := mtime |})
    (fun _ => ret {| file_name := item; file_size := 0; file_mtime := "unknown" |}).

Fixpoint stat_microbit_files (items : list string) : M (list MicrobitFile) :=
  match items with
  | [] => ret []
  | item :: rest =>
      let item_path := os_path_join mount_point item in
      regular <- os_path_isfile item_path;;
      if regular then
        entry <- stat_entry item item_path;;
        later <- stat_microbit_files rest;;
        ret (entry :: later)
      else stat_microbit_files rest
  end.

Definition get_microbit_files : M (option (list MicrobitFile)) :=
  mounted <- gets is_mounted;;
  if negb mounted then ret None
  else
    there <- os_path_exists mount_point;;
    if negb there then ret None
    else
      try_except
        (items <- os_listdir mount_point;;
         files <- stat_microbit_files items;;
         ret (Some (sorted file_name PyStr.ltb false files)))
        (fun _ => ret None).

(** ** [get_microbit_info], [get_firmware_version], [get_microbit_details] *)

Definition get_microbit_info : M (option string) :=
  mounted <- gets is_mounted;;
  if negb mounted then ret None
  else
    let details_path := mount_point ++ "/DETAILS.TXT" in
    present <- os_path_exists details_path;;
    if present
    then try_except (text <- read_text details_path;; ret (Some text))
                    (fun _ => ret None)
    else ret None.

Fixpoint find_interface_version (lines : list string) : option string :=
  match lines with
  | [] => None
  | line :: rest =>
      let line := PyStr.strip line in
      if PyStr.startswith "Interface Version:" line
      then match PyStr.split_once ":" line with
           | _ :: version :: _ => Some (PyStr.strip version)
           | _ => find_interface_version rest
           end
      else find_interface_version rest
  end.

Definition get_firmware_version : M (option string) :=
  info <- get_microbit_info;;
  match info with
  | None => ret None
  | Some text =>
      if String.eqb text "" then ret None
      else ret (find_interface_version (PyStr.split_on newline text))
  end.

(** [details[key] = value] on a dictionary kept as its items. *)
Fixpoint dict_set (key value : string) (d : list (string * string)) : list (string * string) :=
  match d with
  | [] => [(key, value)]
  | (k, v) :: rest =>
      if String.eqb k key then (k, value) :: rest else (k, v) :: dict_set key value rest
  end.

Definition detail_keys : list string :=
  ["Interface Version"; "Bootloader Version"; "Unique ID"; "HIC ID";
   "Daplink Mode"; "USB Interfaces"; "URL"].

Definition add_detail (details : list (string * string)) (line : string)
  : list (string * string) :=
  let line := PyStr.strip line in
  if PyStr.contains ":" line && negb (PyStr.startswith "#" line)
  then match PyStr.split_once ":" line with
       | key :: value :: _ =>
           let key := PyStr.strip key in
           let value := PyStr.strip value in
           if existsb (String.eqb key) detail_keys
           then dict_set key value details else details
       | _ => details
       end
  else details.

Definition get_microbit_details : M (list (string * string)) :=
  info <- get_microbit_info;;
  match info with
  | None => ret []
  | Some text =>
      if String.eqb text "" then ret []
      else ret (fold_left add_detail (PyStr.split_on newline text) [])
  end.

(** ** [main_loop]

    One iteration of the [while True] loop.  The calls to [curses] only draw
    and are left out; the [draw_*] methods are kept as the queries they make
    of the manager's own methods. *)

Definition draw_header : M unit :=
  detect_microbit;;
  mounted <- gets is_mounted;;
  if mounted then get_firmware_version;; ret tt else ret tt.

Definition draw_microbit_files : M unit :=
  get_microbit_files;; ret tt.

Definition draw_info_area : M unit :=
  shown <- gets show_info_area;;
  mounted <- gets is_mounted;;
  if negb shown || negb mounted then ret tt
  else get_microbit_details;; ret tt.

(** "Check microbit status" *)
Definition check_microbit_status : M unit :=
  ' (connected, _) <- detect_microbit;;
  mounted <- gets is_mounted;;
  latch <- gets manual_unmount;;
  if connected && negb mounted && negb latch then
    ' (success, msg) <- mount_microbit;;
    if success then modify (set_status_message msg) else ret tt
  else if negb connected && mounted then
    unmount_microbit;;
    modify (set_manual_unmount false);;
    modify (set_status_message "Microbit disconnected and unmounted")
  else if negb connected then
    modify (set_manual_unmount false)
  else ret tt.

(** "Adjust selected index if necessary" *)
Definition adjust_selected (hex_files : list HexFile) : M unit :=
  match hex_files with
  | [] => modify (set_selected_file_idx 0)
  | _ =>
      modify (fun m => set_selected_file_idx
                         (Z.min (selected_file_idx m)
                                (Z.of_nat (List.length hex_files) - 1)) m)
  end.

(** [hex_files[i]] *)
Definition py_index {A : Type} (l : list A) (i : Z) : option A :=
  let n := Z.of_nat (List.length l) in
  if i <? 0 then (if i + n <? 0 then None else nth_error l (Z.to_nat (i + n)))
  else nth_error l (Z.to_nat i).

Definition KEY_UP : Z := 259.
Definition KEY_DOWN : Z := 258.
Definition KEY_ENTER : Z := 343.
Definition ord_q : Z := 113.
Definition ord_k : Z := 107.
Definition ord_j : Z := 106.
Definition ord_newline : Z := 10.
Definition ord_m : Z := 109.
Definition ord_r : Z := 114.
Definition ord_i : Z := 105.

Definition nonempty {A : Type} (l : list A) : bool :=
  match l with [] => false | _ => true end.

(** "Handle input": [false] is the [break] of the loop. *)
Definition handle_key (key : Z) (hex_files : list HexFile) : M bool :=
  if key =? ord_q then ret false
  else if (key =? KEY_UP) || (key =? ord_k) then
    idx <- gets selected_file_idx;;
    (if nonempty hex_files && (idx >? 0)
     then modify (set_selected_file_idx (idx - 1)) else ret tt);;
    ret true
  else if (key =? KEY_DOWN) || (key =? ord_j) then
    idx <- gets selected_file_idx;;
    (if nonempty hex_files && (idx <? Z.of_nat (List.length hex_files) - 1)
     then modify (set_selected_file_idx (idx + 1)) else ret tt);;
    ret true
  else if (key =? ord_newline) || (key =? KEY_ENTER) || (key =? 10) then
    mounted <- gets is_mounted;;
    (if nonempty hex_files && mounted then
       idx <- gets selected_file_idx;;
       match py_index hex_files idx with
       | None => raise (mkExc IndexError "list index out of range")
       | Some selected_file =>
           ' (success, msg) <- copy_hex_file (hex_path selected_file);;
           modify (set_status_message msg)
       end
     else if negb mounted then
       modify (set_status_message "Microbit not mounted - press 'm' to mount")
     else modify (set_status_message "No hex files to copy"));;
    ret true
  else if key =? ord_m then
    mounted <- gets is_mounted;;
    msg <- (if mounted then
              ' (success, msg) <- unmount_microbit;;
              (if success then modify (set_manual_unmount true) else ret tt);;
              ret msg
            else
              ' (success, msg) <- mount_microbit;;
              (if success then modify (set_manual_unmount false) else ret tt);;
              ret msg);;
    modify (set_status_message msg);;
    ret true
  else if key =? ord_r then
    modify (set_status_message "File list refreshed");;
    ret true
  else if key =? ord_i then
    mounted <- gets is_mounted;;
    (if mounted then
       shown <- gets show_info_area;;
       modify (set_show_info_area (negb shown));;
       modify (set_status_message
                 ("Firmware info " ++ (if negb shown then "shown" else "hidden")))
     else modify (set_status_message "Microbit not mounted"));;
    ret true
  else ret true.

Definition main_loop_iteration : M bool :=
  draw_header;;
  check_microbit_status;;
  hex_files <- get_hex_files;;
  adjust_selected hex_files;;
  draw_microbit_files;;
  draw_info_area;;
  key <- ask Getch;;
  handle_key key hex_files.

(** The [finally] clause of [run]. *)
Definition cleanup : M unit :=
  mounted <- gets is_mounted;;
  if mounted then unmount_microbit;; ret tt else ret tt.

(** * Statements *)

(** What [run_command] and [run_command_with_error] make of the outcome of
    [subprocess.run]. *)
Definition output_of (r : ProcResult) : Result string :=
  match r with
  | Completed stdout => Ok (PyStr.strip stdout)
  | CalledProcessError _ _ => Ok ""
  | RunRaised e => Raised e
  end.

(** What [detect_microbit] makes of the outcome of [lsusb]. *)
Definition detection_of (r : ProcResult) : Result (bool * option string) :=
  match output_of r with
  | Ok lsusb_output => Ok (detect_in_lines (PyStr.split_on newline lsusb_output))
  | Raised e => Raised e
  end.

Definition outcome_of (r : ProcResult) : Result (bool * string) :=
  match r with
  | Completed stdout => Ok (true, PyStr.strip stdout)
  | CalledProcessError returncode stderr => Ok (false, error_msg returncode stderr)
  | RunRaised e => Raised e
  end.

(** A call that leaves the manager as it found it. *)
Definition readonly {A : Type} (c : M A) : Prop :=
  forall (W : Type) (h : Handler W) (m : Manager) (w : W),
    manager_of (exec h c m w) = m.

(** ** Diagnostics

    A phrase occurs in a diagnostic whatever the case of its letters. *)
Definition occurs_ci (phrase diagnostic : string) : Prop :=
  exists before found after : string,
    diagnostic = before ++ found ++ after /\ PyStr.lower found = phrase.

(** ** A test bench

    An environment with a few switches: whether the board is on the bus,
    whether the mount point is in the mount table, what [umount] and [cp]
    print on failure, the text of every file, the size of what is on the
    board and how many of the next readings of that size fail.  [mount] and
    [umount] update the mount table. *)
Record Bench : Type := mkBench {
  plugged : bool;
  in_mount_table : bool;
  umount_stderr : option string;
  cp_stderr : option string;
  file_text : string;
  copied_size : Z;
  getsize_faults : nat;
  key_pressed : Z
}.

(** The output of [lsblk -J] is kept as a token; [json.loads] answers it
    with the tree below. *)
Definition lsblk_text : string := "<lsblk -J>".

Definition lsblk_tree : JSON :=
  JObj [("blockdevices",
         JArr [JObj [("name", JStr "sda"); ("size", JStr "238.5G"); ("rm", JBool false)];
               JObj [("name", JStr "sdb"); ("size", JStr "8.1M"); ("rm", JBool true)]])].

Definition set_in_mount_table (b : bool) (w : Bench) : Bench :=
  {| plugged := plugged w; in_mount_table := b; umount_stderr := umount_stderr w;
     cp_stderr := cp_stderr w; file_text := file_text w;
     copied_size := copied_size w; getsize_faults := getsize_faults w;
     key_pressed := key_pressed w |}.

Definition set_getsize_faults (n : nat) (w : Bench) : Bench :=
  {| plugged := plugged w; in_mount_table := in_mount_table w;
     umount_stderr := umount_stderr w; cp_stderr := cp_stderr w;
     file_text := file_text w; copied_size := copied_size w;
     getsize_faults := n; key_pressed := key_pressed w |}.

(** [OSError(5, ...)] and [FileNotFoundError(2, ...)] as [os.stat] raises
    them for a path. *)
Definition io_error (path : string) : Exc :=
  mkExc OSError ("[Errno 5] Input/output error: '" ++ path ++ "'").

Definition no_such_file (path : string) : Exc :=
  mkExc FileNotFoundError ("[Errno 2] No such file or directory: '" ++ path ++ "'").

Definition bench_getsize (path : string) (w : Bench) : (Exc + Z) * Bench :=
  if PyStr.startswith mount_point path then
    match getsize_faults w with
    | O => (inr (copied_size w), w)
    | S n => (inl (io_error path), set_getsize_faults n w)
    end
  else (inr (PyStr.len (file_text w)), w).

Definition bench_subprocess (command : string) (w : Bench) : ProcResult * Bench :=
  if String.eqb command "lsusb" then
    (Completed (if plugged w
                then "Bus 001 Device 004: ID 0d28:0204 NXP ARM mbed"
                else "Bus 001 Device 001: ID 1d6b:0002 Linux Foundation 2.0 root hub"), w)
  else if String.eqb command "lsblk -J" then
    (if plugged w then Completed lsblk_text else CalledProcessError 32 "", w)
  else if String.eqb command "mount" then
    (Completed (if in_mount_table w
                then "/dev/sdb on /mnt/microbit type vfat (rw,relatime)"
                else "sysfs on /sys type sysfs (rw,nosuid,nodev,noexec,relatime)"), w)
  else if String.eqb command "sudo mount /dev/sdb /mnt/microbit" then
    (Completed "", set_in_mount_table true w)
  else if String.eqb command umount_command then
    match umount_stderr w with
    | None => (Completed "", set_in_mount_table false w)
    | Some diagnostic => (CalledProcessError 32 diagnostic, w)
    end
  else if PyStr.startswith "sudo cp " command then
    match cp_stderr w with
    | None => (Completed "", w)
    | Some diagnostic => (CalledProcessError 1 diagnostic, w)
    end
  else (Completed "", w).

Definition bench : Handler Bench :=
  fun r =>
    match r as r0 return Bench -> Response r0 * Bench with
    | SubprocessRun command => bench_subprocess command
    | PathExists _ => fun w => (true, w)
    | PathlibExists _ => fun w => (inr true, w)
    | PathIsFile _ => fun w => (true, w)
    | ReadText _ => fun w => (inr (file_text w), w)
    | GetSize path => bench_getsize path
    | StatVfsOf _ => fun w => (inr {| f_frsize := 512; f_bavail := 16000 |}, w)
    | StatOf path =>
        fun w => (if String.eqb path "/mnt/microbit/MICROBIT.HTM"
                  then inl (io_error path)
                  else inr {| st_size := PyStr.len (file_text w); st_mtime_ns := 0 |},
                  w)
    | ListDir _ => fun w => (inr ["DETAILS.TXT"; "MICROBIT.HTM"], w)
    | GlobHex _ => fun w => (inr [], w)
    | LocalTime _ => fun w => (inr "1970-01-01 00:00", w)
    | JsonLoads text =>
        fun w => (if String.eqb text lsblk_text then Some lsblk_tree else None, w)
    | Getch => fun w => (key_pressed w, w)
    end.

Definition bench_idle : Bench :=
  {| plugged := true; in_mount_table := false; umount_stderr := None;
     cp_stderr := None; file_text := ":020000040000FA"; copied_size := 15;
     getsize_faults := O; key_pressed := -1 |}.

Definition manager0 : Manager := init "/home/pi/Downloads".

(** The manager after a mount that succeeded. *)
Definition manager_mounted : Manager :=
  set_microbit_device (Some "/dev/sdb") (set_is_mounted true manager0).

(** Whether a text begins, and ends, with a character that is not white
    space: [strip] then keeps it wherever it occurs. *)
Definition starts_nonspace (x : string) : bool :=
  match x with
  | EmptyString => false
  | String c _ => negb (PyStr.is_space c)
  end.

Fixpoint ends_nonspace (x : string) : bool :=
  match x with
  | EmptyString => false
  | String c EmptyString => negb (PyStr.is_space c)
  | String _ t => ends_nonspace t
  end.

(** An environment whose [umount] fails with a diagnostic that names both
    conditions. *)
Definition bench_busy_and_not_mounted : Bench :=
  {| plugged := true; in_mount_table := true;
     umount_stderr := Some "umount: /mnt/microbit: not mounted (target is busy)";
     cp_stderr := None; file_text := ":020000040000FA"; copied_size := 15;
     getsize_faults := O; key_pressed := -1 |}.

Definition bench_busy : Bench :=
  {| plugged := true; in_mount_table := true;
     umount_stderr := Some "umount: /mnt/microbit: Target is BUSY.";
     cp_stderr := None; file_text := ":020000040000FA"; copied_size := 15;
     getsize_faults := O; key_pressed := -1 |}.

(** ** The mount state

    The manager's belief and the device it recorded go together. *)
Definition consistent (m : Manager) : Prop :=
  (is_mounted m = true -> microbit_device m <> None)
  /\ (is_mounted m = false -> microbit_device m = None).

(** A call under which a property of the manager is kept. *)
Definition preserves {A : Type} (I : Manager -> Prop) (c : M A) : Prop :=
  forall (W : Type) (h : Handler W) (m : Manager) (w : W),
    I m -> I (manager_of (exec h c m w)).

(** The operations on a manager, and the managers reached from [__init__]
    by any of them in any environment, whatever each returns or raises. *)
Inductive Op : Type :=
| OpMount
| OpUnmount
| OpCopy (hex_file_path : string)
| OpPoll
| OpCleanup.

Definition manager_after {W : Type} (h : Handler W) (op : Op) (m : Manager) (w : W)
  : Manager :=
  match op with
  | OpMount => manager_of (exec h mount_microbit m w)
  | OpUnmount => manager_of (exec h unmount_microbit m w)
  | OpCopy hex_file_path => manager_of (exec h (copy_hex_file hex_file_path) m w)
  | OpPoll => manager_of (exec h main_loop_iteration m w)
  | OpCleanup => manager_of (exec h cleanup m w)
  end.

Inductive reachable : Manager -> Prop :=
| reach_init (downloads : string) : reachable (init downloads)
| reach_step (W : Type) (h : Handler W) (w : W) (op : Op) (m : Manager) :
    reachable m -> reachable (manager_after h op m w).

(** The block device resolves to [d] and the mount table, queried next,
    shows the mount point. *)
Definition resolves_mounted {W : Type} (h : Handler W) (m : Manager) (w : W)
  (d : string) : Prop :=
  result_of (exec h get_microbit_block_device m w) = Ok (Some d)
  /\ result_of (exec h is_microbit_mounted m
                  (world_of (exec h get_microbit_block_device m w))) = Ok true.

Definition bench_mounted : Bench := set_in_mount_table true bench_idle.

Definition bench_unplugged : Bench :=
  {| plugged := false; in_mount_table := false; umount_stderr := None;
     cp_stderr := None; file_text := ":020000040000FA"; copied_size := 15;
     getsize_faults := O; key_pressed := -1 |}.

(** The manager after the user unmounted by hand. *)
Definition manager_latched : Manager := set_manual_unmount true manager0.

(** ** The requests after a shell command

    The answer to the first run of [command] in a trace, and the requests
    issued after it. *)
Fixpoint after_command (command : string) (t : Trace) : option (ProcResult * Trace) :=
  match t with
  | [] => None
  | Ev r a :: rest =>
      match r as r0 return Response r0 -> option (ProcResult * Trace) with
      | SubprocessRun c =>
          fun a => if String.eqb c command then Some (a, rest)
                   else after_command command rest
      | _ => fun _ => after_command command rest
      end a
  end.

(** A trace with no shell command in it. *)
Definition shell_free (t : Trace) : Prop :=
  forall command, after_command command t = None.

(** [dest_path] of [copy_hex_file] *)
Definition dest_path_of (hex_file_path : string) : string :=
  mount_point ++ "/" ++ PyStr.basename hex_file_path.

(** What [validate_hex_file] makes of the reading of the file. *)
Definition validation_of (reading : Exc + string) : bool * string :=
  match reading with
  | inl e => (false, "Cannot validate file: " ++ exc_msg e)
  | inr text =>
      match readlines 100 text with
      | [] => (false, "File is empty")
      | lines =>
          if hex_line_count lines =? 0
          then (false, "File does not appear to be in Intel HEX format")
          else (true, "Valid HEX file")
      end
  end.

(** The board holds a truncated copy, and the first reading of its size
    fails. *)
Definition bench_partial_copy : Bench :=
  {| plugged := true; in_mount_table := true; umount_stderr := None;
     cp_stderr := None; file_text := ":020000040000FA"; copied_size := 7;
     getsize_faults := 1%nat; key_pressed := -1 |}.

Definition bench_truncated : Bench :=
  {| plugged := true; in_mount_table := true; umount_stderr := None;
     cp_stderr := None; file_text := ":020000040000FA"; copied_size := 7;
     getsize_faults := O; key_pressed := -1 |}.

Definition blink_hex : string := "/home/pi/Downloads/blink.hex".

(** A call that runs no shell command and only reads the manager. *)
Definition quiet {A : Type} (c : M A) : Prop :=
  forall (W : Type) (h : Handler W) (m : Manager) (w : W),
    shell_free (trace_of (exec h c m w)) /\ manager_of (exec h c m w) = m.

Definition is_subprocess (r : Request) : bool :=
  match r with SubprocessRun _ => true | _ => false end.

(** What a part of [copy_hex_file] owes about the copy command: if the
    command was run and reported success, what follows is a run of
    [verify_copy] whose result is the part's own; if it failed, nothing
    follows and the result is the classified diagnostic; if running it
    raised, nothing follows and the part raises the same. *)
Definition after_copy_spec (hex_file_path : string) (c : M (bool * string)) : Prop :=
  forall (W : Type) (h : Handler W) (m : Manager) (w : W),
    match after_command (copy_command hex_file_path (dest_path_of hex_file_path))
            (trace_of (exec h c m w)) with
    | None => True
    | Some (Completed _, post) =>
        exists w',
          post = trace_of (exec h (verify_copy hex_file_path
                                     (PyStr.basename hex_file_path)
                                     (dest_path_of hex_file_path)) m w')
          /\ result_of (exec h c m w)
             = result_of (exec h (verify_copy hex_file_path
                                    (PyStr.basename hex_file_path)
                                    (dest_path_of hex_file_path)) m w')
    | Some (CalledProcessError returncode stderr, post) =>
        post = []
        /\ result_of (exec h c m w)
           = Ok (classify_copy_error (error_msg returncode stderr))
    | Some (RunRaised e, post) =>
        post = [] /\ result_of (exec h c m w) = Raised e
    end.

(** A firmware image whose first line is a long comment, and an environment
    in which every file reads as it. *)
Definition commented_hex : string :=
  "; micro:bit firmware image, built by the project's continuous integration; do not edit by hand (see README)" ++
  String newline (":020000040000FA" ++ String newline (":00000001FF" ++ String newline "")).

Definition bench_commented : Bench :=
  {| plugged := true; in_mount_table := true; umount_stderr := None;
     cp_stderr := None; file_text := commented_hex; copied_size := 15;
     getsize_faults := O; key_pressed := -1 |}.

(** ** Orders of a listing

    [a] may stand before [b] in ascending order of the key when [b]'s key is
    not below [a]'s, and in descending order when [a]'s key is not below
    [b]'s. *)
Definition ascending {A K : Type} (key : A -> K) (lt : K -> K -> bool) (a b : A) : Prop :=
  lt (key b) (key a) = false.

Definition descending {A K : Type} (key : A -> K) (lt : K -> K -> bool) (a b : A) : Prop :=
  lt (key a) (key b) = false.

(** ** A directory of firmware images

    An environment that answers for a directory from a list of files, each
    with its name, its size, the second of its last modification and the
    text that this time gives when formatted; the machine keeps its clock
    in UTC.  The times are whole seconds, for which the float [st_mtime] is
    exact. *)

Definition pad2 (n : Z) : string :=
  if n <? 10 then "0" ++ PyStr.of_Z n else PyStr.of_Z n.

(** The civil date of a day counted from 1970-01-01. *)
Definition civil_of_days (days : Z) : Z * Z * Z :=
  let z := days + 719468 in
  let era := z / 146097 in
  let doe := z - era * 146097 in
  let yoe := (doe - doe / 1460 + doe / 36524 - doe / 146096) / 365 in
  let doy := doe - (365 * yoe + yoe / 4 - yoe / 100) in
  let mp := (5 * doy + 2) / 153 in
  let d := doy - (153 * mp + 2) / 5 + 1 in
  let mo := if mp <? 10 then mp + 3 else mp - 9 in
  (yoe + era * 400 + (if mo <=? 2 then 1 else 0), mo, d).

(** ['%Y-%m-%d %H:%M'] of a whole number of seconds since the epoch, in
    UTC. *)
Definition utc_minute (seconds : Z) : string :=
  let '(y, mo, d) := civil_of_days (seconds / 86400) in
  let rem := seconds mod 86400 in
  PyStr.of_Z y ++ "-" ++ pad2 mo ++ "-" ++ pad2 d ++ " "
  ++ pad2 (rem / 3600) ++ ":" ++ pad2 ((rem mod 3600) / 60).

Record ShelfFile : Type := mkShelfFile {
  shelf_name : string;
  shelf_stat : StatResult;
  shelf_minute : string
}.

Definition on_shelf (name : string) (size seconds : Z) : ShelfFile :=
  {| shelf_name := name;
     shelf_stat := {| st_size := size; st_mtime_ns := seconds * 1000000000 |};
     shelf_minute := utc_minute seconds |}.

Definition shelf_os_stat (dir path : string) (files : list ShelfFile)
  : Exc + StatResult :=
  match find (fun f => String.eqb (path_join dir (shelf_name f)) path) files with
  | Some f => inr (shelf_stat f)
  | None => inl (no_such_file path)
  end.

(** The formatted time of a file of the shelf; no other time is asked
    for. *)
Definition shelf_local_time (t : Z) (files : list ShelfFile) : Exc + string :=
  match find (fun f => st_mtime_ns (shelf_stat f) =? t) files with
  | Some f => inr (shelf_minute f)
  | None => inl (mkExc OSError "[Errno 75] Value too large for defined data type")
  end.

Definition shelf (dir : string) (files : list ShelfFile) : Handler unit :=
  fun r =>
    match r as r0 return unit -> Response r0 * unit with
    | SubprocessRun _ => fun w => (CalledProcessError 1 "", w)
    | PathExists path => fun w => (String.eqb path dir, w)
    | PathlibExists path => fun w => (inr (String.eqb path dir), w)
    | PathIsFile _ => fun w => (false, w)
    | ReadText path => fun w => (inl (no_such_file path), w)
    | GetSize path => fun w => (inl (no_such_file path), w)
    | StatVfsOf path => fun w => (inl (no_such_file path), w)
    | StatOf path => fun w => (shelf_os_stat dir path files, w)
    | ListDir path => fun w => (inl (no_such_file path), w)
    | GlobHex _ => fun w => (inr (map shelf_name files), w)
    | LocalTime t => fun w => (shelf_local_time t files, w)
    | JsonLoads _ => fun w => (None, w)
    | Getch => fun w => (-1, w)
    end.

(** Two images saved thirty seconds apart within one minute, the older one
    first in the directory's order. *)
Definition older_hex : ShelfFile := on_shelf "older.hex" 600000 1700000005.

Definition newer_hex : ShelfFile := on_shelf "newer.hex" 600000 1700000035.

Definition week_old_hex : ShelfFile := on_shelf "last_week.hex" 500000 1699395200.

(** The mount point is gone although the manager believes it mounted. *)
Definition bench_vanished : Handler Bench :=
  fun r =>
    match r as r0 return Bench -> Response r0 * Bench with
    | PathExists path => fun w => (negb (String.eqb path mount_point), w)
    | r0 => bench r0
    end.

(** ** What a listing of the board owes to the answers it got

    Every path that passed the regular-file test has an entry, and every
    path whose [os.stat] raised has an entry with size 0 and time
    "unknown". *)
Definition unknown_entry (item : string) : MicrobitFile :=
  {| file_name := item; file_size := 0; file_mtime := "unknown" |}.

Definition listing_covers (files : list MicrobitFile) (t : Trace) : Prop :=
  (forall path, In (Ev (PathIsFile path) true) t ->
     exists f, In f files /\ os_path_join mount_point (file_name f) = path)
  /\ (forall path e, In (Ev (StatOf path) (inl e)) t ->
        exists f, In f files /\ os_path_join mount_point (file_name f) = path
                  /\ file_size f = 0 /\ file_mtime f = "unknown").

(** ** What a listing of the images owes to the answers it got

    The size of an entry is that of the [stat] of its path, and its time is
    the text that the formatting of that [stat]'s modification time gave,
    asked for right after the [stat]. *)
Definition hex_entry_from (t : Trace) (f : HexFile) : Prop :=
  exists (stat : StatResult) (before after : Trace),
    t = (before
         ++ Ev (StatOf (hex_path f)) (inr stat)
         :: Ev (LocalTime (st_mtime_ns stat)) (inr (hex_mtime f))
         :: after)%list
    /\ hex_size f = st_size stat.

(** The latch is set on an unmounted manager. *)
Definition latched (m : Manager) : Prop :=
  manual_unmount m = true /\ is_mounted m = false.

(** ** Further statements

    A call that always returns: no exception leaves it, whatever the
    environment answers. *)
Definition never_raises {A : Type} (c : M A) : Prop :=
  forall (W : Type) (h : Handler W) (m : Manager) (w : W),
    exists a, result_of (exec h c m w) = Ok a.

(** ** [MicrobitManager.run]

    The [while True] loop of [main_loop], unrolled at most [fuel] times:
    [true] when the loop was left by its [break], [false] when it is still
    running after [fuel] iterations. *)
Fixpoint main_loop (fuel : nat) : M bool :=
  match fuel with
  | O => ret false
  | S n =>
      continue <- main_loop_iteration;;
      if continue then main_loop n else ret true
  end.

(** [try: body finally: final]: [final] runs whether [body] returned or
    raised; what [body] raised is raised again unless [final] raises. *)
Definition try_finally {A : Type} (body : M A) (final : M unit) : M A :=
  fun m => pbind (body m) (fun rm =>
    pbind (final (snd rm)) (fun rm2 =>
      match fst rm2 with
      | Ok _ => Ret (fst rm, snd rm2)
      | Raised e => Ret (Raised e, snd rm2)
      end)).

(** The method [run] of the manager, for a loop that ends within [fuel]
    iterations; while the loop is still running the [finally] clause is not
    reached.  The [except KeyboardInterrupt] clause only prints. *)
Definition manager_run (fuel : nat) : M bool :=
  fun m => pbind (main_loop fuel m) (fun rm =>
    match fst rm with
    | Ok false => Ret (Ok false, snd rm)
    | outcome => try_finally (fun m1 => Ret (outcome, m1)) cleanup (snd rm)
    end).

(** The recorded device, when there is one, is a path under [/dev/]. *)
Definition device_under_dev (m : Manager) : Prop :=
  forall d, microbit_device m = Some d -> String.prefix "/dev/" d = true.

(** The selected index is not negative. *)
Definition index_nonneg (m : Manager) : Prop := 0 <= selected_file_idx m.

(** The selected index designates an item of a listing, if the listing has
    any. *)
Definition index_in_range (hex_files : list HexFile) (m : Manager) : Prop :=
  0 <= selected_file_idx m
  /\ (hex_files <> [] -> selected_file_idx m < Z.of_nat (List.length hex_files)).

(** An environment in which [mount] refuses because the device is mounted. *)
Definition bench_mount_refused : Handler Bench :=
  fun r =>
    match r as r0 return Bench -> Response r0 * Bench with
    | SubprocessRun command =>
        fun w =>
          if String.eqb command "sudo mount /dev/sdb /mnt/microbit"
          then (CalledProcessError 32
                  "mount: /mnt/microbit: /dev/sdb Already Mounted on /mnt/microbit.", w)
          else bench_subprocess command w
    | r0 => bench r0
    end.

(** The board plugged in and the user pressing [q] at the first poll. *)
Definition bench_quit : Bench :=
  {| plugged := true; in_mount_table := false; umount_stderr := None;
     cp_stderr := None; file_text := ":020000040000FA"; copied_size := 15;
     getsize_faults := O; key_pressed := ord_q |}.

(** ** The lines that the validation examines *)

(** The number of characters of some lines, line ends included. *)
Definition total_len (lines : list string) : Z :=
  fold_right (fun line n => PyStr.len line + n) 0 lines.

(** The line of index [i] of a text is examined by [validate_hex_file] when
    it is among the first ten and the lines before it hold at most 100
    characters together. *)
Definition examined (text : string) (i : nat) (line : string) : Prop :=
  (i < 10)%nat
  /\ nth_error (lines_keepends text) i = Some line
  /\ total_len (firstn i (lines_keepends text)) <= 100.

(** The board is full: [cp] fails for want of space, on a device that it
    also reports read-only. *)
Definition bench_full : Bench :=
  {| plugged := true; in_mount_table := true; umount_stderr := None;
     cp_stderr := Some "cp: error writing '/mnt/microbit/blink.hex': No space left on device (Permission denied)";
     file_text := ":020000040000FA"; copied_size := 15;
     getsize_faults := O; key_pressed := -1 |}.

(** ** The firmware details *)

Definition version_prefix : string := "Interface Version:".

(** The first line of [lines] that, stripped, starts with the prefix gives
    [version]: what follows the prefix, stripped. *)
Definition decisive (lines : list string) (version : string) : Prop :=
  exists before line rest remainder,
    lines = (before ++ line :: rest)%list
    /\ (forall l, In l before -> PyStr.startswith version_prefix (PyStr.strip l) = false)
    /\ PyStr.strip line = version_prefix ++ remainder
    /\ version = PyStr.strip remainder.

(** A dictionary of details: each key once, every key a known one. *)
Definition details_ok (d : list (string * string)) : Prop :=
  NoDup (map fst d) /\ incl (map fst d) detail_keys.

(** A [DETAILS.TXT] as the interface firmware writes it. *)
Definition details_txt : string :=
  "# DAPLink Firmware - see https://mbed.com/daplink" ++
  String newline ("Unique ID: 9904360258994e45" ++
  String newline ("HIC ID: 97969901" ++
  String newline ("Interface Version: 0255" ++
  String newline ("Git SHA: 1436bdcc67029fdfc0ff03b73e12045bb6a9f272" ++
  String newline "")))).

Definition bench_details : Bench :=
  {| plugged := true; in_mount_table := true; umount_stderr := None;
     cp_stderr := None; file_text := details_txt; copied_size := 15;
     getsize_faults := O; key_pressed := -1 |}.

(** The images whose formatted modification time is [minute]. *)
Definition same_minute (minute : string) (f : HexFile) : bool :=
  String.eqb (hex_mtime f) minute.

(** ** Where an exception of the poll cycle comes from

    The answers of the environment that the program does not guard: the
    running of a shell command that raises something else than a failure
    status, a decoded block-device tree whose traversal raises, and a query
    for the image directory, a listing, a [stat] or a time formatting that
    raises. *)
Definition failure_source {W : Type} (h : Handler W) (e : Exc) : Prop :=
  (exists command w, fst (h (SubprocessRun command) w) = RunRaised e)
  \/ (exists text w data,
        fst (h (JsonLoads text) w) = Some data /\ find_removable data = Raised e)
  \/ (exists dir w, fst (h (PathlibExists dir) w) = inl e)
  \/ (exists dir w, fst (h (GlobHex dir) w) = inl e)
  \/ (exists path w, fst (h (StatOf path) w) = inl e)
  \/ (exists t w, fst (h (LocalTime t) w) = inl e).

(** A call that, started from a manager in [P], raises only what one of
    these answers raised. *)
Definition blameless {A : Type} (P : Manager -> Prop) (c : M A) : Prop :=
  forall (W : Type) (h : Handler W) (m : Manager) (w : W) (e : Exc),
    P m -> result_of (exec h c m w) = Raised e -> failure_source h e.

(** A removable device of the board's size that has no name. *)
Definition nameless_tree : JSON :=
  JObj [("blockdevices", JArr [JObj [("size", JStr "8.1M"); ("rm", JBool true)]])].

Definition bench_nameless : Handler Bench :=
  fun r =>
    match r as r0 return Bench -> Response r0 * Bench with
    | JsonLoads _ => fun w => (Some nameless_tree, w)
    | r0 => bench r0
    end.

(** ** The keys *)

Definition bound_keys : list Z :=
  [ord_q; KEY_UP; ord_k; KEY_DOWN; ord_j; ord_newline; KEY_ENTER; ord_m; ord_r; ord_i].

(** A call that never returns [stop]. *)
Definition goes_on {A : Type} (c : M A) (stop : A) : Prop :=
  forall (W : Type) (h : Handler W) (m : Manager) (w : W),
    result_of (exec h c m w) <> Ok stop.

(** ** Commands whose output does not decode

    The test bench, except that every command that starts with [prefix]
    prints bytes that are not UTF-8, so that [subprocess.run] raises. *)
Definition undecodable : Exc :=
  mkExc UnicodeDecodeError
    "'utf-8' codec can't decode byte 0xff in position 0: invalid start byte".

Definition bench_garbled (prefix : string) : Handler Bench :=
  fun r =>
    match r as r0 return Bench -> Response r0 * Bench with
    | SubprocessRun command =>
        fun w => if PyStr.startswith prefix command
                 then (RunRaised undecodable, w)
                 else bench_subprocess command w
    | r0 => bench r0
    end.

(** What a part of [copy_hex_file] raises is what running the copy command
    raised, and nothing was asked after it. *)
Definition cp_raise_spec (hex_file_path : string) (c : M (bool * string)) : Prop :=
  forall (W : Type) (h : Handler W) (m : Manager) (w : W) (e : Exc),
    result_of (exec h c m w) = Raised e ->
    after_command (copy_command hex_file_path (dest_path_of hex_file_path))
      (trace_of (exec h c m w)) = Some (RunRaised e, []).

(** ** The latch in the poll cycle

    What the trace of a stretch of the loop tells: whether every bus
    enumeration in it completed and showed the board, or showed none;
    whether a given key was read; the part before the first key; and
    whether one of the commands of [mount_microbit] was run. *)

Definition request_of (ev : Event) : Request :=
  match ev with Ev r _ => r end.

Definition lsusb_shows (wanted : bool) (ev : Event) : bool :=
  match ev with
  | Ev r a =>
      match r as r0 return Response r0 -> bool with
      | SubprocessRun command =>
          fun a => if String.eqb command "lsusb"
                   then match detection_of a with
                        | Ok (connected, _) => Bool.eqb connected wanted
                        | Raised _ => false
                        end
                   else true
      | _ => fun _ => true
      end a
  end.

Definition board_detected (t : Trace) : bool := forallb (lsusb_shows true) t.

Definition board_missing (t : Trace) : bool := forallb (lsusb_shows false) t.

Definition is_key (key : Z) (ev : Event) : bool :=
  match ev with
  | Ev r a =>
      match r as r0 return Response r0 -> bool with
      | Getch => fun a => a =? key
      | _ => fun _ => false
      end a
  end.

Definition pressed (key : Z) (t : Trace) : bool := existsb (is_key key) t.

Definition is_getch (r : Request) : bool :=
  match r with Getch => true | _ => false end.

Definition key_read (t : Trace) : bool :=
  existsb (fun ev => is_getch (request_of ev)) t.

Fixpoint before_key (t : Trace) : Trace :=
  match t with
  | [] => []
  | ev :: rest => if is_getch (request_of ev) then [] else ev :: before_key rest
  end.

Fixpoint after_key (t : Trace) : Trace :=
  match t with
  | [] => []
  | ev :: rest => if is_getch (request_of ev) then rest else after_key rest
  end.

Definition is_umount (r : Request) : bool :=
  match r with
  | SubprocessRun command => String.eqb command umount_command
  | _ => false
  end.

Definition umount_attempted (t : Trace) : bool :=
  existsb (fun ev => is_umount (request_of ev)) t.

(** The commands that [mount_microbit] runs to find the device, to make the
    mount point and to mount; [lsblk -J] is the first thing it does. *)
Definition is_mount_command (r : Request) : bool :=
  match r with
  | SubprocessRun command =>
      String.prefix "lsblk" command
      || String.prefix "sudo mkdir" command
      || String.prefix "sudo mount" command
  | _ => false
  end.

Definition mount_attempted (t : Trace) : bool :=
  existsb (fun ev => is_mount_command (request_of ev)) t.

(** A call all of whose requests are among [ok]. *)
Definition asks_only {A : Type} (ok : Request -> bool) (c : M A) : Prop :=
  forall (W : Type) (h : Handler W) (m : Manager) (w : W),
    forallb (fun ev => ok (request_of ev)) (trace_of (exec h c m w)) = true.

(** Neither a key nor a command of [mount_microbit]. *)
Definition calm (r : Request) : bool :=
  negb (is_getch r) && negb (is_mount_command r).

Definition no_mount (r : Request) : bool := negb (is_mount_command r).

Definition no_key (r : Request) : bool := negb (is_getch r).

Definition no_umount (r : Request) : bool := negb (is_umount r).

(** A call whose every run relates the manager before, the requests issued
    and the manager after by [R], whether it returns or raises. *)
Definition obeys {A : Type} (R : Manager -> Trace -> Manager -> Prop) (c : M A) : Prop :=
  forall (W : Type) (h : Handler W) (m : Manager) (w : W),
    R m (trace_of (exec h c m w)) (manager_of (exec h c m w)).

Definition mounted_or_latched (m : Manager) : Prop :=
  is_mounted m = true \/ manual_unmount m = true.

Definition unlatched_if_mounted (m : Manager) : Prop :=
  is_mounted m = true -> manual_unmount m = false.

(** The rules of the latch over a stretch of the loop:
    - a manager that is mounted or latched stays so: once unmounted it is
      latched;
    - it goes from mounted to unmounted only if the [m] key was read;
    - from latched it becomes mounted only if the [m] key was read;
    - from latched, as long as the [m] key is not read, it stays latched and
      no command of [mount_microbit] is run. *)
Definition latch_rules (m : Manager) (t : Trace) (m' : Manager) : Prop :=
  (mounted_or_latched m -> mounted_or_latched m')
  /\ (is_mounted m = true -> is_mounted m' = false -> pressed ord_m t = true)
  /\ (latched m -> is_mounted m' = true -> pressed ord_m t = true)
  /\ (latched m -> pressed ord_m t = false ->
      latched m' /\ mount_attempted t = false).

(** The rules hold over a stretch in which every bus enumeration showed the
    board. *)
Definition latch_link (m : Manager) (t : Trace) (m' : Manager) : Prop :=
  board_detected t = true -> latch_rules m t m'.

(** No command of [mount_microbit] is run before a key is read. *)
Definition no_mount_before_key (m : Manager) (t : Trace) (m' : Manager) : Prop :=
  mount_attempted (before_key t) = false.

(** The [umount] command run after a key was read leaves the manager
    latched if it leaves it unmounted. *)
Definition latched_by_key (m : Manager) (t : Trace) (m' : Manager) : Prop :=
  umount_attempted (after_key t) = true ->
  is_mounted m' = false -> manual_unmount m' = true.

(** A clear latch is set only by the [m] key. *)
Definition clear_link (m : Manager) (t : Trace) (m' : Manager) : Prop :=
  pressed ord_m t = false -> manual_unmount m = false -> manual_unmount m' = false.

(** The bench with the board mounted and the user pressing [m]. *)
Definition bench_m_key : Bench :=
  {| plugged := true; in_mount_table := true; umount_stderr := None;
     cp_stderr := None; file_text := ":020000040000FA"; copied_size := 15;
     getsize_faults := O; key_pressed := ord_m |}.

(** * Reasoning about runs *)

(** ** Facts on strings *)

Module PyStrFacts.

Lemma append_assoc (a b c : string) : (a ++ b) ++ c = a ++ b ++ c.
Proof. induction a as [| x a IH]; simpl; [reflexivity | rewrite IH; reflexivity]. Qed.

Lemma append_nil_r (a : string) : a ++ "" = a.
Proof. induction a as [| x a IH]; simpl; [reflexivity | rewrite IH; reflexivity]. Qed.

Lemma prefix_iff (p s : string) :
  String.prefix p s = true <-> exists rest, s = p ++ rest.
Proof.
  revert s; induction p as [| c p IH]; intros s; simpl.
  - destruct s; split; intros; eauto.
  - destruct s as [| d s]; simpl.
    + split; [discriminate | intros [rest H]; discriminate].
    + destruct (ascii_dec c d) as [-> | Hne].
      * rewrite IH. split; intros [rest H]; exists rest.
        -- rewrite H; reflexivity.
        -- injection H; auto.
      * split; [discriminate |].
        intros [rest H]; injection H; intros _ Heq; congruence.
Qed.

Lemma contains_nil (needle : string) :
  PyStr.contains needle "" = String.prefix needle "" || false.
Proof. reflexivity. Qed.

Lemma contains_cons (needle : string) (c : ascii) (hay : string) :
  PyStr.contains needle (String c hay)
  = String.prefix needle (String c hay) || PyStr.contains needle hay.
Proof. reflexivity. Qed.

Lemma contains_iff (needle hay : string) :
  PyStr.contains needle hay = true <->
  exists before after, hay = before ++ needle ++ after.
Proof.
  induction hay as [| c hay IH].
  - rewrite contains_nil, orb_false_r, prefix_iff. split.
    + intros [rest H]; exists "", rest; exact H.
    + intros [before [after H]].
      destruct before; simpl in H; [exists after; exact H | discriminate].
  - rewrite contains_cons, orb_true_iff, prefix_iff, IH. split.
    + intros [[rest H] | [before [after H]]].
      * exists "", rest; exact H.
      * exists (String c before), after; simpl; rewrite H; reflexivity.
    + intros [before [after H]]. destruct before as [| d before]; simpl in H.
      * left; exists after; exact H.
      * right; injection H; intros H1 _; exists before, after; exact H1.
Qed.

Lemma lower_app (a b : string) :
  PyStr.lower (a ++ b) = PyStr.lower a ++ PyStr.lower b.
Proof. induction a as [| c a IH]; simpl; [reflexivity | rewrite IH; reflexivity]. Qed.

Lemma lower_app_inv (t u v : string) :
  PyStr.lower t = u ++ v ->
  exists t1 t2, t = t1 ++ t2 /\ PyStr.lower t1 = u /\ PyStr.lower t2 = v.
Proof.
  revert t; induction u as [| c u IH]; intros t H; simpl in H.
  - exists "", t; auto.
  - destruct t as [| d t]; simpl in H; [discriminate |].
    injection H; intros Ht Hd.
    destruct (IH t Ht) as [t1 [t2 [E1 [E2 E3]]]].
    exists (String d t1), t2; simpl; subst; auto.
Qed.

Lemma is_space_lower_char (c : ascii) :
  PyStr.is_space (PyStr.lower_char c) = PyStr.is_space c.
Proof. destruct c as [[] [] [] [] [] [] [] []]; reflexivity. Qed.

Lemma starts_nonspace_lower (x : string) :
  starts_nonspace (PyStr.lower x) = starts_nonspace x.
Proof. destruct x; simpl; [reflexivity | rewrite is_space_lower_char; reflexivity]. Qed.

Lemma ends_nonspace_lower (x : string) :
  ends_nonspace (PyStr.lower x) = ends_nonspace x.
Proof.
  induction x as [| c x IH]; [reflexivity |].
  destruct x as [| d x].
  - simpl; rewrite is_space_lower_char; reflexivity.
  - exact IH.
Qed.

Lemma lstrip_keeps (a x b : string) :
  starts_nonspace x = true ->
  exists a', PyStr.lstrip (a ++ x ++ b) = a' ++ x ++ b.
Proof.
  intros Hx. induction a as [| c a IH]; simpl.
  - exists "". destruct x as [| d x]; [discriminate |].
    simpl in *. apply negb_true_iff in Hx. rewrite Hx. reflexivity.
  - destruct (PyStr.is_space c).
    + exact IH.
    + exists (String c a); reflexivity.
Qed.

Lemma rstrip_cons_nonempty (c : ascii) (t : string) :
  PyStr.rstrip t <> "" -> PyStr.rstrip (String c t) = String c (PyStr.rstrip t).
Proof. intros H; simpl. destruct (PyStr.rstrip t); [congruence | reflexivity]. Qed.

Lemma rstrip_keeps_head (x b : string) :
  ends_nonspace x = true -> exists b', PyStr.rstrip (x ++ b) = x ++ b'.
Proof.
  induction x as [| c x IH]; [discriminate |].
  intros Hx. destruct x as [| d x].
  - simpl in Hx. apply negb_true_iff in Hx.
    exists (PyStr.rstrip b). simpl. rewrite Hx.
    destruct (PyStr.rstrip b); reflexivity.
  - destruct (IH Hx) as [b' Hb]. exists b'.
    change (String c (String d x) ++ b) with (String c (String d x ++ b)).
    rewrite rstrip_cons_nonempty; rewrite Hb; [reflexivity | discriminate].
Qed.

Lemma rstrip_keeps (a x b : string) :
  ends_nonspace x = true ->
  exists b', PyStr.rstrip (a ++ x ++ b) = a ++ x ++ b'.
Proof.
  intros Hx. destruct (rstrip_keeps_head x b Hx) as [b' Hb]. exists b'.
  induction a as [| c a IH]; [exact Hb |].
  change (String c a ++ x ++ b) with (String c (a ++ x ++ b)).
  rewrite rstrip_cons_nonempty; rewrite IH; [reflexivity |].
  destruct a; [| discriminate]. destruct x; [discriminate | discriminate].
Qed.

Lemma strip_keeps (a x b : string) :
  starts_nonspace x = true -> ends_nonspace x = true ->
  exists a' b', PyStr.strip (a ++ x ++ b) = a' ++ x ++ b'.
Proof.
  intros Hs He. unfold PyStr.strip.
  destruct (rstrip_keeps a x b He) as [b' Hb]. rewrite Hb.
  destruct (lstrip_keeps a x b' Hs) as [a' Ha]. exists a', b'; exact Ha.
Qed.

Lemma lstrip_suffix (s : string) : exists ws, s = ws ++ PyStr.lstrip s.
Proof.
  induction s as [| c s [ws IH]]; simpl.
  - exists ""; reflexivity.
  - destruct (PyStr.is_space c).
    + exists (String c ws); simpl; rewrite <- IH; reflexivity.
    + exists ""; reflexivity.
Qed.

Lemma rstrip_prefix (s : string) : exists ws, s = PyStr.rstrip s ++ ws.
Proof.
  induction s as [| c s [ws IH]]; simpl.
  - exists ""; reflexivity.
  - destruct (PyStr.rstrip s) as [| d r] eqn:E.
    + destruct (PyStr.is_space c).
      * exists (String c s); reflexivity.
      * exists s; reflexivity.
    + exists ws; simpl; simpl in IH; rewrite <- IH; reflexivity.
Qed.

Lemma strip_within (s : string) :
  exists before after, s = before ++ PyStr.strip s ++ after.
Proof.
  unfold PyStr.strip.
  destruct (rstrip_prefix s) as [after Ha].
  destruct (lstrip_suffix (PyStr.rstrip s)) as [before Hb].
  exists before, after. rewrite <- append_assoc, <- Hb. exact Ha.
Qed.

End PyStrFacts.

(** ** Runs *)

Arguments PyStr.contains : simpl never.
Arguments PyStr.lower : simpl never.
Arguments PyStr.strip : simpl never.
Arguments PyStr.of_Z : simpl never.
Arguments PyStr.of_Z_grouped : simpl never.
Arguments PyStr.split_on : simpl never.
Arguments PyStr.basename : simpl never.
Arguments String.append : simpl never.
Arguments detect_in_lines : simpl never.

Section RunLemmas.

Context {W : Type} (h : Handler W).

Lemma run_pbind {A B : Type} (p : Prog A) (f : A -> Prog B) (w : W) :
  run h (pbind p f) w =
  let '(a, w1, t1) := run h p w in
  let '(b, w2, t2) := run h (f a) w1 in
  (b, w2, (t1 ++ t2)%list).
Proof.
  revert w; induction p as [a | r k IH]; intros w; simpl.
  - destruct (run h (f a) w) as [[b w2] t2]; reflexivity.
  - destruct (h r w) as [x w1]. rewrite IH.
    destruct (run h (k x) w1) as [[a w2] t1].
    destruct (run h (f a) w2) as [[b w3] t2]; reflexivity.
Qed.

Lemma exec_ret {A : Type} (a : A) m w :
  exec h (ret a) m w = (Ok a, m, w, []).
Proof. reflexivity. Qed.

Lemma exec_raise {A : Type} (e : Exc) m w :
  exec h (@raise A e) m w = (Raised e, m, w, []).
Proof. reflexivity. Qed.

Lemma exec_gets {A : Type} (f : Manager -> A) m w :
  exec h (gets f) m w = (Ok (f m), m, w, []).
Proof. reflexivity. Qed.

Lemma exec_modify (f : Manager -> Manager) m w :
  exec h (modify f) m w = (Ok tt, f m, w, []).
Proof. reflexivity. Qed.

Lemma exec_ask (r : Request) m w :
  exec h (ask r) m w = (Ok (fst (h r w)), m, snd (h r w), [Ev r (fst (h r w))]).
Proof. unfold exec, ask; simpl. destruct (h r w); reflexivity. Qed.

Lemma exec_bind {A B : Type} (c : M A) (f : A -> M B) m w :
  exec h (bind c f) m w =
  match exec h c m w with
  | (Ok a, m1, w1, t1) =>
      let '(r, m2, w2, t2) := exec h (f a) m1 w1 in (r, m2, w2, (t1 ++ t2)%list)
  | (Raised e, m1, w1, t1) => (Raised e, m1, w1, t1)
  end.
Proof.
  unfold exec, bind. rewrite run_pbind.
  destruct (run h (c m) w) as [[[r m1] w1] t1]; simpl.
  destruct r as [a | e]; simpl.
  - destruct (run h (f a m1) w1) as [[[r2 m2] w2] t2]; reflexivity.
  - rewrite app_nil_r; reflexivity.
Qed.

Lemma exec_try_except {A : Type} (c : M A) (handler : Exc -> M A) m w :
  exec h (try_except c handler) m w =
  match exec h c m w with
  | (Ok a, m1, w1, t1) => (Ok a, m1, w1, t1)
  | (Raised e, m1, w1, t1) =>
      let '(r, m2, w2, t2) := exec h (handler e) m1 w1 in (r, m2, w2, (t1 ++ t2)%list)
  end.
Proof.
  unfold exec, try_except. rewrite run_pbind.
  destruct (run h (c m) w) as [[[r m1] w1] t1]; simpl.
  destruct r as [a | e]; simpl.
  - rewrite app_nil_r; reflexivity.
  - destruct (run h (handler e m1) w1) as [[[r2 m2] w2] t2]; reflexivity.
Qed.

Lemma exec_ask_or_raise {A : Type} (r : Request) (conv : Response r -> Exc + A) m w :
  exec h (ask_or_raise r conv) m w =
  (match conv (fst (h r w)) with inl e => Raised e | inr a => Ok a end,
   m, snd (h r w), [Ev r (fst (h r w))]).
Proof.
  unfold ask_or_raise. rewrite exec_bind, exec_ask.
  destruct (conv (fst (h r w))); reflexivity.
Qed.

End RunLemmas.

Lemma readonly_ret {A : Type} (a : A) : readonly (ret a).
Proof. intros W h m w; reflexivity. Qed.

Lemma readonly_raise {A : Type} (e : Exc) : readonly (@raise A e).
Proof. intros W h m w; reflexivity. Qed.

Lemma readonly_gets {A : Type} (f : Manager -> A) : readonly (gets f).
Proof. intros W h m w; reflexivity. Qed.

Lemma readonly_ask (r : Request) : readonly (ask r).
Proof. intros W h m w; rewrite exec_ask; reflexivity. Qed.

Lemma readonly_bind {A B : Type} (c : M A) (f : A -> M B) :
  readonly c -> (forall a, readonly (f a)) -> readonly (bind c f).
Proof.
  intros Hc Hf W h m w. rewrite exec_bind.
  specialize (Hc W h m w).
  destruct (exec h c m w) as [[[r m1] w1] t1]; unfold manager_of in *; simpl in *.
  subst m1. destruct r as [a | e]; simpl; [| reflexivity].
  specialize (Hf a W h m w1).
  destruct (exec h (f a) m w1) as [[[r2 m2] w2] t2]; simpl in *; exact Hf.
Qed.

Lemma readonly_try_except {A : Type} (c : M A) (handler : Exc -> M A) :
  readonly c -> (forall e, readonly (handler e)) -> readonly (try_except c handler).
Proof.
  intros Hc Hf W h m w. rewrite exec_try_except.
  specialize (Hc W h m w).
  destruct (exec h c m w) as [[[r m1] w1] t1]; unfold manager_of in *; simpl in *.
  subst m1. destruct r as [a | e]; simpl; [reflexivity |].
  specialize (Hf e W h m w1).
  destruct (exec h (handler e) m w1) as [[[r2 m2] w2] t2]; simpl in *; exact Hf.
Qed.

Lemma readonly_ask_or_raise {A : Type} (r : Request) (conv : Response r -> Exc + A) :
  readonly (ask_or_raise r conv).
Proof. intros W h m w; rewrite exec_ask_or_raise; reflexivity. Qed.

Lemma readonly_os_path_exists p : readonly (os_path_exists p).
Proof. exact (readonly_ask _). Qed.

Lemma readonly_os_path_isfile p : readonly (os_path_isfile p).
Proof. exact (readonly_ask _). Qed.

Create HintDb readonly.
#[export] Hint Resolve readonly_ret readonly_raise readonly_gets readonly_ask
  readonly_ask_or_raise readonly_os_path_exists readonly_os_path_isfile : readonly.
#[export] Hint Unfold os_path_getsize os_statvfs os_stat os_listdir glob_hex
  read_text format_mtime : readonly.

(** Goes through a read-only method: the binds, the handlers and the case
    distinctions of its body. *)
Ltac readonly_step :=
  match goal with
  | |- readonly (bind _ _) => apply readonly_bind; [| intros ?]
  | |- readonly (try_except _ _) => apply readonly_try_except; [| intros ?]
  | |- readonly (match ?x with _ => _ end) => destruct x
  | |- readonly (if ?x then _ else _) => destruct x
  | |- readonly _ => solve [auto with readonly]
  | |- readonly _ => solve [apply readonly_ask | apply readonly_ask_or_raise]
  end.

Ltac prove_readonly := repeat readonly_step.

Lemma readonly_run_command cmd : readonly (run_command cmd).
Proof. unfold run_command; prove_readonly. Qed.

Lemma readonly_run_command_with_error cmd : readonly (run_command_with_error cmd).
Proof. unfold run_command_with_error; prove_readonly. Qed.

#[export] Hint Resolve readonly_run_command readonly_run_command_with_error : readonly.

Lemma readonly_detect_microbit : readonly detect_microbit.
Proof. unfold detect_microbit; prove_readonly. Qed.

Lemma readonly_is_microbit_mounted : readonly is_microbit_mounted.
Proof. unfold is_microbit_mounted; prove_readonly. Qed.

Lemma readonly_probe_common_devices devices : readonly (probe_common_devices devices).
Proof.
  induction devices as [| d rest IH]; simpl.
  - prove_readonly.
  - prove_readonly; exact IH.
Qed.

#[export] Hint Resolve readonly_detect_microbit readonly_is_microbit_mounted
  readonly_probe_common_devices : readonly.

Lemma readonly_get_microbit_block_device : readonly get_microbit_block_device.
Proof. unfold get_microbit_block_device; prove_readonly. Qed.

#[export] Hint Resolve readonly_get_microbit_block_device : readonly.

(** * The transfer engine fails fast *)

(** C7. Whatever the source path and the environment, when the manager's own
    mount state says not mounted, [copy_hex_file] returns the failure
    "Microbit not mounted" at once: the manager and the environment are as
    before, and the list of requests issued (file system checks, validation
    reads, shell commands) is empty. *)
Theorem copy_hex_file_not_mounted :
  forall (W : Type) (h : Handler W) (w : W) (m : Manager) (hex_file_path : string),
    is_mounted m = false ->
    exec h (copy_hex_file hex_file_path) m w
    = (Ok (false, "Microbit not mounted"), m, w, []).
Proof.
  intros W h w m hex_file_path Hm.
  unfold copy_hex_file. rewrite exec_bind, exec_gets, Hm. reflexivity.
Qed.

Lemma copy_hex_file_not_mounted_witness :
  is_mounted manager0 = false /\
  exec bench (copy_hex_file "/home/pi/Downloads/blink.hex") manager0 bench_idle
  = (Ok (false, "Microbit not mounted"), manager0, bench_idle, []).
Proof.
  split; [reflexivity |].
  apply (copy_hex_file_not_mounted Bench bench bench_idle manager0
           "/home/pi/Downloads/blink.hex").
  reflexivity.
Defined.

(** ** Events *)

Lemma Request_eq_dec (r1 r2 : Request) : {r1 = r2} + {r1 <> r2}.
Proof. decide equality; try apply string_dec; apply Z.eq_dec. Qed.

Lemma Ev_request (r1 r2 : Request) (a1 : Response r1) (a2 : Response r2) :
  Ev r1 a1 = Ev r2 a2 -> r1 = r2.
Proof. intros H; injection H; auto. Qed.

Lemma Ev_answer (r : Request) (a1 a2 : Response r) :
  Ev r a1 = Ev r a2 -> a1 = a2.
Proof.
  intros H; injection H; intros H1.
  apply (inj_pair2_eq_dec Request Request_eq_dec) in H1; exact H1.
Qed.

Lemma Ev_getsize (path : string) (a1 a2 : Exc + Z) :
  Ev (GetSize path) a1 = Ev (GetSize path) a2 -> a1 = a2.
Proof. apply Ev_answer. Qed.

Lemma Ev_subprocess (command : string) (a1 a2 : ProcResult) :
  Ev (SubprocessRun command) a1 = Ev (SubprocessRun command) a2 -> a1 = a2.
Proof. apply Ev_answer. Qed.

Arguments error_msg : simpl never.

Section CommandLemmas.

Context {W : Type} (h : Handler W).

Lemma exec_run_command command m w :
  exec h (run_command command) m w =
  (output_of (fst (h (SubprocessRun command) w)),
   m, snd (h (SubprocessRun command) w),
   [Ev (SubprocessRun command) (fst (h (SubprocessRun command) w))]).
Proof.
  unfold run_command. rewrite exec_bind, exec_ask.
  destruct (fst (h (SubprocessRun command) w)); reflexivity.
Qed.

Lemma exec_run_command_with_error command m w :
  exec h (run_command_with_error command) m w =
  (outcome_of (fst (h (SubprocessRun command) w)),
   m, snd (h (SubprocessRun command) w),
   [Ev (SubprocessRun command) (fst (h (SubprocessRun command) w))]).
Proof.
  unfold run_command_with_error. rewrite exec_bind, exec_ask.
  destruct (fst (h (SubprocessRun command) w)); reflexivity.
Qed.

Lemma exec_os_path_exists path m w :
  exec h (os_path_exists path) m w =
  (Ok (fst (h (PathExists path) w)), m, snd (h (PathExists path) w),
   [Ev (PathExists path) (fst (h (PathExists path) w))]).
Proof. exact (exec_ask h (PathExists path) m w). Qed.

Lemma exec_os_path_isfile path m w :
  exec h (os_path_isfile path) m w =
  (Ok (fst (h (PathIsFile path) w)), m, snd (h (PathIsFile path) w),
   [Ev (PathIsFile path) (fst (h (PathIsFile path) w))]).
Proof. exact (exec_ask h (PathIsFile path) m w). Qed.

Lemma exec_is_microbit_mounted m w :
  exec h is_microbit_mounted m w =
  (match output_of (fst (h (SubprocessRun "mount") w)) with
   | Ok mount_output => Ok (PyStr.contains mount_point mount_output)
   | Raised e => Raised e
   end,
   m, snd (h (SubprocessRun "mount") w),
   [Ev (SubprocessRun "mount") (fst (h (SubprocessRun "mount") w))]).
Proof.
  unfold is_microbit_mounted. rewrite exec_bind, exec_run_command.
  destruct (output_of _); reflexivity.
Qed.

End CommandLemmas.

(** Once the outcome of a command is known. *)
Ltac reduce_run := unfold outcome_of, output_of; cbv beta iota.

(** * The mount controller classifies [umount] failures *)

(** A phrase with no white space at its ends that occurs in the standard
    error, in any case, is found in the lowered diagnostic. *)
Lemma occurs_ci_found (phrase stderr : string) (returncode : Z) :
  starts_nonspace phrase = true -> ends_nonspace phrase = true ->
  occurs_ci phrase stderr ->
  PyStr.contains phrase (PyStr.lower (error_msg returncode stderr)) = true.
Proof.
  intros Hs He [before [found [after [Hd Hl]]]].
  assert (Hs' : starts_nonspace found = true)
    by (rewrite <- PyStrFacts.starts_nonspace_lower, Hl; exact Hs).
  assert (He' : ends_nonspace found = true)
    by (rewrite <- PyStrFacts.ends_nonspace_lower, Hl; exact He).
  assert (Hmsg : error_msg returncode stderr = PyStr.strip stderr).
  { unfold error_msg. destruct stderr; [| reflexivity].
    destruct before; [| discriminate]. destruct found; discriminate. }
  rewrite Hmsg, Hd.
  destruct (PyStrFacts.strip_keeps before found after Hs' He') as [a' [b' Hk]].
  rewrite Hk, !PyStrFacts.lower_app, Hl.
  apply PyStrFacts.contains_iff. eauto.
Qed.

(** What is found in the lowered diagnostic of a non-empty standard error
    occurs in the standard error. *)
Lemma found_occurs_ci (phrase stderr : string) (returncode : Z) :
  stderr <> "" ->
  PyStr.contains phrase (PyStr.lower (error_msg returncode stderr)) = true ->
  occurs_ci phrase stderr.
Proof.
  intros Hne H.
  assert (Hmsg : error_msg returncode stderr = PyStr.strip stderr)
    by (unfold error_msg; destruct stderr; [congruence | reflexivity]).
  rewrite Hmsg in H. apply PyStrFacts.contains_iff in H.
  destruct H as [a [b H]].
  apply PyStrFacts.lower_app_inv in H. destruct H as [t1 [t2 [E1 [E2 E3]]]].
  apply PyStrFacts.lower_app_inv in E3. destruct E3 as [x [t3 [E4 [E5 E6]]]].
  destruct (PyStrFacts.strip_within stderr) as [before [after Hw]].
  exists (before ++ t1), x, (t3 ++ after). split; [| exact E5].
  rewrite Hw at 1. rewrite E1, E4.
  rewrite !PyStrFacts.append_assoc. reflexivity.
Qed.

Lemma occurs_ci_nonempty (phrase stderr : string) :
  phrase <> "" -> occurs_ci phrase stderr -> stderr <> "".
Proof.
  intros Hp [before [found [after [Hd Hl]]]] ->.
  destruct before; [| discriminate]. destruct found; [| discriminate].
  apply Hp; symmetry; exact Hl.
Qed.

(** The run of [unmount_microbit] once the [umount] command has failed with
    a busy diagnostic that does not say "not mounted". *)
Lemma unmount_after_check_busy {W : Type} (h : Handler W) m w returncode stderr :
  fst (h (SubprocessRun umount_command) w) = CalledProcessError returncode stderr ->
  occurs_ci "device is busy" stderr \/ occurs_ci "target is busy" stderr ->
  ~ occurs_ci "not mounted" stderr ->
  exec h unmount_after_check m w =
  (Ok (false, busy_message), m, snd (h (SubprocessRun umount_command) w),
   [Ev (SubprocessRun umount_command) (CalledProcessError returncode stderr)]).
Proof.
  intros Hr Hbusy Hnm.
  assert (Hne : stderr <> "").
  { destruct Hbusy as [Hb | Hb];
      (eapply occurs_ci_nonempty; [| exact Hb]; discriminate). }
  unfold unmount_after_check.
  rewrite exec_bind, exec_run_command_with_error, Hr.
  unfold outcome_of. cbv beta iota.
  destruct (PyStr.contains "not mounted" (PyStr.lower (error_msg returncode stderr)))
    eqn:E1.
  { exfalso. apply Hnm. exact (found_occurs_ci _ _ _ Hne E1). }
  assert (E2 : PyStr.contains "device is busy" (PyStr.lower (error_msg returncode stderr))
               || PyStr.contains "target is busy" (PyStr.lower (error_msg returncode stderr))
               = true).
  { apply orb_true_iff. destruct Hbusy as [Hb | Hb]; [left | right];
      apply occurs_ci_found; auto. }
  rewrite E2. reflexivity.
Qed.

Lemma trace_unmount_after_check {W : Type} (h : Handler W) m w :
  trace_of (exec h unmount_after_check m w)
  = [Ev (SubprocessRun umount_command) (fst (h (SubprocessRun umount_command) w))].
Proof.
  unfold unmount_after_check.
  rewrite exec_bind, exec_run_command_with_error.
  destruct (fst (h (SubprocessRun umount_command) w)) as [out | rc err | e];
    reduce_run; [reflexivity | | reflexivity].
  repeat match goal with
         | |- context [if ?b then _ else _] => destruct b
         end; reflexivity.
Qed.

(** The two ways into [unmount_microbit]. *)
Lemma exec_unmount_microbit {W : Type} (h : Handler W) m w :
  exec h unmount_microbit m w =
  if is_mounted m then exec h unmount_after_check m w
  else
    let mount_event :=
      Ev (SubprocessRun "mount") (fst (h (SubprocessRun "mount") w)) in
    let w1 := snd (h (SubprocessRun "mount") w) in
    match result_of (exec h is_microbit_mounted m w) with
    | Ok true => (result_of (exec h unmount_after_check m w1),
                  manager_of (exec h unmount_after_check m w1),
                  world_of (exec h unmount_after_check m w1),
                  mount_event :: trace_of (exec h unmount_after_check m w1))
    | Ok false => (Ok (true, "Microbit not mounted"), m, w1, [mount_event])
    | Raised e => (Raised e, m, w1, [mount_event])
    end.
Proof.
  unfold unmount_microbit. rewrite exec_bind, exec_gets.
  destruct (is_mounted m).
  - destruct (exec h unmount_after_check m w) as [[[r m1] w1] t1]; reflexivity.
  - rewrite exec_bind, exec_is_microbit_mounted. cbv zeta.
    unfold result_of at 1. cbn [fst snd].
    destruct (output_of _) as [mount_output | e]; [| reflexivity].
    destruct (PyStr.contains mount_point mount_output); [| reflexivity].
    simpl. destruct (exec h unmount_after_check m _) as [[[r m1] w1] t1]; reflexivity.
Qed.

(** C3, as the code has it.  In every run of [unmount_microbit] in which the
    [umount] command failed with a standard error that contains "device is
    busy" or "target is busy", in any case, and does not contain "not
    mounted", the method reports the failure of the busy category, and the
    manager keeps its mount state. *)
Theorem unmount_busy_reports_failure :
  forall (W : Type) (h : Handler W) (w : W) (m : Manager)
         (returncode : Z) (stderr : string),
    In (Ev (SubprocessRun umount_command) (CalledProcessError returncode stderr))
       (trace_of (exec h unmount_microbit m w)) ->
    occurs_ci "device is busy" stderr \/ occurs_ci "target is busy" stderr ->
    ~ occurs_ci "not mounted" stderr ->
    result_of (exec h unmount_microbit m w) = Ok (false, busy_message)
    /\ manager_of (exec h unmount_microbit m w) = m.
Proof.
  intros W h w m returncode stderr Hin Hbusy Hnm.
  rewrite exec_unmount_microbit in *.
  destruct (is_mounted m).
  - rewrite trace_unmount_after_check in Hin.
    destruct Hin as [Hin | []]. apply Ev_subprocess in Hin.
    rewrite (unmount_after_check_busy h m w returncode stderr Hin Hbusy Hnm).
    split; reflexivity.
  - cbv zeta in *.
    destruct (result_of (exec h is_microbit_mounted m w)) as [[|] | e].
    2, 3: (destruct Hin as [Hin | []]; apply Ev_request in Hin; discriminate).
    + unfold trace_of at 1 in Hin; simpl snd in Hin.
      rewrite trace_unmount_after_check in Hin.
      destruct Hin as [Hin | [Hin | []]].
      * apply Ev_request in Hin; discriminate.
      * apply Ev_subprocess in Hin.
        rewrite (unmount_after_check_busy h m (snd (h (SubprocessRun "mount") w))
                   returncode stderr Hin Hbusy Hnm).
        split; reflexivity.
Qed.

Lemma unmount_busy_reports_failure_witness :
  result_of (exec bench unmount_microbit manager_mounted bench_busy)
  = Ok (false, busy_message)
  /\ manager_of (exec bench unmount_microbit manager_mounted bench_busy)
     = manager_mounted.
Proof.
  apply (unmount_busy_reports_failure Bench bench bench_busy manager_mounted
           32 "umount: /mnt/microbit: Target is BUSY.").
  - vm_compute. left; reflexivity.
  - right. exists "umount: /mnt/microbit: ", "Target is BUSY", ".".
    split; reflexivity.
  - intros H. apply (occurs_ci_found _ _ 32) in H; [| reflexivity | reflexivity].
    vm_compute in H. discriminate H.
Defined.

(** C3 as stated fails: a diagnostic of [umount] that contains "target is
    busy" and, before it, "not mounted" makes [unmount_microbit] report
    success. *)
Lemma unmount_busy_counterexample :
  In (Ev (SubprocessRun umount_command)
         (CalledProcessError 32 "umount: /mnt/microbit: not mounted (target is busy)"))
     (trace_of (exec bench unmount_microbit manager_mounted bench_busy_and_not_mounted))
  /\ occurs_ci "target is busy" "umount: /mnt/microbit: not mounted (target is busy)"
  /\ result_of (exec bench unmount_microbit manager_mounted bench_busy_and_not_mounted)
     = Ok (true, "Microbit was not mounted").
Proof.
  split; [vm_compute; left; reflexivity |].
  split; [| vm_compute; reflexivity].
  exists "umount: /mnt/microbit: not mounted (", "target is busy", ")".
  split; reflexivity.
Qed.

(** * Invariants of the manager *)

Lemma preserves_readonly {A : Type} (I : Manager -> Prop) (c : M A) :
  readonly c -> preserves I c.
Proof. intros Hc W h m w Hm. rewrite Hc. exact Hm. Qed.

Lemma preserves_bind {A B : Type} (I : Manager -> Prop) (c : M A) (f : A -> M B) :
  preserves I c -> (forall a, preserves I (f a)) -> preserves I (bind c f).
Proof.
  intros Hc Hf W h m w Hm. rewrite exec_bind.
  specialize (Hc W h m w Hm).
  destruct (exec h c m w) as [[[r m1] w1] t1]; unfold manager_of in *; simpl in *.
  destruct r as [a | e]; simpl; [| exact Hc].
  specialize (Hf a W h m1 w1 Hc).
  destruct (exec h (f a) m1 w1) as [[[r2 m2] w2] t2]; simpl in *; exact Hf.
Qed.

Lemma preserves_try_except {A : Type} (I : Manager -> Prop) (c : M A)
  (handler : Exc -> M A) :
  preserves I c -> (forall e, preserves I (handler e)) ->
  preserves I (try_except c handler).
Proof.
  intros Hc Hf W h m w Hm. rewrite exec_try_except.
  specialize (Hc W h m w Hm).
  destruct (exec h c m w) as [[[r m1] w1] t1]; unfold manager_of in *; simpl in *.
  destruct r as [a | e]; simpl; [exact Hc |].
  specialize (Hf e W h m1 w1 Hc).
  destruct (exec h (handler e) m1 w1) as [[[r2 m2] w2] t2]; simpl in *; exact Hf.
Qed.

Lemma preserves_modify (I : Manager -> Prop) (f : Manager -> Manager) :
  (forall m, I m -> I (f m)) -> preserves I (modify f).
Proof. intros Hf W h m w Hm. apply Hf; exact Hm. Qed.

(** ** Methods that only read the manager *)

Lemma readonly_stat_hex_files dir names : readonly (stat_hex_files dir names).
Proof.
  induction names as [| name rest IH]; simpl.
  - prove_readonly.
  - unfold os_stat, format_mtime. prove_readonly.
Qed.

#[export] Hint Resolve readonly_stat_hex_files : readonly.

Lemma readonly_get_hex_files : readonly get_hex_files.
Proof. unfold get_hex_files, glob_hex; prove_readonly. Qed.

Lemma readonly_validate_hex_file p : readonly (validate_hex_file p).
Proof. unfold validate_hex_file, read_text; prove_readonly. Qed.

#[export] Hint Resolve readonly_get_hex_files readonly_validate_hex_file : readonly.

Lemma readonly_check_space p : readonly (check_space p).
Proof. unfold check_space, os_statvfs, os_path_getsize; prove_readonly. Qed.

Lemma readonly_verify_copy p f d : readonly (verify_copy p f d).
Proof. unfold verify_copy, os_path_getsize; prove_readonly. Qed.

#[export] Hint Resolve readonly_check_space readonly_verify_copy : readonly.

Lemma readonly_copy_hex_file p : readonly (copy_hex_file p).
Proof. unfold copy_hex_file, read_text; prove_readonly. Qed.

Lemma readonly_stat_entry item item_path : readonly (stat_entry item item_path).
Proof. unfold stat_entry, os_stat, format_mtime. prove_readonly. Qed.

#[export] Hint Resolve readonly_stat_entry : readonly.

Lemma readonly_stat_microbit_files items : readonly (stat_microbit_files items).
Proof.
  induction items as [| item rest IH]; simpl.
  - prove_readonly.
  - prove_readonly.
Qed.

#[export] Hint Resolve readonly_copy_hex_file readonly_stat_microbit_files : readonly.

Lemma readonly_get_microbit_files : readonly get_microbit_files.
Proof. unfold get_microbit_files, os_listdir; prove_readonly. Qed.

Lemma readonly_get_microbit_info : readonly get_microbit_info.
Proof. unfold get_microbit_info, read_text; prove_readonly. Qed.

#[export] Hint Resolve readonly_get_microbit_files readonly_get_microbit_info : readonly.

Lemma readonly_get_firmware_version : readonly get_firmware_version.
Proof. unfold get_firmware_version; prove_readonly. Qed.

Lemma readonly_get_microbit_details : readonly get_microbit_details.
Proof. unfold get_microbit_details; prove_readonly. Qed.

#[export] Hint Resolve readonly_get_firmware_version readonly_get_microbit_details
  : readonly.

Lemma readonly_draw_header : readonly draw_header.
Proof. unfold draw_header; prove_readonly. Qed.

Lemma readonly_draw_microbit_files : readonly draw_microbit_files.
Proof. unfold draw_microbit_files; prove_readonly. Qed.

Lemma readonly_draw_info_area : readonly draw_info_area.
Proof. unfold draw_info_area; prove_readonly. Qed.

#[export] Hint Resolve readonly_draw_header readonly_draw_microbit_files
  readonly_draw_info_area : readonly.

(** ** What [mount_microbit] and [unmount_microbit] do to the manager *)

Ltac exec_step :=
  first [ rewrite exec_bind | rewrite exec_ret | rewrite exec_gets
        | rewrite exec_modify | rewrite exec_raise
        | rewrite exec_run_command_with_error | rewrite exec_run_command
        | rewrite exec_is_microbit_mounted | rewrite exec_os_path_exists
        | rewrite exec_os_path_isfile | rewrite exec_try_except
        | rewrite exec_ask_or_raise | rewrite exec_ask ];
  cbv beta iota.

Ltac exec_steps := repeat exec_step.

Lemma truthy_device_nonempty device d :
  truthy_device device = Some d -> d <> "" /\ device = Some d.
Proof.
  destruct device as [x |]; simpl; [| discriminate].
  destruct (String.eqb_spec x ""); [discriminate |].
  intros H; injection H as <-. auto.
Qed.

(** Every success of [mount_microbit] records a device, a non-empty path,
    together with the mounted flag; every other outcome leaves the manager
    alone. *)
Lemma mount_microbit_post {W : Type} (h : Handler W) m w :
  match result_of (exec h mount_microbit m w) with
  | Ok (true, _) =>
      exists d, d <> "" /\
        manager_of (exec h mount_microbit m w)
        = set_microbit_device (Some d) (set_is_mounted true m)
  | _ => manager_of (exec h mount_microbit m w) = m
  end.
Proof.
  unfold mount_microbit. rewrite exec_bind.
  pose proof (readonly_get_microbit_block_device W h m w) as Hro.
  destruct (exec h get_microbit_block_device m w) as [[[r m1] w1] t1].
  unfold manager_of in Hro; simpl in Hro; subst m1.
  destruct r as [device | e]; [| reflexivity].
  destruct (truthy_device device) as [d |] eqn:Ed; [| reflexivity].
  apply truthy_device_nonempty in Ed. destruct Ed as [Hd _].
  exec_steps.
  destruct (output_of _) as [mount_output | e]; [| reflexivity].
  destruct (PyStr.contains mount_point mount_output).
  { unfold record_mounted. exec_steps. simpl. exists d; auto. }
  exec_steps.
  destruct (fst (h (SubprocessRun ("sudo mkdir -p " ++ mount_point)) _))
    as [out | rc err | e]; reduce_run; simpl negb; cbv iota; exec_steps;
    [| reflexivity | reflexivity].
  destruct (fst (h (SubprocessRun ("sudo mount " ++ d ++ " " ++ mount_point)) _))
    as [out2 | rc err | e]; reduce_run; [| | reflexivity].
  { unfold record_mounted. exec_steps. simpl. exists d; auto. }
  destruct (PyStr.contains "already mounted" _).
  { unfold record_mounted. exec_steps. simpl. exists d; auto. }
  repeat match goal with
         | |- context [if ?b then _ else _] => destruct b
         end; reflexivity.
Qed.

(** Every success of [unmount_microbit] either clears the mounted flag and
    the device together, or finds the manager already unmounted and leaves it
    alone; every other outcome leaves the manager alone. *)
Lemma unmount_after_check_post {W : Type} (h : Handler W) m w :
  match result_of (exec h unmount_after_check m w) with
  | Ok (true, _) =>
      manager_of (exec h unmount_after_check m w)
      = set_microbit_device None (set_is_mounted false m)
  | _ => manager_of (exec h unmount_after_check m w) = m
  end.
Proof.
  unfold unmount_after_check. exec_steps.
  destruct (fst (h (SubprocessRun umount_command) w)) as [out | rc err | e];
    reduce_run; unfold record_unmounted.
  - exec_steps. reflexivity.
  - repeat match goal with
           | |- context [if ?b then _ else _] => destruct b
           end; exec_steps; reflexivity.
  - reflexivity.
Qed.

Lemma unmount_microbit_post {W : Type} (h : Handler W) m w :
  match result_of (exec h unmount_microbit m w) with
  | Ok (true, _) =>
      manager_of (exec h unmount_microbit m w)
      = set_microbit_device None (set_is_mounted false m)
      \/ (is_mounted m = false /\ manager_of (exec h unmount_microbit m w) = m)
  | _ => manager_of (exec h unmount_microbit m w) = m
  end.
Proof.
  rewrite exec_unmount_microbit.
  destruct (is_mounted m) eqn:Em.
  - pose proof (unmount_after_check_post h m w) as H.
    destruct (result_of (exec h unmount_after_check m w)) as [[[|] msg] | e]; auto.
  - cbv zeta.
    destruct (result_of (exec h is_microbit_mounted m w)) as [[|] | e];
      [| right; auto | reflexivity].
    pose proof (unmount_after_check_post h m (snd (h (SubprocessRun "mount") w))) as H.
    unfold result_of at 1, manager_of at 1, manager_of at 2; simpl fst; simpl snd.
    destruct (result_of (exec h unmount_after_check m _)) as [[[|] msg] | e]; auto.
Qed.

Lemma consistent_init downloads : consistent (init downloads).
Proof. split; simpl; [discriminate | reflexivity]. Qed.

Lemma consistent_mounted d m :
  consistent (set_microbit_device (Some d) (set_is_mounted true m)).
Proof. split; simpl; [discriminate | discriminate]. Qed.

Lemma consistent_unmounted m :
  consistent (set_microbit_device None (set_is_mounted false m)).
Proof. split; simpl; [discriminate | reflexivity]. Qed.

Lemma consistent_set_status_message s m :
  consistent m -> consistent (set_status_message s m).
Proof. intros H; exact H. Qed.

Lemma consistent_set_selected_file_idx i m :
  consistent m -> consistent (set_selected_file_idx i m).
Proof. intros H; exact H. Qed.

Lemma consistent_set_manual_unmount b m :
  consistent m -> consistent (set_manual_unmount b m).
Proof. intros H; exact H. Qed.

Lemma consistent_set_show_info_area b m :
  consistent m -> consistent (set_show_info_area b m).
Proof. intros H; exact H. Qed.

Lemma preserves_mount_microbit : preserves consistent mount_microbit.
Proof.
  intros W h m w Hm. pose proof (mount_microbit_post h m w) as H.
  destruct (result_of (exec h mount_microbit m w)) as [[[|] msg] | e].
  - destruct H as [d [_ ->]]. apply consistent_mounted.
  - rewrite H; exact Hm.
  - rewrite H; exact Hm.
Qed.

Lemma preserves_unmount_microbit : preserves consistent unmount_microbit.
Proof.
  intros W h m w Hm. pose proof (unmount_microbit_post h m w) as H.
  destruct (result_of (exec h unmount_microbit m w)) as [[[|] msg] | e].
  - destruct H as [-> | [_ ->]]; [apply consistent_unmounted | exact Hm].
  - rewrite H; exact Hm.
  - rewrite H; exact Hm.
Qed.

Create HintDb preserves.
#[export] Hint Resolve preserves_mount_microbit preserves_unmount_microbit
  consistent_set_status_message consistent_set_selected_file_idx
  consistent_set_manual_unmount consistent_set_show_info_area : preserves.

(** Goes through a method that calls [mount_microbit] or [unmount_microbit]
    and otherwise assigns the other attributes. *)
Ltac preserves_step :=
  match goal with
  | |- preserves _ (bind _ _) => apply preserves_bind; [| intros ?]
  | |- preserves _ (try_except _ _) => apply preserves_try_except; [| intros ?]
  | |- preserves _ (modify _) =>
      apply preserves_modify; intros ? ?; solve [auto with preserves]
  | |- preserves _ (match ?x with _ => _ end) => destruct x
  | |- preserves _ (if ?x then _ else _) => destruct x
  | |- preserves _ _ => solve [auto with preserves]
  | |- preserves _ _ => apply preserves_readonly; solve [prove_readonly]
  end.

Ltac prove_preserves := repeat preserves_step.

Lemma preserves_check_microbit_status : preserves consistent check_microbit_status.
Proof. unfold check_microbit_status; prove_preserves. Qed.

Lemma preserves_adjust_selected hex_files : preserves consistent (adjust_selected hex_files).
Proof. unfold adjust_selected; prove_preserves. Qed.

Lemma preserves_handle_key key hex_files : preserves consistent (handle_key key hex_files).
Proof. unfold handle_key; prove_preserves. Qed.

#[export] Hint Resolve preserves_check_microbit_status preserves_adjust_selected
  preserves_handle_key : preserves.

Lemma preserves_main_loop_iteration : preserves consistent main_loop_iteration.
Proof. unfold main_loop_iteration; prove_preserves. Qed.

Lemma preserves_cleanup : preserves consistent cleanup.
Proof. unfold cleanup; prove_preserves. Qed.

Lemma reachable_consistent m : reachable m -> consistent m.
Proof.
  induction 1 as [downloads | W h w op m Hm IH].
  - apply consistent_init.
  - destruct op; simpl.
    + apply preserves_mount_microbit; exact IH.
    + apply preserves_unmount_microbit; exact IH.
    + rewrite readonly_copy_hex_file; exact IH.
    + apply preserves_main_loop_iteration; exact IH.
    + apply preserves_cleanup; exact IH.
Qed.

(** C1. At every manager reached from [__init__] by any sequence of
    [mount_microbit], [unmount_microbit], [copy_hex_file], poll cycles of the
    main loop and the final clean-up, in any environment: if [is_mounted] is
    true then [microbit_device] is not [None]; every success of
    [mount_microbit] from there sets [is_mounted] and records a device; and
    every success of [unmount_microbit] from there leaves [is_mounted] false
    and [microbit_device] [None]. *)
Theorem mount_state_invariant :
  forall m : Manager, reachable m ->
    (is_mounted m = true -> microbit_device m <> None)
    /\ (forall (W : Type) (h : Handler W) (w : W) (msg : string),
          result_of (exec h mount_microbit m w) = Ok (true, msg) ->
          is_mounted (manager_of (exec h mount_microbit m w)) = true
          /\ exists d, microbit_device (manager_of (exec h mount_microbit m w)) = Some d)
    /\ (forall (W : Type) (h : Handler W) (w : W) (msg : string),
          result_of (exec h unmount_microbit m w) = Ok (true, msg) ->
          is_mounted (manager_of (exec h unmount_microbit m w)) = false
          /\ microbit_device (manager_of (exec h unmount_microbit m w)) = None).
Proof.
  intros m Hm. pose proof (reachable_consistent m Hm) as [H1 H2].
  split; [exact H1 |]. split.
  - intros W h w msg Hr. pose proof (mount_microbit_post h m w) as H.
    rewrite Hr in H. destruct H as [d [_ ->]]. simpl. eauto.
  - intros W h w msg Hr. pose proof (unmount_microbit_post h m w) as H.
    rewrite Hr in H. destruct H as [-> | [Hf ->]]; simpl; auto.
Qed.

Lemma mount_state_invariant_witness :
  reachable manager_mounted
  /\ microbit_device manager_mounted <> None
  /\ is_mounted (manager_of (exec bench unmount_microbit manager_mounted bench_mounted))
     = false
  /\ microbit_device (manager_of (exec bench unmount_microbit manager_mounted bench_mounted))
     = None.
Proof.
  assert (R : reachable manager_mounted)
    by exact (reach_step Bench bench bench_idle OpMount manager0
                (reach_init "/home/pi/Downloads")).
  split; [exact R |].
  split; [exact (proj1 (mount_state_invariant manager_mounted R) eq_refl) |].
  exact (proj2 (proj2 (mount_state_invariant manager_mounted R))
           Bench bench bench_mounted "Microbit unmounted successfully" eq_refl).
Defined.

(** * Mounting twice *)

Lemma exec_mount_already_mounted {W : Type} (h : Handler W) m w d :
  d <> "" -> resolves_mounted h m w d ->
  result_of (exec h mount_microbit m w)
  = Ok (true, "Already mounted " ++ d ++ " to " ++ mount_point)
  /\ manager_of (exec h mount_microbit m w)
     = set_microbit_device (Some d) (set_is_mounted true m).
Proof.
  intros Hd [H1 H2]. unfold mount_microbit. rewrite exec_bind.
  pose proof (readonly_get_microbit_block_device W h m w) as Hro.
  destruct (exec h get_microbit_block_device m w) as [[[r m1] w1] t1].
  unfold manager_of in Hro; unfold result_of in H1; unfold world_of in H2 at 1;
    simpl in Hro, H1, H2; subst m1 r. cbv beta iota.
  simpl truthy_device. destruct (String.eqb_spec d ""); [contradiction |].
  rewrite exec_bind.
  pose proof (readonly_is_microbit_mounted W h m w1) as Hro2.
  destruct (exec h is_microbit_mounted m w1) as [[[r2 m2] w2] t2].
  unfold manager_of in Hro2; unfold result_of in H2; simpl in Hro2, H2; subst m2 r2.
  cbv beta iota. unfold record_mounted. exec_steps. simpl. auto.
Qed.

Lemma probe_common_devices_result {W : Type} (h : Handler W) devices m w d :
  result_of (exec h (probe_common_devices devices) m w) = Ok (Some d) -> In d devices.
Proof.
  revert w; induction devices as [| device rest IH]; intros w; simpl.
  - discriminate.
  - exec_steps.
    destruct (fst (h (PathExists device) w)); cbv beta iota.
    + exec_steps.
      destruct (output_of _) as [size_output | e]; cbv beta iota;
        [| simpl; discriminate].
      match goal with
      | |- context [if ?b then _ else _] => destruct b
      end.
      * exec_steps. simpl. intros H; injection H; auto.
      * pose proof (IH (snd (h (SubprocessRun ("lsblk -b " ++ device ++ " | tail -1"))
                               (snd (h (PathExists device) w))))) as IH'.
        destruct (exec h (probe_common_devices rest) m _) as [[[r2 m2] w2] t2].
        simpl in *. auto.
    + pose proof (IH (snd (h (PathExists device) w))) as IH'.
      destruct (exec h (probe_common_devices rest) m _) as [[[r2 m2] w2] t2].
      simpl in *. auto.
Qed.

Lemma scan_blockdevices_result devices d :
  scan_blockdevices devices = Ok (Some d) -> d <> "".
Proof.
  induction devices as [| device rest IH]; simpl; [discriminate |].
  destruct (Py.get device "rm" (JBool false)) as [rm | e]; [| discriminate].
  destruct (Py.truthy rm); [| exact IH].
  destruct (Py.get device "size" (JStr "")) as [size | e]; [| discriminate].
  destruct (size_matches size) as [[|] | e]; [| exact IH | discriminate].
  unfold device_path. destruct device; try discriminate.
  destruct (Py.lookup "name" fields); [| discriminate].
  intros H; injection H as <-. discriminate.
Qed.

(** A resolved block device is never the empty path. *)
Lemma get_microbit_block_device_nonempty {W : Type} (h : Handler W) m w d :
  result_of (exec h get_microbit_block_device m w) = Ok (Some d) -> d <> "".
Proof.
  assert (Hprobe : forall w',
             result_of (exec h (probe_common_devices ["/dev/sda"; "/dev/sdb"; "/dev/sdc"])
                          m w') = Ok (Some d) -> d <> "").
  { intros w' H. apply probe_common_devices_result in H.
    destruct H as [<- | [<- | [<- | []]]]; discriminate. }
  unfold get_microbit_block_device. exec_steps.
  destruct (output_of _) as [lsblk_output | e]; cbv beta iota;
    [| simpl; discriminate].
  exec_steps.
  destruct (fst (h (JsonLoads _) _)) as [data |]; cbv beta iota.
  - destruct (find_removable data) as [[device |] | e] eqn:E.
    + exec_steps. simpl. intros H; injection H as <-.
      unfold find_removable in E.
      destruct (Py.get data "blockdevices" (JArr [])) as [devices | e]; [| discriminate].
      destruct (Py.iterate devices) as [l | e]; [| discriminate].
      exact (scan_blockdevices_result l device E).
    + intros H. eapply Hprobe.
      destruct (exec h (probe_common_devices _) m _) as [[[r2 m2] w2] t2] eqn:E2.
      rewrite <- H. rewrite E2. reflexivity.
    + exec_steps. simpl. discriminate.
  - intros H. eapply Hprobe.
    destruct (exec h (probe_common_devices _) m _) as [[[r2 m2] w2] t2] eqn:E2.
    rewrite <- H. rewrite E2. reflexivity.
Qed.

(** C5. If, at each of two calls of [mount_microbit] in a row, the block
    device resolves to the same path and the mount point is present in the
    mount table, then both calls return success, the first records that path
    as the device, and the second leaves the recorded device as the first
    left it. *)
Theorem mount_twice_already_mounted :
  forall (W : Type) (h : Handler W) (w : W) (m : Manager) (d : string),
    resolves_mounted h m w d ->
    resolves_mounted h (manager_of (exec h mount_microbit m w))
      (world_of (exec h mount_microbit m w)) d ->
    (exists msg, result_of (exec h mount_microbit m w) = Ok (true, msg))
    /\ (exists msg,
          result_of (exec h mount_microbit (manager_of (exec h mount_microbit m w))
                       (world_of (exec h mount_microbit m w))) = Ok (true, msg))
    /\ microbit_device (manager_of (exec h mount_microbit m w)) = Some d
    /\ microbit_device
         (manager_of (exec h mount_microbit (manager_of (exec h mount_microbit m w))
                        (world_of (exec h mount_microbit m w))))
       = microbit_device (manager_of (exec h mount_microbit m w)).
Proof.
  intros W h w m d H1 H2.
  assert (Hd : d <> "")
    by exact (get_microbit_block_device_nonempty h m w d (proj1 H1)).
  destruct (exec_mount_already_mounted h m w d Hd H1) as [R1 M1].
  destruct (exec_mount_already_mounted h _ _ d Hd H2) as [R2 M2].
  split; [eexists; exact R1 |].
  split; [eexists; exact R2 |].
  rewrite M2, M1. split; reflexivity.
Qed.

Lemma mount_twice_already_mounted_witness :
  microbit_device (manager_of (exec bench mount_microbit manager0 bench_mounted))
  = Some "/dev/sdb"
  /\ microbit_device
       (manager_of (exec bench mount_microbit
                      (manager_of (exec bench mount_microbit manager0 bench_mounted))
                      (world_of (exec bench mount_microbit manager0 bench_mounted))))
     = microbit_device (manager_of (exec bench mount_microbit manager0 bench_mounted)).
Proof.
  apply (mount_twice_already_mounted Bench bench bench_mounted manager0 "/dev/sdb").
  - split; vm_compute; reflexivity.
  - split; vm_compute; reflexivity.
Defined.

(** * The manually-unmounted latch *)

Lemma exec_detect_microbit {W : Type} (h : Handler W) m w :
  exec h detect_microbit m w =
  (detection_of (fst (h (SubprocessRun "lsusb") w)),
   m, snd (h (SubprocessRun "lsusb") w),
   [Ev (SubprocessRun "lsusb") (fst (h (SubprocessRun "lsusb") w))]).
Proof.
  unfold detect_microbit, detection_of. exec_steps.
  destruct (output_of _); reflexivity.
Qed.

(** The user's [m] key on a mounted manager: an unmount that succeeds sets
    the latch. *)
Lemma handle_key_m_unmount {W : Type} (h : Handler W) m w hex_files msg :
  is_mounted m = true ->
  result_of (exec h unmount_microbit m w) = Ok (true, msg) ->
  manager_of (exec h (handle_key ord_m hex_files) m w)
  = set_status_message msg
      (set_manual_unmount true (manager_of (exec h unmount_microbit m w))).
Proof.
  intros Hm Hr. unfold handle_key. simpl. exec_steps. rewrite Hm.
  exec_steps.
  destruct (exec h unmount_microbit m w) as [[[r m1] w1] t1].
  unfold result_of in Hr; simpl in Hr; subst r. cbv beta iota.
  exec_steps. reflexivity.
Qed.

(** The user's [m] key on an unmounted manager: a mount that succeeds clears
    the latch. *)
Lemma handle_key_m_mount {W : Type} (h : Handler W) m w hex_files msg :
  is_mounted m = false ->
  result_of (exec h mount_microbit m w) = Ok (true, msg) ->
  manager_of (exec h (handle_key ord_m hex_files) m w)
  = set_status_message msg
      (set_manual_unmount false (manager_of (exec h mount_microbit m w))).
Proof.
  intros Hm Hr. unfold handle_key. simpl. exec_steps. rewrite Hm.
  exec_steps.
  destruct (exec h mount_microbit m w) as [[[r m1] w1] t1].
  unfold result_of in Hr; simpl in Hr; subst r. cbv beta iota.
  exec_steps. reflexivity.
Qed.

(** The status check with the latch set and the manager unmounted: nothing
    but the bus enumeration is asked, and only a disconnection changes the
    manager, by clearing the latch. *)
Lemma check_microbit_status_latched {W : Type} (h : Handler W) m w :
  manual_unmount m = true -> is_mounted m = false ->
  trace_of (exec h check_microbit_status m w) = trace_of (exec h detect_microbit m w)
  /\ manager_of (exec h check_microbit_status m w)
     = match result_of (exec h detect_microbit m w) with
       | Ok (false, _) => set_manual_unmount false m
       | _ => m
       end.
Proof.
  intros Hl Hm. unfold check_microbit_status.
  rewrite exec_bind, exec_detect_microbit. unfold result_of at 1. cbn [fst].
  destruct (detection_of _) as [[connected info] | e]; cbv beta iota;
    [| split; reflexivity].
  exec_steps. rewrite Hl, Hm.
  destruct connected; simpl; exec_steps; split; reflexivity.
Qed.

(** [unmount_microbit] raises only what running a command raised. *)
Lemma unmount_after_check_raises {W : Type} (h : Handler W) m w e :
  result_of (exec h unmount_after_check m w) = Raised e ->
  fst (h (SubprocessRun umount_command) w) = RunRaised e.
Proof.
  unfold unmount_after_check. exec_steps.
  destruct (fst (h (SubprocessRun umount_command) w)) as [out | rc err | e1];
    reduce_run; unfold record_unmounted.
  - exec_steps. discriminate.
  - repeat match goal with
           | |- context [if ?b then _ else _] => destruct b
           end; exec_steps; discriminate.
  - unfold result_of; simpl. intros H; injection H as <-. reflexivity.
Qed.

Lemma unmount_microbit_raises {W : Type} (h : Handler W) m w e :
  result_of (exec h unmount_microbit m w) = Raised e ->
  exists command,
    (command = "mount" \/ command = umount_command)
    /\ In (Ev (SubprocessRun command) (RunRaised e))
         (trace_of (exec h unmount_microbit m w)).
Proof.
  rewrite exec_unmount_microbit. destruct (is_mounted m).
  - intros H. exists umount_command. split; [right; reflexivity |].
    rewrite trace_unmount_after_check.
    rewrite (unmount_after_check_raises h m w e H). left; reflexivity.
  - cbv zeta. rewrite exec_is_microbit_mounted. unfold result_of at 1. cbn [fst].
    destruct (fst (h (SubprocessRun "mount") w)) as [out | rc err | e1] eqn:Ea;
      reduce_run.
    + destruct (PyStr.contains mount_point (PyStr.strip out)); [| discriminate].
      unfold result_of at 1, trace_of at 1. cbn [fst snd]. intros H.
      exists umount_command. split; [right; reflexivity |].
      right. rewrite trace_unmount_after_check.
      rewrite (unmount_after_check_raises h m _ e H). left; reflexivity.
    + destruct (PyStr.contains mount_point ""); [| discriminate].
      unfold result_of at 1, trace_of at 1. cbn [fst snd]. intros H.
      exists umount_command. split; [right; reflexivity |].
      right. rewrite trace_unmount_after_check.
      rewrite (unmount_after_check_raises h m _ e H). left; reflexivity.
    + unfold result_of, trace_of. cbn [fst snd]. intros H; injection H as <-.
      exists "mount". split; [left; reflexivity | left; reflexivity].
Qed.

(** The status check when the board is not detected: once it has returned,
    the latch is clear, mounted or not. *)
Lemma check_microbit_status_disconnected {W : Type} (h : Handler W) m w info :
  result_of (exec h detect_microbit m w) = Ok (false, info) ->
  result_of (exec h check_microbit_status m w) = Ok tt ->
  manual_unmount (manager_of (exec h check_microbit_status m w)) = false.
Proof.
  unfold check_microbit_status.
  rewrite exec_bind, exec_detect_microbit. unfold result_of at 1; simpl fst.
  intros Hr. rewrite Hr. cbv beta iota.
  exec_steps. simpl andb. cbv iota.
  destruct (is_mounted m); simpl.
  - exec_steps.
    destruct (exec h unmount_microbit m _) as [[[r1 m1] w1] t1].
    destruct r1 as [outcome | e]; cbv beta iota; [| discriminate].
    exec_steps. reflexivity.
  - exec_steps. reflexivity.
Qed.

(** Any key but [m] leaves a set latch, and the unmounted state, as they
    are. *)
Lemma handle_key_keeps_latch key hex_files :
  key <> ord_m -> preserves latched (handle_key key hex_files).
Proof.
  intros Hkey. unfold handle_key.
  rewrite (proj2 (Z.eqb_neq key ord_m) Hkey).
  repeat match goal with
         | |- preserves _ (bind _ _) => apply preserves_bind; [| intros ?]
         | |- preserves _ (modify _) =>
             apply preserves_modify; intros ? ?; assumption
         | |- preserves _ (match ?x with _ => _ end) => destruct x
         | |- preserves _ (if ?x then _ else _) => destruct x
         | |- preserves _ _ => apply preserves_readonly; solve [prove_readonly]
         end.
Qed.

(** * The latch in the poll cycle *)

Lemma board_detected_app t1 t2 :
  board_detected (t1 ++ t2)%list = board_detected t1 && board_detected t2.
Proof. apply forallb_app. Qed.

Lemma board_missing_app t1 t2 :
  board_missing (t1 ++ t2)%list = board_missing t1 && board_missing t2.
Proof. apply forallb_app. Qed.

Lemma pressed_app key t1 t2 : pressed key (t1 ++ t2)%list = pressed key t1 || pressed key t2.
Proof. apply existsb_app. Qed.

Lemma key_read_app t1 t2 : key_read (t1 ++ t2)%list = key_read t1 || key_read t2.
Proof. apply existsb_app. Qed.

Lemma mount_attempted_app t1 t2 :
  mount_attempted (t1 ++ t2)%list = mount_attempted t1 || mount_attempted t2.
Proof. apply existsb_app. Qed.

Lemma before_key_app t1 t2 :
  before_key (t1 ++ t2)%list
  = if key_read t1 then before_key t1 else (t1 ++ before_key t2)%list.
Proof.
  induction t1 as [| ev t1 IH]; [reflexivity |].
  cbn [app before_key key_read existsb].
  destruct (is_getch (request_of ev)); cbn [orb]; [reflexivity |].
  fold (key_read t1). rewrite IH. destruct (key_read t1); reflexivity.
Qed.

Lemma before_key_none t : key_read t = false -> before_key t = t.
Proof.
  induction t as [| ev t IH]; [reflexivity |].
  cbn [before_key key_read existsb].
  destruct (is_getch (request_of ev)); cbn [orb]; [discriminate |].
  intros H. rewrite (IH H). reflexivity.
Qed.

Lemma after_key_app t1 t2 :
  key_read t1 = false -> after_key (t1 ++ t2)%list = after_key t2.
Proof.
  induction t1 as [| ev t1 IH]; [reflexivity |].
  cbn [app after_key key_read existsb].
  destruct (is_getch (request_of ev)); cbn [orb]; [discriminate | exact IH].
Qed.

Lemma after_key_none t : key_read t = false -> after_key t = [].
Proof.
  intros H. rewrite <- (app_nil_r t), (after_key_app t [] H). reflexivity.
Qed.

Lemma no_key_trace t :
  forallb (fun ev => no_key (request_of ev)) t = true -> key_read t = false.
Proof.
  induction t as [| ev t IH]; [auto |].
  cbn [forallb key_read existsb]. unfold no_key at 1.
  intros H. apply andb_true_iff in H. destruct H as [Hev Ht].
  apply negb_true_iff in Hev. rewrite Hev. exact (IH Ht).
Qed.

Lemma no_umount_trace t :
  forallb (fun ev => no_umount (request_of ev)) t = true -> umount_attempted t = false.
Proof.
  induction t as [| ev t IH]; [auto |].
  cbn [forallb umount_attempted existsb]. unfold no_umount at 1.
  intros H. apply andb_true_iff in H. destruct H as [Hev Ht].
  apply negb_true_iff in Hev. rewrite Hev. exact (IH Ht).
Qed.

(** A trace of calm requests has no key and no command of
    [mount_microbit]. *)
Lemma calm_trace t :
  forallb (fun ev => calm (request_of ev)) t = true ->
  key_read t = false /\ mount_attempted t = false.
Proof.
  induction t as [| ev t IH]; [auto |].
  cbn [forallb key_read mount_attempted existsb]. unfold calm at 1.
  intros H. apply andb_true_iff in H. destruct H as [Hev Ht].
  apply andb_true_iff in Hev. destruct Hev as [Hk Hc].
  apply negb_true_iff in Hk, Hc. rewrite Hk, Hc. exact (IH Ht).
Qed.

Lemma no_mount_trace t :
  forallb (fun ev => no_mount (request_of ev)) t = true -> mount_attempted t = false.
Proof.
  induction t as [| ev t IH]; [auto |].
  cbn [forallb mount_attempted existsb]. unfold no_mount at 1.
  intros H. apply andb_true_iff in H. destruct H as [Hev Ht].
  apply negb_true_iff in Hev. rewrite Hev. exact (IH Ht).
Qed.

(** ** Calls that ask only some requests *)

Section AsksOnly.

Variable ok : Request -> bool.

Lemma asks_only_ret {A : Type} (a : A) : asks_only ok (ret a).
Proof. intros W h m w. reflexivity. Qed.

Lemma asks_only_raise {A : Type} (e : Exc) : asks_only ok (@raise A e).
Proof. intros W h m w. reflexivity. Qed.

Lemma asks_only_gets {A : Type} (f : Manager -> A) : asks_only ok (gets f).
Proof. intros W h m w. reflexivity. Qed.

Lemma asks_only_modify (f : Manager -> Manager) : asks_only ok (modify f).
Proof. intros W h m w. reflexivity. Qed.

Lemma asks_only_ask (r : Request) : ok r = true -> asks_only ok (ask r).
Proof.
  intros Hr W h m w. rewrite exec_ask. unfold trace_of; cbn [snd forallb request_of].
  rewrite Hr. reflexivity.
Qed.

Lemma asks_only_ask_or_raise {A : Type} (r : Request) (conv : Response r -> Exc + A) :
  ok r = true -> asks_only ok (ask_or_raise r conv).
Proof.
  intros Hr W h m w. rewrite exec_ask_or_raise.
  unfold trace_of; cbn [snd forallb request_of]. rewrite Hr. reflexivity.
Qed.

Lemma asks_only_run_command command :
  ok (SubprocessRun command) = true -> asks_only ok (run_command command).
Proof.
  intros Hr W h m w. rewrite exec_run_command.
  unfold trace_of; cbn [snd forallb request_of]. rewrite Hr. reflexivity.
Qed.

Lemma asks_only_run_command_with_error command :
  ok (SubprocessRun command) = true -> asks_only ok (run_command_with_error command).
Proof.
  intros Hr W h m w. rewrite exec_run_command_with_error.
  unfold trace_of; cbn [snd forallb request_of]. rewrite Hr. reflexivity.
Qed.

Lemma asks_only_bind {A B : Type} (c : M A) (f : A -> M B) :
  asks_only ok c -> (forall a, asks_only ok (f a)) -> asks_only ok (bind c f).
Proof.
  intros Hc Hf W h m w. rewrite exec_bind. specialize (Hc W h m w).
  destruct (exec h c m w) as [[[r m1] w1] t1]. unfold trace_of in *; cbn [snd] in *.
  destruct r as [a | e]; [| exact Hc].
  specialize (Hf a W h m1 w1).
  destruct (exec h (f a) m1 w1) as [[[r2 m2] w2] t2].
  unfold trace_of in *; cbn [snd] in *.
  rewrite forallb_app, Hc, Hf. reflexivity.
Qed.

Lemma asks_only_try_except {A : Type} (c : M A) (handler : Exc -> M A) :
  asks_only ok c -> (forall e, asks_only ok (handler e)) ->
  asks_only ok (try_except c handler).
Proof.
  intros Hc Hf W h m w. rewrite exec_try_except. specialize (Hc W h m w).
  destruct (exec h c m w) as [[[r m1] w1] t1]. unfold trace_of in *; cbn [snd] in *.
  destruct r as [a | e]; [exact Hc |].
  specialize (Hf e W h m1 w1).
  destruct (exec h (handler e) m1 w1) as [[[r2 m2] w2] t2].
  unfold trace_of in *; cbn [snd] in *.
  rewrite forallb_app, Hc, Hf. reflexivity.
Qed.

End AsksOnly.

Lemma asks_only_weaken {A : Type} (ok ok' : Request -> bool) (c : M A) :
  (forall r, ok r = true -> ok' r = true) -> asks_only ok c -> asks_only ok' c.
Proof.
  intros Hok Hc W h m w. specialize (Hc W h m w).
  rewrite forallb_forall in *. intros ev Hev. apply Hok, Hc, Hev.
Qed.

Lemma asks_only_weaken_trace (ok ok' : Request -> bool) (t : Trace) :
  (forall r, ok r = true -> ok' r = true) ->
  forallb (fun ev => ok (request_of ev)) t = true ->
  forallb (fun ev => ok' (request_of ev)) t = true.
Proof.
  intros Hok Ht. rewrite forallb_forall in *. intros ev Hev. apply Hok, Ht, Hev.
Qed.

Lemma calm_no_key r : calm r = true -> no_key r = true.
Proof. unfold calm, no_key. intros H. apply andb_true_iff in H. tauto. Qed.

Ltac asks_only_step :=
  match goal with
  | |- asks_only _ (bind _ _) => apply asks_only_bind; [| intros ?]
  | |- asks_only _ (try_except _ _) => apply asks_only_try_except; [| intros ?]
  | |- asks_only _ (match ?x with _ => _ end) => destruct x
  | |- asks_only _ (if ?x then _ else _) => destruct x
  | |- asks_only _ (ret _) => apply asks_only_ret
  | |- asks_only _ (raise _) => apply asks_only_raise
  | |- asks_only _ (gets _) => apply asks_only_gets
  | |- asks_only _ (modify _) => apply asks_only_modify
  | |- asks_only _ (run_command _) => apply asks_only_run_command; reflexivity
  | |- asks_only _ (run_command_with_error _) =>
      apply asks_only_run_command_with_error; reflexivity
  | |- asks_only _ _ => assumption
  | |- asks_only _ _ =>
      progress unfold os_path_exists, os_path_isfile, pathlib_exists, os_path_getsize,
        os_statvfs, os_stat, os_listdir, glob_hex, read_text, format_mtime
  | |- asks_only ?ok (ask ?r) => apply (asks_only_ask ok r); reflexivity
  | |- asks_only ?ok (ask_or_raise ?r ?conv) =>
      apply (asks_only_ask_or_raise ok r conv); reflexivity
  end.

Ltac prove_asks_only := repeat asks_only_step.

Lemma calm_stat_hex_files dir names : asks_only calm (stat_hex_files dir names).
Proof.
  induction names as [| name rest IH]; simpl; unfold os_stat, format_mtime;
    prove_asks_only.
Qed.

Lemma calm_get_hex_files : asks_only calm get_hex_files.
Proof.
  pose proof calm_stat_hex_files.
  unfold get_hex_files, pathlib_exists, glob_hex. prove_asks_only. apply H.
Qed.

Lemma calm_get_microbit_info : asks_only calm get_microbit_info.
Proof. unfold get_microbit_info, read_text. prove_asks_only. Qed.

Lemma calm_draw_header : asks_only calm draw_header.
Proof.
  pose proof calm_get_microbit_info.
  unfold draw_header, detect_microbit, get_firmware_version. prove_asks_only.
Qed.

Lemma calm_stat_microbit_files items : asks_only calm (stat_microbit_files items).
Proof.
  induction items as [| item rest IH]; simpl;
    unfold stat_entry, os_stat, format_mtime; prove_asks_only.
Qed.

Lemma calm_draw_microbit_files : asks_only calm draw_microbit_files.
Proof.
  pose proof calm_stat_microbit_files.
  unfold draw_microbit_files, get_microbit_files, os_listdir. prove_asks_only. apply H.
Qed.

Lemma calm_draw_info_area : asks_only calm draw_info_area.
Proof.
  pose proof calm_get_microbit_info.
  unfold draw_info_area, get_microbit_details. prove_asks_only.
Qed.

Lemma no_mount_copy_hex_file path : asks_only no_mount (copy_hex_file path).
Proof.
  unfold copy_hex_file, validate_hex_file, check_space, verify_copy, read_text,
    os_statvfs, os_path_getsize.
  prove_asks_only.
Qed.

(** Any key but [m] runs no command of [mount_microbit]. *)
Lemma no_mount_handle_key key hex_files :
  key <> ord_m -> asks_only no_mount (handle_key key hex_files).
Proof.
  intros Hkey. pose proof no_mount_copy_hex_file.
  unfold handle_key. rewrite (proj2 (Z.eqb_neq key ord_m) Hkey).
  prove_asks_only. apply H.
Qed.

(** Any key but [m] leaves the mounted flag and the latch as they are. *)
Lemma handle_key_keeps_flags key hex_files (mounted latch : bool) :
  key <> ord_m ->
  preserves (fun m => is_mounted m = mounted /\ manual_unmount m = latch)
    (handle_key key hex_files).
Proof.
  intros Hkey. unfold handle_key.
  rewrite (proj2 (Z.eqb_neq key ord_m) Hkey).
  repeat match goal with
         | |- preserves _ (bind _ _) => apply preserves_bind; [| intros ?]
         | |- preserves _ (modify _) =>
             apply preserves_modify; intros ? ?; assumption
         | |- preserves _ (match ?x with _ => _ end) => destruct x
         | |- preserves _ (if ?x then _ else _) => destruct x
         | |- preserves _ _ => apply preserves_readonly; solve [prove_readonly]
         end.
Qed.

(** ** Calls that obey a link *)

Section Links.

Variable R : Manager -> Trace -> Manager -> Prop.
Hypothesis R_refl : forall m, R m [] m.
Hypothesis R_trans :
  forall m t1 m1 t2 m2, R m t1 m1 -> R m1 t2 m2 -> R m (t1 ++ t2)%list m2.

Lemma obeys_ret {A : Type} (a : A) : obeys R (ret a).
Proof. intros W h m w. apply R_refl. Qed.

Lemma obeys_modify (f : Manager -> Manager) :
  (forall m, R m [] (f m)) -> obeys R (modify f).
Proof. intros Hf W h m w. apply Hf. Qed.

Lemma obeys_bind {A B : Type} (c : M A) (f : A -> M B) :
  obeys R c -> (forall a, obeys R (f a)) -> obeys R (bind c f).
Proof.
  intros Hc Hf W h m w. rewrite exec_bind. specialize (Hc W h m w).
  destruct (exec h c m w) as [[[r m1] w1] t1].
  unfold trace_of, manager_of in *; cbn [fst snd] in *.
  destruct r as [a | e]; [| exact Hc].
  specialize (Hf a W h m1 w1).
  destruct (exec h (f a) m1 w1) as [[[r2 m2] w2] t2].
  unfold trace_of, manager_of in *; cbn [fst snd] in *.
  exact (R_trans _ _ _ _ _ Hc Hf).
Qed.

Lemma link_bind_at {A B : Type} (c : M A) (f : A -> M B)
  {W : Type} (h : Handler W) m w :
  R m (trace_of (exec h c m w)) (manager_of (exec h c m w)) ->
  (forall a, result_of (exec h c m w) = Ok a ->
     R (manager_of (exec h c m w))
       (trace_of (exec h (f a) (manager_of (exec h c m w)) (world_of (exec h c m w))))
       (manager_of (exec h (f a) (manager_of (exec h c m w))
                      (world_of (exec h c m w))))) ->
  R m (trace_of (exec h (bind c f) m w)) (manager_of (exec h (bind c f) m w)).
Proof.
  rewrite exec_bind.
  destruct (exec h c m w) as [[[r m1] w1] t1].
  unfold result_of, trace_of, manager_of, world_of; cbn [fst snd].
  intros Hc Hf. destruct r as [a | e]; [| exact Hc].
  specialize (Hf a eq_refl).
  destruct (exec h (f a) m1 w1) as [[[r2 m2] w2] t2]. cbn [fst snd] in *.
  exact (R_trans _ _ _ _ _ Hc Hf).
Qed.

Lemma obeys_main_loop :
  obeys R main_loop_iteration -> forall fuel, obeys R (main_loop fuel).
Proof.
  intros Hcycle fuel. induction fuel as [| n IH]; cbn [main_loop].
  - apply obeys_ret.
  - apply obeys_bind; [exact Hcycle |].
    intros [|]; [exact IH | apply obeys_ret].
Qed.

End Links.

(** ** The rules of the latch *)

Lemma latch_rules_refl m : latch_rules m [] m.
Proof.
  split; [auto |]. split; [congruence |].
  split; [intros [_ H] H'; congruence |]. auto.
Qed.

Lemma latch_rules_trans m t1 m1 t2 m2 :
  latch_rules m t1 m1 -> latch_rules m1 t2 m2 -> latch_rules m (t1 ++ t2)%list m2.
Proof.
  intros [A1 [B1 [C1 D1]]] [A2 [B2 [C2 D2]]].
  unfold latch_rules. rewrite pressed_app, mount_attempted_app.
  split; [auto |]. split; [| split].
  - intros Hm Hm2. destruct (is_mounted m1) eqn:Em1.
    + rewrite (B2 eq_refl Hm2). apply orb_true_r.
    + rewrite (B1 Hm eq_refl). reflexivity.
  - intros Hl Hm2. destruct (pressed ord_m t1) eqn:Ep; [reflexivity |].
    destruct (D1 Hl eq_refl) as [Hl1 _]. exact (C2 Hl1 Hm2).
  - intros Hl Hp. apply orb_false_iff in Hp. destruct Hp as [Hp1 Hp2].
    destruct (D1 Hl Hp1) as [Hl1 Hn1]. destruct (D2 Hl1 Hp2) as [Hl2 Hn2].
    rewrite Hn1, Hn2. auto.
Qed.

Lemma latch_link_refl m : latch_link m [] m.
Proof. intros _. apply latch_rules_refl. Qed.

Lemma latch_link_trans m t1 m1 t2 m2 :
  latch_link m t1 m1 -> latch_link m1 t2 m2 -> latch_link m (t1 ++ t2)%list m2.
Proof.
  intros H1 H2 Hd. rewrite board_detected_app in Hd.
  apply andb_true_iff in Hd. destruct Hd as [Hd1 Hd2].
  exact (latch_rules_trans _ _ _ _ _ (H1 Hd1) (H2 Hd2)).
Qed.

Lemma latch_link_rules {A : Type} (c : M A) : obeys latch_rules c -> obeys latch_link c.
Proof. intros Hc W h m w _. apply Hc. Qed.

(** A call that only reads the manager and asks calm requests. *)
Lemma latch_rules_calm {A : Type} (c : M A) :
  readonly c -> asks_only calm c -> obeys latch_rules c.
Proof.
  intros Hro Hc W h m w. rewrite Hro. specialize (Hc W h m w).
  destruct (calm_trace _ Hc) as [Hk Hn].
  split; [auto |]. split; [congruence |].
  split; [intros [_ H] H'; congruence |]. auto.
Qed.

Lemma latch_rules_adjust_selected hex_files :
  obeys latch_rules (adjust_selected hex_files).
Proof.
  unfold adjust_selected.
  destruct hex_files; apply obeys_modify; intros m;
    (split; [auto |]); (split; [simpl; congruence |]);
    (split; [intros [_ H] H'; simpl in H'; congruence |]); auto.
Qed.

Lemma lsusb_shows_detection wanted a :
  lsusb_shows wanted (Ev (SubprocessRun "lsusb") a) = true ->
  exists info, detection_of a = Ok (wanted, info).
Proof.
  cbn. destruct (detection_of a) as [[connected info] | e]; [| discriminate].
  intros H. apply eqb_prop in H. subst. eauto.
Qed.

(** The status check with the board detected does nothing when the manager
    is mounted or latched. *)
Lemma check_microbit_status_detected {W : Type} (h : Handler W) m w info :
  result_of (exec h detect_microbit m w) = Ok (true, info) ->
  mounted_or_latched m ->
  exec h check_microbit_status m w
  = (Ok tt, m, snd (h (SubprocessRun "lsusb") w),
     [Ev (SubprocessRun "lsusb") (fst (h (SubprocessRun "lsusb") w))]).
Proof.
  rewrite exec_detect_microbit. unfold result_of; cbn [fst].
  intros Hd Hm. unfold check_microbit_status.
  rewrite exec_bind, exec_detect_microbit, Hd. cbv beta iota. exec_steps.
  destruct Hm as [Hm | Hl].
  - rewrite Hm. simpl. exec_steps. reflexivity.
  - rewrite Hl. destruct (is_mounted m); simpl; exec_steps; reflexivity.
Qed.

Lemma trace_check_microbit_status_first {W : Type} (h : Handler W) m w :
  exists t,
    trace_of (exec h check_microbit_status m w)
    = Ev (SubprocessRun "lsusb") (fst (h (SubprocessRun "lsusb") w)) :: t.
Proof.
  unfold check_microbit_status. rewrite exec_bind, exec_detect_microbit.
  destruct (detection_of _) as [detected | e]; cbv beta iota.
  - destruct (exec h _ m _) as [[[r2 m2] w2] t2]. eexists. reflexivity.
  - eexists. reflexivity.
Qed.

(** The status check that detects the board keeps the rules. *)
Lemma latch_rules_check_detected {W : Type} (h : Handler W) m w info :
  result_of (exec h detect_microbit m w) = Ok (true, info) ->
  latch_rules m (trace_of (exec h check_microbit_status m w))
    (manager_of (exec h check_microbit_status m w)).
Proof.
  intros Hd.
  destruct (is_mounted m) eqn:Em; [| destruct (manual_unmount m) eqn:El].
  - rewrite (check_microbit_status_detected h m w info Hd (or_introl Em)).
    unfold manager_of, trace_of; cbn [fst snd].
    split; [auto |]. split; [congruence |].
    split; intros [_ H]; congruence.
  - rewrite (check_microbit_status_detected h m w info Hd (or_intror El)).
    unfold manager_of, trace_of; cbn [fst snd].
    split; [auto |]. split; [congruence |].
    split; [intros [_ H] H'; congruence |]. intros Hl _; split; auto.
  - split; [intros [H | H]; congruence |]. split; [congruence |].
    split; intros [H _]; congruence.
Qed.

Lemma latch_link_check_microbit_status : obeys latch_link check_microbit_status.
Proof.
  intros W h m w Hd.
  destruct (trace_check_microbit_status_first h m w) as [t Ht].
  rewrite Ht in Hd. cbn [board_detected forallb] in Hd.
  apply andb_true_iff in Hd. destruct Hd as [Hd _].
  apply lsusb_shows_detection in Hd. destruct Hd as [info Hd].
  apply (latch_rules_check_detected h m w info).
  rewrite exec_detect_microbit. exact Hd.
Qed.

(** The user's [m] key keeps a manager mounted or latched: an unmount that
    succeeds sets the latch. *)
Lemma handle_key_m_mounted_or_latched hex_files :
  preserves mounted_or_latched (handle_key ord_m hex_files).
Proof.
  intros W h m w Hm. unfold handle_key. simpl. exec_steps.
  destruct (is_mounted m) eqn:Em; cbv beta iota.
  - rewrite exec_bind.
    pose proof (unmount_microbit_post h m w) as Hp.
    destruct (exec h unmount_microbit m w) as [[[r1 m1] w1] t1].
    unfold result_of, manager_of in *; cbn [fst snd] in *.
    destruct r1 as [[[|] msg] | e]; cbv beta iota.
    + exec_steps. right. reflexivity.
    + subst m1. exec_steps. left. exact Em.
    + subst m1. left. exact Em.
  - destruct Hm as [Hm | Hl]; [congruence |].
    rewrite exec_bind.
    pose proof (mount_microbit_post h m w) as Hp.
    destruct (exec h mount_microbit m w) as [[[r1 m1] w1] t1].
    unfold result_of, manager_of in *; cbn [fst snd] in *.
    destruct r1 as [[[|] msg] | e]; cbv beta iota.
    + destruct Hp as [d [_ ->]]. exec_steps. left. reflexivity.
    + subst m1. exec_steps. right. exact Hl.
    + subst m1. right. exact Hl.
Qed.

(** The reading of the key and its handling. *)
Lemma latch_rules_key hex_files :
  obeys latch_rules (bind (ask Getch) (fun key => handle_key key hex_files)).
Proof.
  intros W h m w. rewrite exec_bind, exec_ask. cbv beta iota.
  generalize (fst (h Getch w)) as key. generalize (snd (h Getch w)) as w1.
  intros w1 key.
  destruct (Z.eq_dec key ord_m) as [Hk | Hk].
  - subst key.
    pose proof (handle_key_m_mounted_or_latched hex_files W h m w1) as HJ.
    destruct (exec h (handle_key ord_m hex_files) m w1) as [[[r m'] w'] tk].
    unfold manager_of, trace_of in *; cbn [fst snd] in *.
    assert (Hp : pressed ord_m ([Ev Getch ord_m] ++ tk)%list = true) by reflexivity.
    unfold latch_rules. rewrite Hp.
    split; [exact HJ |].
    split; [auto | split; [auto | discriminate]].
  - pose proof (handle_key_keeps_flags key hex_files (is_mounted m) (manual_unmount m)
                  Hk W h m w1 (conj eq_refl eq_refl)) as [Hm' Hl'].
    pose proof (no_mount_handle_key key hex_files Hk W h m w1) as Hn.
    apply no_mount_trace in Hn.
    destruct (exec h (handle_key key hex_files) m w1) as [[[r m'] w'] tk].
    unfold manager_of, trace_of in *; cbn [fst snd] in *.
    split; [unfold mounted_or_latched; rewrite Hm', Hl'; auto |].
    split; [rewrite Hm'; congruence |].
    split; [intros [_ H]; rewrite Hm'; congruence |].
    intros [Hl Hm] _. split; [split; congruence |].
    cbn. exact Hn.
Qed.

(** The cycle after the status check keeps the rules. *)
Lemma latch_rules_after_check :
  obeys latch_rules
    (hex_files <- get_hex_files;;
     adjust_selected hex_files;;
     draw_microbit_files;;
     draw_info_area;;
     key <- ask Getch;;
     handle_key key hex_files).
Proof.
  apply (obeys_bind _ latch_rules_trans);
    [apply latch_rules_calm; [apply readonly_get_hex_files | apply calm_get_hex_files] |].
  intros hex_files.
  apply (obeys_bind _ latch_rules_trans); [apply latch_rules_adjust_selected |].
  intros _.
  apply (obeys_bind _ latch_rules_trans);
    [apply latch_rules_calm;
     [apply readonly_draw_microbit_files | apply calm_draw_microbit_files] |].
  intros _.
  apply (obeys_bind _ latch_rules_trans);
    [apply latch_rules_calm; [apply readonly_draw_info_area | apply calm_draw_info_area] |].
  intros _. apply latch_rules_key.
Qed.

Lemma latch_link_main_loop_iteration : obeys latch_link main_loop_iteration.
Proof.
  unfold main_loop_iteration.
  apply (obeys_bind _ latch_link_trans);
    [apply latch_link_rules, latch_rules_calm;
     [apply readonly_draw_header | apply calm_draw_header] |].
  intros _.
  apply (obeys_bind _ latch_link_trans); [apply latch_link_check_microbit_status |].
  intros _. apply latch_link_rules, latch_rules_after_check.
Qed.

(** A cycle whose status check detects the board keeps the rules. *)
Lemma latch_rules_main_loop_iteration {W : Type} (h : Handler W) m w info :
  result_of (exec h detect_microbit m (world_of (exec h draw_header m w)))
  = Ok (true, info) ->
  latch_rules m (trace_of (exec h main_loop_iteration m w))
    (manager_of (exec h main_loop_iteration m w)).
Proof.
  intros Hd. unfold main_loop_iteration.
  apply (link_bind_at _ latch_rules_trans).
  { apply latch_rules_calm; [apply readonly_draw_header | apply calm_draw_header]. }
  intros _ _. rewrite readonly_draw_header.
  apply (link_bind_at _ latch_rules_trans).
  { exact (latch_rules_check_detected h m _ info Hd). }
  intros _ _. apply latch_rules_after_check.
Qed.

(** ** No automatic mount of a latched manager *)

Lemma no_mount_before_key_trans m t1 m1 t2 m2 :
  no_mount_before_key m t1 m1 -> no_mount_before_key m1 t2 m2 ->
  no_mount_before_key m (t1 ++ t2)%list m2.
Proof.
  unfold no_mount_before_key. intros H1 H2. rewrite before_key_app.
  destruct (key_read t1) eqn:Ek; [exact H1 |].
  rewrite (before_key_none t1 Ek) in H1.
  rewrite mount_attempted_app, H1, H2. reflexivity.
Qed.

Lemma no_mount_before_key_calm {A : Type} (c : M A) :
  asks_only calm c -> obeys no_mount_before_key c.
Proof.
  intros Hc W h m w. specialize (Hc W h m w).
  destruct (calm_trace _ Hc) as [Hk Hn].
  unfold no_mount_before_key. rewrite (before_key_none _ Hk). exact Hn.
Qed.

Lemma no_mount_before_key_after_check :
  obeys no_mount_before_key
    (hex_files <- get_hex_files;;
     adjust_selected hex_files;;
     draw_microbit_files;;
     draw_info_area;;
     key <- ask Getch;;
     handle_key key hex_files).
Proof.
  apply (obeys_bind _ no_mount_before_key_trans);
    [apply no_mount_before_key_calm, calm_get_hex_files |].
  intros hex_files.
  apply (obeys_bind _ no_mount_before_key_trans).
  { unfold adjust_selected. destruct hex_files as [| f fs]; intros W h m w; reflexivity. }
  intros _.
  apply (obeys_bind _ no_mount_before_key_trans);
    [apply no_mount_before_key_calm, calm_draw_microbit_files |].
  intros _.
  apply (obeys_bind _ no_mount_before_key_trans);
    [apply no_mount_before_key_calm, calm_draw_info_area |].
  intros _ W h m w. rewrite exec_bind, exec_ask. cbv beta iota.
  destruct (exec h _ m _) as [[[r m'] w'] tk]. reflexivity.
Qed.

(** A cycle that starts latched runs no command of [mount_microbit] before
    it reads the key, whatever the bus enumeration shows. *)
Lemma no_mount_before_key_latched {W : Type} (h : Handler W) m w :
  latched m ->
  mount_attempted (before_key (trace_of (exec h main_loop_iteration m w))) = false.
Proof.
  intros [Hl Hm]. unfold main_loop_iteration.
  apply (link_bind_at no_mount_before_key no_mount_before_key_trans).
  { apply no_mount_before_key_calm, calm_draw_header. }
  intros _ _. rewrite readonly_draw_header.
  apply (link_bind_at no_mount_before_key no_mount_before_key_trans).
  { unfold no_mount_before_key.
    rewrite (proj1 (check_microbit_status_latched h m _ Hl Hm)).
    rewrite exec_detect_microbit. reflexivity. }
  intros _ _. apply no_mount_before_key_after_check.
Qed.

(** ** A clear latch *)

Lemma clear_link_refl m : clear_link m [] m.
Proof. intros _ H. exact H. Qed.

Lemma clear_link_trans m t1 m1 t2 m2 :
  clear_link m t1 m1 -> clear_link m1 t2 m2 -> clear_link m (t1 ++ t2)%list m2.
Proof.
  intros H1 H2 Hp Hm. rewrite pressed_app in Hp.
  apply orb_false_iff in Hp. destruct Hp as [Hp1 Hp2]. auto.
Qed.

Lemma clear_link_preserves {A : Type} (c : M A) :
  preserves (fun m => manual_unmount m = false) c -> obeys clear_link c.
Proof. intros Hc W h m w _ Hm. apply Hc. exact Hm. Qed.

Lemma clear_check_microbit_status :
  preserves (fun m => manual_unmount m = false) check_microbit_status.
Proof.
  intros W h m w Hm. unfold check_microbit_status.
  rewrite exec_bind, exec_detect_microbit.
  destruct (detection_of _) as [[connected info] | e]; cbv beta iota; [| exact Hm].
  exec_steps.
  destruct (connected && negb (is_mounted m) && negb (manual_unmount m)).
  - rewrite exec_bind.
    pose proof (mount_microbit_post h m (snd (h (SubprocessRun "lsusb") w))) as Hp.
    destruct (exec h mount_microbit m _) as [[[r1 m1] w1] t1].
    unfold result_of, manager_of in *; cbn [fst snd] in *.
    destruct r1 as [[[|] msg] | e]; cbv beta iota.
    + destruct Hp as [d [_ ->]]. exec_steps. exact Hm.
    + subst m1. exec_steps. exact Hm.
    + subst m1. exact Hm.
  - destruct (negb connected && is_mounted m).
    + rewrite exec_bind.
      pose proof (unmount_microbit_post h m (snd (h (SubprocessRun "lsusb") w))) as Hp.
      destruct (exec h unmount_microbit m _) as [[[r1 m1] w1] t1].
      unfold result_of, manager_of in *; cbn [fst snd] in *.
      destruct r1 as [outcome | e]; cbv beta iota.
      * exec_steps. reflexivity.
      * subst m1. exact Hm.
    + destruct (negb connected); exec_steps; [reflexivity | exact Hm].
Qed.

Lemma clear_link_key hex_files :
  obeys clear_link (bind (ask Getch) (fun key => handle_key key hex_files)).
Proof.
  intros W h m w. rewrite exec_bind, exec_ask. cbv beta iota.
  generalize (fst (h Getch w)) as key. generalize (snd (h Getch w)) as w1.
  intros w1 key.
  pose proof (fun Hk => handle_key_keeps_flags key hex_files (is_mounted m)
                          (manual_unmount m) Hk W h m w1 (conj eq_refl eq_refl)) as Hf.
  destruct (exec h (handle_key key hex_files) m w1) as [[[r m'] w'] tk].
  unfold manager_of, trace_of in *; cbn [fst snd] in *.
  intros Hp Hm. cbn in Hp. apply orb_false_iff in Hp. destruct Hp as [Hk _].
  apply Z.eqb_neq in Hk. destruct (Hf Hk) as [_ Hl]. congruence.
Qed.

(** The cycle after the status check. *)
Lemma clear_link_after_check :
  obeys clear_link
    (hex_files <- get_hex_files;;
     adjust_selected hex_files;;
     draw_microbit_files;;
     draw_info_area;;
     key <- ask Getch;;
     handle_key key hex_files).
Proof.
  apply (obeys_bind _ clear_link_trans);
    [apply clear_link_preserves, preserves_readonly, readonly_get_hex_files |].
  intros hex_files.
  apply (obeys_bind _ clear_link_trans).
  { apply clear_link_preserves. unfold adjust_selected.
    destruct hex_files; apply preserves_modify; intros m H; exact H. }
  intros _.
  apply (obeys_bind _ clear_link_trans);
    [apply clear_link_preserves, preserves_readonly, readonly_draw_microbit_files |].
  intros _.
  apply (obeys_bind _ clear_link_trans);
    [apply clear_link_preserves, preserves_readonly, readonly_draw_info_area |].
  intros _. apply clear_link_key.
Qed.

Lemma clear_link_main_loop_iteration : obeys clear_link main_loop_iteration.
Proof.
  unfold main_loop_iteration.
  apply (obeys_bind _ clear_link_trans);
    [apply clear_link_preserves, preserves_readonly, readonly_draw_header |].
  intros _.
  apply (obeys_bind _ clear_link_trans);
    [apply clear_link_preserves, clear_check_microbit_status |].
  intros _. apply clear_link_after_check.
Qed.

(** A cycle that returns and whose status check did not detect the board
    has cleared the latch there. *)
Lemma main_loop_iteration_clears {W : Type} (h : Handler W) m w info continue :
  result_of (exec h detect_microbit m (world_of (exec h draw_header m w)))
  = Ok (false, info) ->
  result_of (exec h main_loop_iteration m w) = Ok continue ->
  pressed ord_m (trace_of (exec h main_loop_iteration m w)) = false ->
  manual_unmount (manager_of (exec h main_loop_iteration m w)) = false.
Proof.
  unfold main_loop_iteration. rewrite exec_bind.
  pose proof (readonly_draw_header W h m w) as Hro.
  destruct (exec h draw_header m w) as [[[r1 m1] w1] t1].
  unfold manager_of in Hro; cbn [fst snd] in Hro. subst m1.
  unfold world_of at 1; cbn [fst snd]. intros Hd.
  destruct r1 as [[] | e]; cbv beta iota; [| discriminate].
  rewrite exec_bind.
  pose proof (check_microbit_status_disconnected h m w1 info Hd) as Hc.
  destruct (exec h check_microbit_status m w1) as [[[r2 m2] w2] t2].
  unfold result_of, manager_of in Hc; cbn [fst snd] in Hc.
  destruct r2 as [[] | e]; cbv beta iota; [| discriminate].
  match goal with
  | |- context [exec h ?c m2 w2] =>
      pose proof (clear_link_after_check W h m2 w2) as Hrest;
      destruct (exec h c m2 w2) as [[[r3 m3] w3] t3]
  end.
  unfold result_of, manager_of, trace_of in *; cbn [fst snd] in *.
  intros _ Hp.
  rewrite !pressed_app in Hp. apply orb_false_iff in Hp. destruct Hp as [_ Hp].
  apply orb_false_iff in Hp. destruct Hp as [_ Hp].
  apply (Hrest Hp). exact (Hc eq_refl).
Qed.

(** ** The user's unmount *)

Lemma no_key_no_umount_probe_common_devices devices :
  asks_only (fun r => no_key r && no_umount r) (probe_common_devices devices).
Proof. induction devices as [| d rest IH]; simpl; prove_asks_only. Qed.

Lemma no_key_no_umount_mount_microbit :
  asks_only (fun r => no_key r && no_umount r) mount_microbit.
Proof.
  pose proof no_key_no_umount_probe_common_devices.
  unfold mount_microbit, get_microbit_block_device, is_microbit_mounted, record_mounted.
  prove_asks_only; apply H.
Qed.

Lemma no_key_unmount_microbit : asks_only no_key unmount_microbit.
Proof.
  unfold unmount_microbit, unmount_after_check, is_microbit_mounted, record_unmounted.
  prove_asks_only.
Qed.

Lemma no_key_check_microbit_status : asks_only no_key check_microbit_status.
Proof.
  assert (asks_only no_key mount_microbit).
  { apply (asks_only_weaken (fun r => no_key r && no_umount r));
      [| exact no_key_no_umount_mount_microbit].
    intros r H. apply andb_true_iff in H. tauto. }
  pose proof no_key_unmount_microbit.
  unfold check_microbit_status, detect_microbit. prove_asks_only.
Qed.

Lemma no_umount_copy_hex_file path : asks_only no_umount (copy_hex_file path).
Proof.
  unfold copy_hex_file, validate_hex_file, check_space, verify_copy, read_text,
    os_statvfs, os_path_getsize.
  prove_asks_only.
Qed.

Lemma no_umount_handle_key key hex_files :
  key <> ord_m -> asks_only no_umount (handle_key key hex_files).
Proof.
  intros Hkey. pose proof no_umount_copy_hex_file.
  unfold handle_key. rewrite (proj2 (Z.eqb_neq key ord_m) Hkey).
  prove_asks_only. apply H.
Qed.

(** The key handling runs the [umount] command only for the [m] key on a
    mounted manager; the manager is then left unmounted only by an unmount
    that succeeded, which sets the latch. *)
Lemma handle_key_umount {W : Type} (h : Handler W) key hex_files m w :
  umount_attempted (trace_of (exec h (handle_key key hex_files) m w)) = true ->
  is_mounted (manager_of (exec h (handle_key key hex_files) m w)) = false ->
  manual_unmount (manager_of (exec h (handle_key key hex_files) m w)) = true.
Proof.
  destruct (Z.eq_dec key ord_m) as [-> | Hk].
  2: { intros Hu. pose proof (no_umount_handle_key key hex_files Hk W h m w) as Hn.
       apply no_umount_trace in Hn. congruence. }
  unfold handle_key. simpl. exec_steps.
  destruct (is_mounted m) eqn:Em; cbv beta iota.
  - rewrite exec_bind.
    pose proof (unmount_microbit_post h m w) as Hp.
    destruct (exec h unmount_microbit m w) as [[[r1 m1] w1] t1].
    unfold result_of, manager_of, trace_of in *; cbn [fst snd] in *.
    destruct r1 as [[[|] msg] | e]; cbv beta iota.
    + exec_steps. reflexivity.
    + subst m1. exec_steps. cbn [fst snd]. simpl. intros _ H. congruence.
    + subst m1. cbn [fst snd]. intros _ H. congruence.
  - rewrite exec_bind.
    pose proof (no_key_no_umount_mount_microbit W h m w) as Hn.
    apply (asks_only_weaken_trace _ no_umount) in Hn.
    2: { intros r H. apply andb_true_iff in H. tauto. }
    apply no_umount_trace in Hn.
    destruct (exec h mount_microbit m w) as [[[r1 m1] w1] t1].
    unfold trace_of in *; cbn [fst snd] in *.
    destruct r1 as [[success msg] | e]; cbv beta iota.
    + destruct success; exec_steps; cbn [fst snd]; rewrite ?app_nil_r; simpl app;
        intros Hu; congruence.
    + cbn [fst snd]. simpl app. intros Hu; congruence.
Qed.

Lemma latched_by_key_quiet {A B : Type} (c : M A) (f : A -> M B) :
  asks_only no_key c -> (forall a, obeys latched_by_key (f a)) ->
  obeys latched_by_key (bind c f).
Proof.
  intros Hc Hf W h m w. rewrite exec_bind. specialize (Hc W h m w).
  apply no_key_trace in Hc.
  destruct (exec h c m w) as [[[r m1] w1] t1].
  unfold trace_of, manager_of in *; cbn [fst snd] in *.
  destruct r as [a | e].
  - specialize (Hf a W h m1 w1).
    destruct (exec h (f a) m1 w1) as [[[r2 m2] w2] t2].
    unfold trace_of, manager_of, latched_by_key in *; cbn [fst snd] in *.
    rewrite (after_key_app t1 t2 Hc). exact Hf.
  - unfold latched_by_key. cbn [fst snd]. rewrite (after_key_none t1 Hc). discriminate.
Qed.

Lemma latched_by_key_main_loop_iteration : obeys latched_by_key main_loop_iteration.
Proof.
  unfold main_loop_iteration.
  apply latched_by_key_quiet;
    [exact (asks_only_weaken calm no_key _ calm_no_key calm_draw_header) |].
  intros _.
  apply latched_by_key_quiet; [exact no_key_check_microbit_status |].
  intros _.
  apply latched_by_key_quiet;
    [exact (asks_only_weaken calm no_key _ calm_no_key calm_get_hex_files) |].
  intros hex_files.
  apply latched_by_key_quiet;
    [unfold adjust_selected; destruct hex_files; apply asks_only_modify |].
  intros _.
  apply latched_by_key_quiet;
    [exact (asks_only_weaken calm no_key _ calm_no_key calm_draw_microbit_files) |].
  intros _.
  apply latched_by_key_quiet;
    [exact (asks_only_weaken calm no_key _ calm_no_key calm_draw_info_area) |].
  intros _ W h m w. rewrite exec_bind, exec_ask. cbv beta iota.
  pose proof (handle_key_umount h (fst (h Getch w)) hex_files m (snd (h Getch w))) as Hk.
  destruct (exec h (handle_key _ hex_files) m _) as [[[r m'] w'] tk].
  exact Hk.
Qed.

(** ** A mounted manager is not latched *)

Lemma unlatched_check_microbit_status :
  preserves unlatched_if_mounted check_microbit_status.
Proof.
  intros W h m w Hm. unfold check_microbit_status.
  rewrite exec_bind, exec_detect_microbit.
  destruct (detection_of _) as [[connected info] | e]; cbv beta iota; [| exact Hm].
  exec_steps.
  destruct (connected && negb (is_mounted m) && negb (manual_unmount m)) eqn:Eauto.
  - apply andb_true_iff in Eauto. destruct Eauto as [_ Hl].
    apply negb_true_iff in Hl.
    rewrite exec_bind.
    pose proof (mount_microbit_post h m (snd (h (SubprocessRun "lsusb") w))) as Hp.
    destruct (exec h mount_microbit m _) as [[[r1 m1] w1] t1].
    unfold result_of, manager_of in *; cbn [fst snd] in *.
    destruct r1 as [[[|] msg] | e]; cbv beta iota.
    + destruct Hp as [d [_ ->]]. exec_steps. intros _. exact Hl.
    + subst m1. exec_steps. exact Hm.
    + subst m1. exact Hm.
  - destruct (negb connected && is_mounted m).
    + rewrite exec_bind.
      pose proof (unmount_microbit_post h m (snd (h (SubprocessRun "lsusb") w))) as Hp.
      destruct (exec h unmount_microbit m _) as [[[r1 m1] w1] t1].
      unfold result_of, manager_of in *; cbn [fst snd] in *.
      destruct r1 as [outcome | e]; cbv beta iota.
      * exec_steps. intros _. reflexivity.
      * subst m1. exact Hm.
    + destruct (negb connected); exec_steps; [intros _; reflexivity | exact Hm].
Qed.

Lemma unlatched_handle_key key hex_files :
  preserves unlatched_if_mounted (handle_key key hex_files).
Proof.
  intros W h m w Hm. destruct (Z.eq_dec key ord_m) as [-> | Hk].
  - unfold handle_key. simpl. exec_steps.
    destruct (is_mounted m) eqn:Em; cbv beta iota.
    + rewrite exec_bind.
      pose proof (unmount_microbit_post h m w) as Hp.
      destruct (exec h unmount_microbit m w) as [[[r1 m1] w1] t1].
      unfold result_of, manager_of in *; cbn [fst snd] in *.
      destruct r1 as [[[|] msg] | e]; cbv beta iota.
      * destruct Hp as [-> | [Hf _]]; [| congruence].
        exec_steps. intros H; discriminate H.
      * subst m1. exec_steps. exact Hm.
      * subst m1. exact Hm.
    + rewrite exec_bind.
      pose proof (mount_microbit_post h m w) as Hp.
      destruct (exec h mount_microbit m w) as [[[r1 m1] w1] t1].
      unfold result_of, manager_of in *; cbn [fst snd] in *.
      destruct r1 as [[[|] msg] | e]; cbv beta iota.
      * exec_steps. intros _. reflexivity.
      * subst m1. exec_steps. exact Hm.
      * subst m1. exact Hm.
  - destruct (handle_key_keeps_flags key hex_files (is_mounted m) (manual_unmount m)
                Hk W h m w (conj eq_refl eq_refl)) as [Hm' Hl'].
    unfold unlatched_if_mounted. rewrite Hm', Hl'. exact Hm.
Qed.

Lemma unlatched_main_loop_iteration : preserves unlatched_if_mounted main_loop_iteration.
Proof.
  unfold main_loop_iteration.
  apply preserves_bind; [apply preserves_readonly, readonly_draw_header |].
  intros _.
  apply preserves_bind; [apply unlatched_check_microbit_status |].
  intros _.
  apply preserves_bind; [apply preserves_readonly, readonly_get_hex_files |].
  intros hex_files.
  apply preserves_bind.
  { unfold adjust_selected.
    destruct hex_files; apply preserves_modify; intros m H; exact H. }
  intros _.
  apply preserves_bind; [apply preserves_readonly, readonly_draw_microbit_files |].
  intros _.
  apply preserves_bind; [apply preserves_readonly, readonly_draw_info_area |].
  intros _.
  apply preserves_bind; [apply preserves_readonly, readonly_ask |].
  intros key. apply unlatched_handle_key.
Qed.

Lemma unlatched_main_loop fuel : preserves unlatched_if_mounted (main_loop fuel).
Proof.
  induction fuel as [| n IH]; cbn [main_loop].
  - apply preserves_readonly, readonly_ret.
  - apply preserves_bind; [apply unlatched_main_loop_iteration |].
    intros [|]; [exact IH | apply preserves_readonly, readonly_ret].
Qed.

(** Every run of [mount_microbit] begins with [lsblk -J]. *)
Lemma mount_microbit_attempted {W : Type} (h : Handler W) m w :
  mount_attempted (trace_of (exec h mount_microbit m w)) = true.
Proof.
  unfold mount_microbit, get_microbit_block_device.
  rewrite exec_bind, exec_bind, exec_run_command.
  destruct (output_of _) as [lsblk_output | e]; cbv beta iota; [| reflexivity].
  destruct (exec h _ m _) as [[[r1 m1] w1] t1].
  destruct r1 as [device | e]; [| reflexivity].
  destruct (exec h _ m1 w1) as [[[r2 m2] w2] t2]. reflexivity.
Qed.

(** C2. The manually-unmounted latch in the poll cycle [main_loop_iteration]
    and over any number of cycles of [main_loop].  The detection of a cycle
    is what [detect_microbit] returns to its status check, which runs after
    [draw_header].
    - After the user's unmount the latch is set: when the [umount] command
      is run after the key was read and the cycle leaves the manager
      unmounted, the latch is set; and in a cycle that detects the board a
      manager that is mounted or latched stays so, and goes from mounted to
      unmounted only if the [m] key was read ([latch_rules]).
    - No automatic mount while the latch is set: a cycle that starts latched
      runs no command of [mount_microbit] before it reads the key, and when
      it detects the board and the key is not [m] it ends latched, having
      run no such command at all.  Every run of [mount_microbit] would show,
      [lsblk -J] being its first command.
    - The latch is cleared on disconnection: a cycle that returns and does
      not detect the board ends with the latch clear, unless the [m] key was
      read in it.
    - The latch is cleared by the user's mount: a latched manager becomes
      mounted, in a cycle that detects the board, only if the [m] key was
      read, and a mounted manager is never latched, provided it was so at
      the start, as it is after [__init__].
    - Over the loop: the rules hold over any number of cycles in which every
      bus enumeration shows the board, and a clear latch is set only by the
      [m] key. *)
Theorem manual_unmount_latch :
  forall (W : Type) (h : Handler W) (m : Manager) (w : W) (fuel : nat),
    let cycle := exec h main_loop_iteration m w in
    let detection :=
      result_of (exec h detect_microbit m (world_of (exec h draw_header m w))) in
    let loop := exec h (main_loop fuel) m w in
    (umount_attempted (after_key (trace_of cycle)) = true ->
     is_mounted (manager_of cycle) = false ->
     manual_unmount (manager_of cycle) = true)
    /\ (forall info, detection = Ok (true, info) ->
          latch_rules m (trace_of cycle) (manager_of cycle))
    /\ (latched m -> mount_attempted (before_key (trace_of cycle)) = false)
    /\ mount_attempted (trace_of (exec h mount_microbit m w)) = true
    /\ (forall info continue,
          detection = Ok (false, info) ->
          result_of cycle = Ok continue ->
          pressed ord_m (trace_of cycle) = false ->
          manual_unmount (manager_of cycle) = false)
    /\ (unlatched_if_mounted m ->
        unlatched_if_mounted (manager_of cycle)
        /\ unlatched_if_mounted (manager_of loop))
    /\ (board_detected (trace_of loop) = true ->
        latch_rules m (trace_of loop) (manager_of loop))
    /\ (pressed ord_m (trace_of loop) = false ->
        manual_unmount m = false -> manual_unmount (manager_of loop) = false).
Proof.
  intros W h m w fuel cycle detection loop. subst cycle detection loop.
  split; [apply latched_by_key_main_loop_iteration |].
  split; [intros info; apply latch_rules_main_loop_iteration |].
  split; [apply no_mount_before_key_latched |].
  split; [apply mount_microbit_attempted |].
  split; [intros info continue; apply main_loop_iteration_clears |].
  split.
  { intros Hm. split;
      [apply unlatched_main_loop_iteration | apply unlatched_main_loop]; exact Hm. }
  split.
  - apply (obeys_main_loop _ latch_link_refl latch_link_trans
             latch_link_main_loop_iteration).
  - apply (obeys_main_loop _ clear_link_refl clear_link_trans
             clear_link_main_loop_iteration).
Qed.

Lemma manual_unmount_latch_witness :
  manual_unmount
    (manager_of (exec bench main_loop_iteration manager_mounted bench_m_key)) = true
  /\ (latched (manager_of (exec bench main_loop_iteration manager_latched bench_idle))
      /\ mount_attempted
           (trace_of (exec bench main_loop_iteration manager_latched bench_idle))
         = false)
  /\ mount_attempted
       (before_key (trace_of (exec bench main_loop_iteration manager_latched bench_idle)))
     = false
  /\ manual_unmount
       (manager_of (exec bench main_loop_iteration manager_latched bench_unplugged))
     = false
  /\ (latched (manager_of (exec bench (main_loop 2) manager_latched bench_idle))
      /\ mount_attempted (trace_of (exec bench (main_loop 2) manager_latched bench_idle))
         = false).
Proof.
  split; [| split; [| split; [| split]]].
  - apply (proj1 (manual_unmount_latch Bench bench manager_mounted bench_m_key 1));
      vm_compute; reflexivity.
  - pose proof (proj1 (proj2 (manual_unmount_latch Bench bench manager_latched
                                bench_idle 1))
                  (Some "Bus 001 Device 004") eq_refl) as [_ [_ [_ H]]].
    apply H; [split; reflexivity | vm_compute; reflexivity].
  - apply (proj1 (proj2 (proj2 (manual_unmount_latch Bench bench manager_latched
                                  bench_idle 1)))).
    split; reflexivity.
  - apply (proj1 (proj2 (proj2 (proj2 (proj2
             (manual_unmount_latch Bench bench manager_latched bench_unplugged 1)))))
             None true);
      vm_compute; reflexivity.
  - pose proof (proj1 (proj2 (proj2 (proj2 (proj2 (proj2 (proj2
                  (manual_unmount_latch Bench bench manager_latched bench_idle 2))))))))
      as H.
    destruct H as [_ [_ [_ H]]]; [vm_compute; reflexivity |].
    apply H; [split; reflexivity | vm_compute; reflexivity].
Defined.

(** * Validation and transfer *)

Lemma exec_validate_hex_file {W : Type} (h : Handler W) path m w :
  exec h (validate_hex_file path) m w =
  (Ok (validation_of (fst (h (ReadText path) w))), m, snd (h (ReadText path) w),
   [Ev (ReadText path) (fst (h (ReadText path) w))]).
Proof.
  unfold validate_hex_file, read_text, validation_of. exec_steps.
  destruct (fst (h (ReadText path) w)) as [e | text]; cbv beta iota.
  - exec_steps. reflexivity.
  - destruct (readlines 100 text) as [| line lines].
    + exec_steps. reflexivity.
    + destruct (hex_line_count (line :: lines) =? 0); exec_steps; reflexivity.
Qed.

Lemma after_command_app command (t1 t2 : Trace) :
  after_command command (t1 ++ t2)%list =
  match after_command command t1 with
  | Some (a, rest) => Some (a, (rest ++ t2)%list)
  | None => after_command command t2
  end.
Proof.
  induction t1 as [| [r a] t1 IH]; simpl; [reflexivity |].
  destruct r; try exact IH.
  simpl. destruct (String.eqb command0 command); [reflexivity | exact IH].
Qed.

Lemma shell_free_app (t1 t2 : Trace) command :
  shell_free t1 -> after_command command (t1 ++ t2)%list = after_command command t2.
Proof. intros H. rewrite after_command_app, H. reflexivity. Qed.

(** The space check asks no shell command, never raises and only reads. *)
Lemma check_space_quiet {W : Type} (h : Handler W) path m w :
  shell_free (trace_of (exec h (check_space path) m w))
  /\ manager_of (exec h (check_space path) m w) = m
  /\ exists verdict, result_of (exec h (check_space path) m w) = Ok verdict.
Proof.
  unfold check_space, os_statvfs, os_path_getsize. exec_steps.
  destruct (fst (h (StatVfsOf mount_point) w)) as [e | statvfs]; cbv beta iota.
  - exec_steps. (split; [intros c; reflexivity | split; [reflexivity | eexists; reflexivity]]).
  - exec_steps.
    destruct (fst (h (GetSize path) _)) as [e | file_size]; cbv beta iota.
    + exec_steps. (split; [intros c; reflexivity | split; [reflexivity | eexists; reflexivity]]).
    + destruct (f_frsize statvfs * f_bavail statvfs <? file_size);
        exec_steps; (split; [intros c; reflexivity | split; [reflexivity | eexists; reflexivity]]).
Qed.

(** What [verify_copy] asks and returns, by the answers it gets. *)
Lemma verify_copy_cases {W : Type} (h : Handler W) path filename dest m w :
  (trace_of (exec h (verify_copy path filename dest) m w) = [Ev (PathExists dest) false]
   /\ result_of (exec h (verify_copy path filename dest) m w)
      = Ok (false, "Copy appeared successful but file not found on microbit"))
  \/ (exists e,
        trace_of (exec h (verify_copy path filename dest) m w)
        = [Ev (PathExists dest) true; Ev (GetSize dest) (inl e)]
        /\ result_of (exec h (verify_copy path filename dest) m w)
           = Ok (true, "Copied " ++ filename ++ " (verification failed: "
                       ++ exc_msg e ++ ")"))
  \/ (exists copied e,
        trace_of (exec h (verify_copy path filename dest) m w)
        = [Ev (PathExists dest) true; Ev (GetSize dest) (inr copied);
           Ev (GetSize path) (inl e)]
        /\ result_of (exec h (verify_copy path filename dest) m w)
           = Ok (true, "Copied " ++ filename ++ " (verification failed: "
                       ++ exc_msg e ++ ")"))
  \/ (exists copied original,
        trace_of (exec h (verify_copy path filename dest) m w)
        = [Ev (PathExists dest) true; Ev (GetSize dest) (inr copied);
           Ev (GetSize path) (inr original)]
        /\ result_of (exec h (verify_copy path filename dest) m w)
           = if copied =? original
             then Ok (true, "Successfully copied " ++ filename ++ " ("
                            ++ PyStr.of_Z_grouped copied ++ " bytes)")
             else Ok (false, "Copy incomplete: " ++ PyStr.of_Z copied ++ "/"
                             ++ PyStr.of_Z original ++ " bytes")).
Proof.
  unfold verify_copy, os_path_getsize. exec_steps.
  destruct (fst (h (PathExists dest) w)); cbv beta iota.
  2: { left. exec_steps. split; reflexivity. }
  right. exec_steps.
  destruct (fst (h (GetSize dest) _)) as [e | copied]; cbv beta iota.
  { left. exists e. exec_steps. split; reflexivity. }
  right. exec_steps.
  destruct (fst (h (GetSize path) _)) as [e | original]; cbv beta iota.
  { left. exists copied, e. exec_steps. split; reflexivity. }
  right. exists copied, original.
  destruct (copied =? original); simpl negb; cbv iota; exec_steps; split; reflexivity.
Qed.

(** ** Calls that run no shell command *)

Lemma quiet_ret {A : Type} (a : A) : quiet (ret a).
Proof. intros W h m w; split; [intros c |]; reflexivity. Qed.

Lemma quiet_raise {A : Type} (e : Exc) : quiet (@raise A e).
Proof. intros W h m w; split; [intros c |]; reflexivity. Qed.

Lemma quiet_gets {A : Type} (f : Manager -> A) : quiet (gets f).
Proof. intros W h m w; split; [intros c |]; reflexivity. Qed.

Lemma quiet_ask (r : Request) : is_subprocess r = false -> quiet (ask r).
Proof.
  intros Hr W h m w. rewrite exec_ask. split; [intros c | reflexivity].
  unfold trace_of; simpl. destruct r; try reflexivity; discriminate.
Qed.

Lemma quiet_bind {A B : Type} (c : M A) (f : A -> M B) :
  quiet c -> (forall a, quiet (f a)) -> quiet (bind c f).
Proof.
  intros Hc Hf W h m w. rewrite exec_bind.
  destruct (Hc W h m w) as [Ht Hm].
  destruct (exec h c m w) as [[[r m1] w1] t1]; unfold manager_of, trace_of in *;
    simpl in *. subst m1.
  destruct r as [a | e]; [| split; [exact Ht | reflexivity]].
  destruct (Hf a W h m w1) as [Ht2 Hm2].
  destruct (exec h (f a) m w1) as [[[r2 m2] w2] t2]; simpl in *.
  split; [| exact Hm2]. intros c0. rewrite shell_free_app; auto.
Qed.

Lemma quiet_try_except {A : Type} (c : M A) (handler : Exc -> M A) :
  quiet c -> (forall e, quiet (handler e)) -> quiet (try_except c handler).
Proof.
  intros Hc Hf W h m w. rewrite exec_try_except.
  destruct (Hc W h m w) as [Ht Hm].
  destruct (exec h c m w) as [[[r m1] w1] t1]; unfold manager_of, trace_of in *;
    simpl in *. subst m1.
  destruct r as [a | e]; [split; [exact Ht | reflexivity] |].
  destruct (Hf e W h m w1) as [Ht2 Hm2].
  destruct (exec h (handler e) m w1) as [[[r2 m2] w2] t2]; simpl in *.
  split; [| exact Hm2]. intros c0. rewrite shell_free_app; auto.
Qed.

Lemma quiet_ask_or_raise {A : Type} (r : Request) (conv : Response r -> Exc + A) :
  is_subprocess r = false -> quiet (ask_or_raise r conv).
Proof.
  intros Hr. unfold ask_or_raise. apply quiet_bind; [apply quiet_ask; exact Hr |].
  intros x. destruct (conv x); [apply quiet_raise | apply quiet_ret].
Qed.

Lemma quiet_os_path_exists p : quiet (os_path_exists p).
Proof. apply (quiet_ask (PathExists p)); reflexivity. Qed.

Lemma quiet_os_path_isfile p : quiet (os_path_isfile p).
Proof. apply (quiet_ask (PathIsFile p)); reflexivity. Qed.

Lemma quiet_read_text p : quiet (read_text p).
Proof. apply quiet_ask_or_raise; reflexivity. Qed.

Lemma quiet_os_path_getsize p : quiet (os_path_getsize p).
Proof. apply quiet_ask_or_raise; reflexivity. Qed.

Lemma quiet_os_statvfs p : quiet (os_statvfs p).
Proof. apply quiet_ask_or_raise; reflexivity. Qed.

Create HintDb quiet.
#[export] Hint Resolve quiet_ret quiet_raise quiet_gets quiet_os_path_exists
  quiet_os_path_isfile quiet_read_text quiet_os_path_getsize quiet_os_statvfs : quiet.

Ltac quiet_step :=
  match goal with
  | |- quiet (bind _ _) => apply quiet_bind; [| intros ?]
  | |- quiet (try_except _ _) => apply quiet_try_except; [| intros ?]
  | |- quiet (match ?x with _ => _ end) => destruct x
  | |- quiet (if ?x then _ else _) => destruct x
  | |- quiet _ => solve [auto with quiet]
  end.

Ltac prove_quiet := repeat quiet_step.

Lemma quiet_validate_hex_file p : quiet (validate_hex_file p).
Proof. unfold validate_hex_file; prove_quiet. Qed.

Lemma quiet_check_space p : quiet (check_space p).
Proof. unfold check_space; prove_quiet. Qed.

#[export] Hint Resolve quiet_validate_hex_file quiet_check_space : quiet.

(** ** The copy command inside [copy_hex_file] *)

Lemma after_copy_ret path r : after_copy_spec path (ret r).
Proof. intros W h m w. exact I. Qed.

Lemma after_copy_bind {A : Type} path (c : M A) (f : A -> M (bool * string)) :
  quiet c -> (forall a, after_copy_spec path (f a)) ->
  after_copy_spec path (bind c f).
Proof.
  intros Hc Hf W h m w. rewrite exec_bind.
  destruct (Hc W h m w) as [Ht Hm].
  destruct (exec h c m w) as [[[r m1] w1] t1]; unfold manager_of, trace_of in *;
    simpl in *. subst m1.
  destruct r as [a | e]; [| rewrite Ht; exact I].
  specialize (Hf a W h m w1).
  destruct (exec h (f a) m w1) as [[[r2 m2] w2] t2]; unfold trace_of, result_of in *;
    simpl in *.
  rewrite shell_free_app by exact Ht. exact Hf.
Qed.

Lemma after_copy_command path :
  after_copy_spec path
    (bind (run_command_with_error (copy_command path (dest_path_of path)))
       (fun x => let (success, result) := x in
                 if success
                 then verify_copy path (PyStr.basename path) (dest_path_of path)
                 else ret (classify_copy_error result))).
Proof.
  intros W h m w. exec_steps.
  destruct (fst (h (SubprocessRun (copy_command path (dest_path_of path))) w))
    as [out | rc err | e]; reduce_run.
  - set (w1 := snd (h (SubprocessRun (copy_command path (dest_path_of path))) w)).
    destruct (exec h (verify_copy path (PyStr.basename path) (dest_path_of path)) m w1)
      as [[[r2 m2] w2] t2] eqn:E.
    unfold trace_of, result_of; simpl. rewrite String.eqb_refl.
    exists w1. rewrite E. split; reflexivity.
  - exec_steps. unfold trace_of, result_of; simpl. rewrite String.eqb_refl.
    split; reflexivity.
  - unfold trace_of, result_of; simpl. rewrite String.eqb_refl.
    split; reflexivity.
Qed.

Lemma after_copy_hex_file path : after_copy_spec path (copy_hex_file path).
Proof.
  unfold copy_hex_file.
  repeat first
    [ apply after_copy_ret
    | apply after_copy_command
    | apply after_copy_bind; [solve [prove_quiet] | intros ?]
    | match goal with
      | |- after_copy_spec _ (match ?x with _ => _ end) => destruct x
      | |- after_copy_spec _ (if ?x then _ else _) => destruct x
      end ].
Qed.

Lemma list3_inj {A : Type} (a b c a' b' c' : A) :
  [a; b; c] = [a'; b'; c'] -> a = a' /\ b = b' /\ c = c'.
Proof. intros H; injection H; auto. Qed.

Lemma list2_inj {A : Type} (a b a' b' : A) :
  [a; b] = [a'; b'] -> a = a' /\ b = b'.
Proof. intros H; injection H; auto. Qed.

Ltac length_clash H :=
  apply (f_equal (@List.length Event)) in H; discriminate H.

(** C4, as the code has it.  In every run of [copy_hex_file] in which the copy
    command reported success: if the destination exists and its size and the
    source's size are read as two different numbers, the method returns
    failure with the reason "Copy incomplete: copied/original bytes"; and if
    the method returns success then the destination exists and either both
    sizes were read and are equal, or reading one of the two sizes raised, in
    which case the success carries a "verification failed" note. *)
Theorem copy_size_verification :
  forall (W : Type) (h : Handler W) (w : W) (m : Manager)
         (path out : string) (post : Trace),
    after_command (copy_command path (dest_path_of path))
      (trace_of (exec h (copy_hex_file path) m w)) = Some (Completed out, post) ->
    (forall copied original : Z,
        post = [Ev (PathExists (dest_path_of path)) true;
                Ev (GetSize (dest_path_of path)) (inr copied);
                Ev (GetSize path) (inr original)] ->
        copied <> original ->
        result_of (exec h (copy_hex_file path) m w)
        = Ok (false, "Copy incomplete: " ++ PyStr.of_Z copied ++ "/"
                     ++ PyStr.of_Z original ++ " bytes"))
    /\ (forall msg : string,
          result_of (exec h (copy_hex_file path) m w) = Ok (true, msg) ->
          (exists n : Z,
              post = [Ev (PathExists (dest_path_of path)) true;
                      Ev (GetSize (dest_path_of path)) (inr n);
                      Ev (GetSize path) (inr n)])
          \/ (exists e : Exc,
                post = [Ev (PathExists (dest_path_of path)) true;
                        Ev (GetSize (dest_path_of path)) (inl e)]
                /\ msg = "Copied " ++ PyStr.basename path
                          ++ " (verification failed: " ++ exc_msg e ++ ")")
          \/ (exists (n : Z) (e : Exc),
                post = [Ev (PathExists (dest_path_of path)) true;
                        Ev (GetSize (dest_path_of path)) (inr n);
                        Ev (GetSize path) (inl e)]
                /\ msg = "Copied " ++ PyStr.basename path
                          ++ " (verification failed: " ++ exc_msg e ++ ")")).
Proof.
  intros W h w m path out post Hafter.
  pose proof (after_copy_hex_file path W h m w) as Hspec.
  rewrite Hafter in Hspec. destruct Hspec as [w' [Hpost Hres]].
  rewrite Hres.
  destruct (verify_copy_cases h path (PyStr.basename path) (dest_path_of path) m w')
    as [[Ht Hr] | [[e [Ht Hr]] | [[c [e [Ht Hr]]] | [c [o [Ht Hr]]]]]];
    rewrite Ht in Hpost; rewrite Hr; subst post.
  - split; [intros copied original Heq; length_clash Heq
           | intros msg Hm; discriminate Hm].
  - split; [intros copied original Heq; length_clash Heq |].
    intros msg Hm. injection Hm as <-. right; left. exists e; split; reflexivity.
  - split.
    + intros copied original Heq. apply list3_inj in Heq. destruct Heq as [_ [_ H3]].
      apply Ev_getsize in H3. discriminate H3.
    + intros msg Hm. injection Hm as <-. right; right.
      exists c, e; split; reflexivity.
  - split.
    + intros copied original Heq Hne. apply list3_inj in Heq.
      destruct Heq as [_ [H2 H3]].
      apply Ev_getsize in H2. apply Ev_getsize in H3.
      injection H2 as ->. injection H3 as ->.
      apply Z.eqb_neq in Hne. rewrite Hne. reflexivity.
    + intros msg Hm. left.
      destruct (Z.eqb_spec c o) as [-> | Hne]; [| discriminate Hm].
      exists o; reflexivity.
Qed.

Lemma copy_size_verification_witness :
  result_of (exec bench (copy_hex_file blink_hex) manager_mounted bench_truncated)
  = Ok (false, "Copy incomplete: 7/15 bytes").
Proof.
  refine (proj1 (copy_size_verification Bench bench bench_truncated manager_mounted
                   blink_hex ""
                   [Ev (PathExists (dest_path_of blink_hex)) true;
                    Ev (GetSize (dest_path_of blink_hex)) (inr 7);
                    Ev (GetSize blink_hex) (inr 15)] _) 7 15 eq_refl _).
  - vm_compute. reflexivity.
  - discriminate.
Defined.

(** C4 as stated fails in its last part: the copy command reports success,
    the destination exists, the first reading of its size raises, and
    [copy_hex_file] returns success although the destination holds 7 bytes,
    as the next reading shows, and the source 15. *)
Lemma copy_size_verification_counterexample :
  after_command (copy_command blink_hex (dest_path_of blink_hex))
    (trace_of (exec bench (copy_hex_file blink_hex) manager_mounted bench_partial_copy))
  = Some (Completed "",
          [Ev (PathExists (dest_path_of blink_hex)) true;
           Ev (GetSize (dest_path_of blink_hex)) (inl (io_error (dest_path_of blink_hex)))])
  /\ result_of (exec bench (copy_hex_file blink_hex) manager_mounted bench_partial_copy)
     = Ok (true, "Copied blink.hex (verification failed: "
                 ++ "[Errno 5] Input/output error: '/mnt/microbit/blink.hex')")
  /\ fst (bench (GetSize (dest_path_of blink_hex))
            (world_of (exec bench (copy_hex_file blink_hex) manager_mounted
                         bench_partial_copy))) = inr 7
  /\ fst (bench (GetSize blink_hex)
            (world_of (exec bench (copy_hex_file blink_hex) manager_mounted
                         bench_partial_copy))) = inr 15.
Proof. repeat split; vm_compute; reflexivity. Qed.

(** * Validation of a firmware image *)

Lemma take_hint_prefix hint total lines :
  exists rest, lines = (take_hint hint total lines ++ rest)%list.
Proof.
  revert total; induction lines as [| line lines IH]; intros total; simpl.
  - exists []; reflexivity.
  - destruct (PyStr.len line >? hint - total).
    + exists lines; reflexivity.
    + destruct (IH (total + PyStr.len line)) as [rest Hr].
      exists rest; simpl; rewrite <- Hr; reflexivity.
Qed.

Lemma take_hint_nonempty hint total lines :
  lines <> [] -> take_hint hint total lines <> [].
Proof.
  destruct lines as [| line lines]; [congruence |]. intros _; simpl.
  destruct (PyStr.len line >? hint - total); discriminate.
Qed.

Lemma lines_keepends_nonempty text : text <> "" -> lines_keepends text <> [].
Proof.
  destruct text as [| c t]; [congruence |]. intros _; simpl.
  destruct (Ascii.eqb c newline); [discriminate |].
  destruct (lines_keepends t); discriminate.
Qed.

Lemma filter_firstn_prefix (p : string -> bool) n (l rest : list string) :
  existsb p (firstn n (l ++ rest)) = false -> filter p (firstn n l) = [].
Proof.
  rewrite firstn_app, existsb_app. intros H.
  apply orb_false_iff in H. destruct H as [H _].
  induction (firstn n l) as [| x xs IH]; simpl in *; [reflexivity |].
  apply orb_false_iff in H. destruct H as [Hx Hxs].
  rewrite Hx. exact (IH Hxs).
Qed.

(** The first half of the validation rule holds: a readable, non-empty file
    with no confirming line among its first ten lines is refused as not
    being in Intel HEX format. *)
Lemma validate_hex_file_rejects {W : Type} (h : Handler W) path m w text :
  fst (h (ReadText path) w) = inr text ->
  text <> "" ->
  existsb is_hex_line (firstn 10 (lines_keepends text)) = false ->
  result_of (exec h (validate_hex_file path) m w)
  = Ok (false, "File does not appear to be in Intel HEX format").
Proof.
  intros Hread Hne Hnone. rewrite exec_validate_hex_file, Hread.
  unfold result_of, validation_of; simpl fst. unfold readlines.
  destruct (take_hint_prefix 100 0 (lines_keepends text)) as [rest Hrest].
  pose proof (take_hint_nonempty 100 0 _ (lines_keepends_nonempty text Hne)) as Hnil.
  rewrite Hrest in Hnone.
  destruct (take_hint 100 0 (lines_keepends text)) as [| line lines] eqn:E;
    [congruence |].
  unfold hex_line_count.
  rewrite (filter_firstn_prefix is_hex_line 10 (line :: lines) rest Hnone).
  reflexivity.
Qed.

(** C6 fails on the code in its second half.  The file below has a
    confirming line as its second line, among its first ten lines, yet
    [validate_hex_file] refuses it: [readlines(100)] stops after the first
    line, which is longer than 100 characters, so the loop over the first
    ten lines sees that line only. *)
Theorem validate_hex_file_misses_confirming_line :
  existsb is_hex_line (firstn 10 (lines_keepends commented_hex)) = true
  /\ List.length (readlines 100 commented_hex) = 1%nat
  /\ exec bench (validate_hex_file blink_hex) manager0 bench_commented
     = (Ok (false, "File does not appear to be in Intel HEX format"),
        manager0, bench_commented,
        [Ev (ReadText blink_hex) (inr commented_hex)]).
Proof. repeat split; vm_compute; reflexivity. Qed.

(** * Sorting *)

Module PyStrOrder.

Lemma ltb_asym (a b : string) : PyStr.ltb a b = true -> PyStr.ltb b a = false.
Proof.
  revert b; induction a as [| x a IH]; intros [| y b]; simpl; try congruence.
  destruct (Nat.ltb_spec (nat_of_ascii x) (nat_of_ascii y));
    destruct (Nat.ltb_spec (nat_of_ascii y) (nat_of_ascii x));
    try congruence; try lia.
  apply IH.
Qed.

(** "Not below" is transitive. *)
Lemma geb_trans (a b c : string) :
  PyStr.ltb b a = false -> PyStr.ltb c b = false -> PyStr.ltb c a = false.
Proof.
  revert b c; induction a as [| x a IH]; intros [| y b] [| z c]; simpl;
    try congruence.
  destruct (Nat.ltb_spec (nat_of_ascii y) (nat_of_ascii x));
    destruct (Nat.ltb_spec (nat_of_ascii x) (nat_of_ascii y));
    destruct (Nat.ltb_spec (nat_of_ascii z) (nat_of_ascii y));
    destruct (Nat.ltb_spec (nat_of_ascii y) (nat_of_ascii z));
    destruct (Nat.ltb_spec (nat_of_ascii z) (nat_of_ascii x));
    destruct (Nat.ltb_spec (nat_of_ascii x) (nat_of_ascii z));
    try congruence; try lia.
  apply IH.
Qed.

End PyStrOrder.

Section SortedFacts.

Context {A K : Type} (key : A -> K) (lt : K -> K -> bool).
Hypothesis lt_asym : forall a b, lt a b = true -> lt b a = false.
Hypothesis ge_trans : forall a b c, lt b a = false -> lt c b = false -> lt c a = false.

Lemma insert_sorted_perm x l : Permutation (insert_sorted key lt x l) (x :: l).
Proof.
  induction l as [| y r IH]; simpl; [apply Permutation_refl |].
  destruct (lt (key y) (key x)); [| apply Permutation_refl].
  apply perm_trans with (y :: x :: r); [apply perm_skip; exact IH | apply perm_swap].
Qed.

Lemma sort_stable_perm l : Permutation (sort_stable key lt l) l.
Proof.
  induction l as [| x l IH]; simpl; [apply perm_nil |].
  apply perm_trans with (x :: sort_stable key lt l);
    [apply insert_sorted_perm | apply perm_skip; exact IH].
Qed.

Lemma insert_sorted_sorted x l :
  StronglySorted (ascending key lt) l ->
  StronglySorted (ascending key lt) (insert_sorted key lt x l).
Proof.
  induction 1 as [| y r Hr IH Hy]; simpl.
  - constructor; constructor.
  - destruct (lt (key y) (key x)) eqn:E.
    + constructor; [exact IH |].
      apply Forall_forall. intros z Hz.
      apply (Permutation_in _ (insert_sorted_perm x r)) in Hz.
      destruct Hz as [<- | Hz].
      * unfold ascending. apply lt_asym; exact E.
      * rewrite Forall_forall in Hy; apply Hy; exact Hz.
    + constructor; [constructor; assumption |].
      constructor; [exact E |].
      apply Forall_forall. intros z Hz.
      rewrite Forall_forall in Hy. specialize (Hy z Hz).
      unfold ascending in *. exact (ge_trans _ _ _ E Hy).
Qed.

Lemma sort_stable_sorted l : StronglySorted (ascending key lt) (sort_stable key lt l).
Proof.
  induction l as [| x l IH]; simpl; [constructor | apply insert_sorted_sorted; exact IH].
Qed.

Lemma StronglySorted_snoc (R : A -> A -> Prop) l x :
  StronglySorted R l -> Forall (fun y => R y x) l -> StronglySorted R (l ++ [x]).
Proof.
  induction 1 as [| y r Hr IH Hy]; intros Hx; simpl.
  - constructor; constructor.
  - inversion Hx; subst. constructor; [apply IH; assumption |].
    apply Forall_app; split; [exact Hy | constructor; [assumption | constructor]].
Qed.

Lemma StronglySorted_rev l :
  StronglySorted (ascending key lt) l -> StronglySorted (descending key lt) (rev l).
Proof.
  induction 1 as [| y r Hr IH Hy]; simpl; [constructor |].
  apply StronglySorted_snoc; [exact IH |].
  apply Forall_rev. exact Hy.
Qed.

(** [sorted(l, key=key)]: ascending, with the same items. *)
Lemma sorted_ascending l :
  StronglySorted (ascending key lt) (sorted key lt false l)
  /\ Permutation (sorted key lt false l) l.
Proof. split; [apply sort_stable_sorted | apply sort_stable_perm]. Qed.

(** [sorted(l, key=key, reverse=True)]: descending, with the same items. *)
Lemma sorted_descending l :
  StronglySorted (descending key lt) (sorted key lt true l)
  /\ Permutation (sorted key lt true l) l.
Proof.
  split; simpl.
  - apply StronglySorted_rev, sort_stable_sorted.
  - apply perm_trans with (sort_stable key lt (rev l));
      [apply Permutation_sym, Permutation_rev |].
    apply perm_trans with (rev l);
      [apply sort_stable_perm | apply Permutation_sym, Permutation_rev].
Qed.

End SortedFacts.

(** * Success without verification *)

(** C10. In every run of [copy_hex_file] in which the copy command reported
    success and the destination exists, if reading the destination's size
    raises, or reading the source's size after it raises, the method returns
    success, with a message that notes the failed verification and carries
    the exception's text: the sizes have not been compared. *)
Theorem copy_success_without_verification :
  forall (W : Type) (h : Handler W) (w : W) (m : Manager)
         (path out : string) (post : Trace) (e : Exc),
    after_command (copy_command path (dest_path_of path))
      (trace_of (exec h (copy_hex_file path) m w)) = Some (Completed out, post) ->
    post = [Ev (PathExists (dest_path_of path)) true;
            Ev (GetSize (dest_path_of path)) (inl e)]
    \/ (exists copied : Z,
          post = [Ev (PathExists (dest_path_of path)) true;
                  Ev (GetSize (dest_path_of path)) (inr copied);
                  Ev (GetSize path) (inl e)]) ->
    result_of (exec h (copy_hex_file path) m w)
    = Ok (true, "Copied " ++ PyStr.basename path ++ " (verification failed: "
                ++ exc_msg e ++ ")").
Proof.
  intros W h w m path out post e Hafter Hpost.
  pose proof (after_copy_hex_file path W h m w) as Hspec.
  rewrite Hafter in Hspec. destruct Hspec as [w' [Hp Hres]].
  rewrite Hres.
  destruct (verify_copy_cases h path (PyStr.basename path) (dest_path_of path) m w')
    as [[Ht Hr] | [[e' [Ht Hr]] | [[c [e' [Ht Hr]]] | [c [o [Ht Hr]]]]]];
    rewrite Ht in Hp; rewrite Hr; subst post.
  - destruct Hpost as [Heq | [copied Heq]]; length_clash Heq.
  - destruct Hpost as [Heq | [copied Heq]]; [| length_clash Heq].
    apply list2_inj in Heq. destruct Heq as [_ H2].
    apply Ev_getsize in H2. injection H2 as ->. reflexivity.
  - destruct Hpost as [Heq | [copied Heq]]; [length_clash Heq |].
    apply list3_inj in Heq. destruct Heq as [_ [_ H3]].
    apply Ev_getsize in H3. injection H3 as ->. reflexivity.
  - destruct Hpost as [Heq | [copied Heq]]; [length_clash Heq |].
    apply list3_inj in Heq. destruct Heq as [_ [_ H3]].
    apply Ev_getsize in H3. discriminate H3.
Qed.

Lemma copy_success_without_verification_witness :
  result_of (exec bench (copy_hex_file blink_hex) manager_mounted bench_partial_copy)
  = Ok (true, "Copied blink.hex (verification failed: "
              ++ "[Errno 5] Input/output error: '/mnt/microbit/blink.hex')").
Proof.
  refine (copy_success_without_verification Bench bench bench_partial_copy
            manager_mounted blink_hex ""
            [Ev (PathExists (dest_path_of blink_hex)) true;
             Ev (GetSize (dest_path_of blink_hex)) (inl (io_error (dest_path_of blink_hex)))]
            (io_error (dest_path_of blink_hex)) _ _).
  - vm_compute. reflexivity.
  - left. reflexivity.
Defined.

(** * The files on the board *)

Lemma Ev_stat (path : string) (a1 a2 : Exc + StatResult) :
  Ev (StatOf path) a1 = Ev (StatOf path) a2 -> a1 = a2.
Proof. apply Ev_answer. Qed.

Lemma Ev_isfile (path : string) (a1 a2 : bool) :
  Ev (PathIsFile path) a1 = Ev (PathIsFile path) a2 -> a1 = a2.
Proof. apply Ev_answer. Qed.

Lemma stat_entry_cases {W : Type} (h : Handler W) item path m w :
  manager_of (exec h (stat_entry item path) m w) = m
  /\ ((exists e,
         trace_of (exec h (stat_entry item path) m w) = [Ev (StatOf path) (inl e)]
         /\ result_of (exec h (stat_entry item path) m w) = Ok (unknown_entry item))
      \/ (exists st e,
            trace_of (exec h (stat_entry item path) m w)
            = [Ev (StatOf path) (inr st); Ev (LocalTime (st_mtime_ns st)) (inl e)]
            /\ result_of (exec h (stat_entry item path) m w) = Ok (unknown_entry item))
      \/ (exists st mtime,
            trace_of (exec h (stat_entry item path) m w)
            = [Ev (StatOf path) (inr st); Ev (LocalTime (st_mtime_ns st)) (inr mtime)]
            /\ result_of (exec h (stat_entry item path) m w)
               = Ok {| file_name := item; file_size := st_size st;
                       file_mtime := mtime |})).
Proof.
  unfold stat_entry, os_stat, format_mtime. exec_steps.
  destruct (fst (h (StatOf path) w)) as [e | st]; cbv beta iota.
  { exec_steps. split; [reflexivity |]. left. exists e. split; reflexivity. }
  exec_steps.
  destruct (fst (h (LocalTime (st_mtime_ns st)) _)) as [e | mtime]; cbv beta iota.
  { exec_steps. split; [reflexivity |]. right; left. exists st, e. split; reflexivity. }
  exec_steps. split; [reflexivity |]. right; right. exists st, mtime. split; reflexivity.
Qed.

(** The loop over the directory listing never raises; its entries are
    names of the listing and cover the answers. *)
Lemma stat_microbit_files_listing {W : Type} (h : Handler W) items :
  forall m w,
    exists files,
      result_of (exec h (stat_microbit_files items) m w) = Ok files
      /\ listing_covers files (trace_of (exec h (stat_microbit_files items) m w))
      /\ (forall f, In f files -> In (file_name f) items).
Proof.
  induction items as [| item rest IH]; intros m w.
  - exists []. simpl. split; [reflexivity |]. split; [| intros f []].
    split; [intros path [] | intros path e []].
  - simpl stat_microbit_files. rewrite exec_bind, exec_os_path_isfile. cbv beta iota.
    destruct (fst (h (PathIsFile (os_path_join mount_point item)) w)) eqn:Efile.
    + rewrite exec_bind.
      destruct (stat_entry_cases h item (os_path_join mount_point item) m
                  (snd (h (PathIsFile (os_path_join mount_point item)) w)))
        as [Hm Hcases].
      destruct (exec h (stat_entry item (os_path_join mount_point item)) m _)
        as [[[r1 m1] w1] t1].
      unfold manager_of, trace_of, result_of in Hm, Hcases; simpl in Hm, Hcases.
      subst m1.
      assert (Hentry : exists entry, r1 = Ok entry /\ file_name entry = item
                /\ (forall q a, In (Ev (PathIsFile q) a) t1 -> False)
                /\ (forall q e, In (Ev (StatOf q) (inl e)) t1 ->
                      q = os_path_join mount_point item
                      /\ file_size entry = 0 /\ file_mtime entry = "unknown")).
      { destruct Hcases as [[e [Ht Hr]] | [[st [e [Ht Hr]]] | [st [mtime [Ht Hr]]]]];
          subst t1 r1; eexists; (split; [reflexivity |]); (split; [reflexivity |]);
          split.
        - intros q a [H | []]. apply Ev_request in H. discriminate H.
        - intros q e0 [H | []]. pose proof (Ev_request _ _ _ _ H) as Hq.
          injection Hq as <-. auto.
        - intros q a [H | [H | []]]; apply Ev_request in H; discriminate H.
        - intros q e0 [H | [H | []]].
          + pose proof (Ev_request _ _ _ _ H) as Hq. injection Hq as <-.
            apply Ev_stat in H. discriminate H.
          + apply Ev_request in H. discriminate H.
        - intros q a [H | [H | []]]; apply Ev_request in H; discriminate H.
        - intros q e0 [H | [H | []]].
          + pose proof (Ev_request _ _ _ _ H) as Hq. injection Hq as <-.
            apply Ev_stat in H. discriminate H.
          + apply Ev_request in H. discriminate H. }
      destruct Hentry as [entry [-> [Hname [Hnofile Hstat]]]]. cbv beta iota.
      rewrite exec_bind.
      destruct (IH m w1) as [files [Hr [[Hc1 Hc2] Hin]]].
      destruct (exec h (stat_microbit_files rest) m w1) as [[[r2 m2] w2] t2].
      unfold trace_of, result_of in Hr, Hc1, Hc2; simpl in Hr, Hc1, Hc2. subst r2.
      cbv beta iota. exec_steps. unfold trace_of, result_of. simpl fst; simpl snd.
      exists (entry :: files). split; [reflexivity |]. split; [split |].
      * intros path Hp. simpl in Hp. destruct Hp as [Hp | Hp].
        -- pose proof (Ev_request _ _ _ _ Hp) as Hq. injection Hq as <-.
           exists entry. split; [left; reflexivity | rewrite Hname; reflexivity].
        -- apply in_app_or in Hp. destruct Hp as [Hp | Hp];
             [exfalso; exact (Hnofile _ _ Hp) |].
           rewrite app_nil_r in Hp. destruct (Hc1 path Hp) as [f [Hf Hj]].
           exists f. split; [right; exact Hf | exact Hj].
      * intros path e Hp. simpl in Hp. destruct Hp as [Hp | Hp];
          [apply Ev_request in Hp; discriminate Hp |].
        apply in_app_or in Hp. destruct Hp as [Hp | Hp].
        -- destruct (Hstat _ _ Hp) as [-> [Hs Ht]].
           exists entry. rewrite Hname. auto using in_eq.
        -- rewrite app_nil_r in Hp. destruct (Hc2 path e Hp) as [f [Hf Hrest]].
           exists f. split; [right; exact Hf | exact Hrest].
      * intros f [<- | Hf]; [left; symmetry; exact Hname | right; exact (Hin f Hf)].
    + destruct (IH m (snd (h (PathIsFile (os_path_join mount_point item)) w)))
        as [files [Hr [[Hc1 Hc2] Hin]]].
      destruct (exec h (stat_microbit_files rest) m _) as [[[r2 m2] w2] t2].
      unfold trace_of, result_of in *; simpl in Hr, Hc1, Hc2 |- *. subst r2.
      exists files. split; [reflexivity |]. split; [split |].
      * intros path [Hp | Hp]; [| exact (Hc1 path Hp)].
        pose proof (Ev_request _ _ _ _ Hp) as Hq. injection Hq as <-.
        apply Ev_isfile in Hp. discriminate Hp.
      * intros path e [Hp | Hp]; [apply Ev_request in Hp; discriminate Hp |].
        exact (Hc2 path e Hp).
      * intros f Hf. right. exact (Hin f Hf).
Qed.

Lemma listing_covers_sorted files (t : Trace) :
  listing_covers files t ->
  listing_covers (sorted file_name PyStr.ltb false files) t.
Proof.
  intros [H1 H2].
  assert (Hin : forall f, In f files -> In f (sorted file_name PyStr.ltb false files)).
  { intros f Hf. apply Permutation_in with files; [| exact Hf].
    apply Permutation_sym, sort_stable_perm. }
  split.
  - intros path Hp. destruct (H1 path Hp) as [f [Hf Hj]]. exists f; auto.
  - intros path e Hp. destruct (H2 path e Hp) as [f [Hf Hrest]]. exists f; auto.
Qed.

Lemma listing_covers_after files (ev1 ev2 : Event) (t : Trace) :
  (forall path a, ev1 <> Ev (PathIsFile path) a) ->
  (forall path a, ev1 <> Ev (StatOf path) a) ->
  (forall path a, ev2 <> Ev (PathIsFile path) a) ->
  (forall path a, ev2 <> Ev (StatOf path) a) ->
  listing_covers files t -> listing_covers files (ev1 :: ev2 :: t).
Proof.
  intros A1 A2 B1 B2 [H1 H2]. split.
  - intros path [Hp | [Hp | Hp]]; [exfalso; exact (A1 _ _ Hp)
                                   | exfalso; exact (B1 _ _ Hp) | exact (H1 path Hp)].
  - intros path e [Hp | [Hp | Hp]]; [exfalso; exact (A2 _ _ Hp)
                                     | exfalso; exact (B2 _ _ Hp) | exact (H2 path e Hp)].
Qed.




(** * The firmware images of the Downloads directory *)

Lemma hex_entry_from_app (pre post t : Trace) f :
  hex_entry_from t f -> hex_entry_from (pre ++ t ++ post)%list f.
Proof.
  intros [stat [before [after [Ht Hs]]]].
  exists stat, (pre ++ before)%list, (after ++ post)%list. split; [| exact Hs].
  rewrite Ht. rewrite <- !app_assoc. reflexivity.
Qed.

(** The loop over the matches of the pattern: one entry per name, in the
    order of the names, each made of the answers to its [stat] and to the
    formatting of its time. *)
Lemma stat_hex_files_entries {W : Type} (h : Handler W) dir names :
  forall m w files,
    result_of (exec h (stat_hex_files dir names) m w) = Ok files ->
    map hex_name files = names
    /\ (forall f, In f files ->
          hex_path f = path_join dir (hex_name f)
          /\ hex_entry_from (trace_of (exec h (stat_hex_files dir names) m w)) f).
Proof.
  induction names as [| name rest IH]; intros m w files.
  - simpl. intros H; injection H as <-. split; [reflexivity | intros f []].
  - simpl stat_hex_files. unfold os_stat, format_mtime. exec_steps.
    destruct (fst (h (StatOf (path_join dir name)) w)) as [e | stat];
      cbv beta iota; [discriminate |].
    exec_steps.
    destruct (fst (h (LocalTime (st_mtime_ns stat)) _)) as [e | mtime];
      cbv beta iota; [discriminate |].
    rewrite exec_bind.
    match goal with
    | |- context [exec h (stat_hex_files dir rest) ?m1 ?w1] =>
        pose proof (IH m1 w1) as IH';
        destruct (exec h (stat_hex_files dir rest) m1 w1) as [[[r2 m2] w2] t2]
    end.
    unfold result_of, trace_of in IH'; simpl in IH'.
    destruct r2 as [later | e]; cbv beta iota; [| discriminate].
    exec_steps. unfold result_of, trace_of; simpl fst; simpl snd.
    intros H; injection H as <-.
    destruct (IH' later eq_refl) as [Hn Hp].
    split; [simpl; rewrite Hn; reflexivity |].
    intros f [<- | Hf].
    + split; [reflexivity |].
      exists stat, [], (t2 ++ [])%list. split; reflexivity.
    + destruct (Hp f Hf) as [Hpath Hfrom]. split; [exact Hpath |].
      apply (hex_entry_from_app
               [Ev (StatOf (path_join dir name)) (inr stat);
                Ev (LocalTime (st_mtime_ns stat)) (inr mtime)] [] t2 f) in Hfrom.
      simpl in *. exact Hfrom.
Qed.

(** The whole method, by the answers about the directory. *)
Lemma exec_get_hex_files {W : Type} (h : Handler W) m w :
  let dir := downloads_dir m in
  let w1 := snd (h (PathlibExists dir) w) in
  let w2 := snd (h (GlobHex dir) w1) in
  let asked := Ev (PathlibExists dir) (fst (h (PathlibExists dir) w)) in
  let globbed := Ev (GlobHex dir) (fst (h (GlobHex dir) w1)) in
  exec h get_hex_files m w =
  match fst (h (PathlibExists dir) w) with
  | inl e => (Raised e, m, w1, [asked])
  | inr false => (Ok [], m, w1, [asked])
  | inr true =>
      match fst (h (GlobHex dir) w1) with
      | inl e => (Raised e, m, w2, [asked; globbed])
      | inr names =>
          (match result_of (exec h (stat_hex_files dir names) m w2) with
           | Ok listed => Ok (sorted hex_mtime PyStr.ltb true listed)
           | Raised e => Raised e
           end,
           m, world_of (exec h (stat_hex_files dir names) m w2),
           asked :: globbed :: trace_of (exec h (stat_hex_files dir names) m w2))
      end
  end.
Proof.
  cbv zeta. unfold get_hex_files, pathlib_exists, glob_hex.
  rewrite exec_bind, exec_gets. cbv beta iota.
  rewrite exec_bind, exec_ask_or_raise. cbv beta iota.
  destruct (fst (h (PathlibExists (downloads_dir m)) w)) as [e | [|]];
    cbv beta iota; [reflexivity | | exec_steps; reflexivity].
  rewrite exec_bind, exec_bind, exec_ask_or_raise. cbv beta iota.
  destruct (fst (h (GlobHex (downloads_dir m)) _)) as [e | names];
    cbv beta iota; [reflexivity |].
  pose proof (readonly_stat_hex_files (downloads_dir m) names W h m
                (snd (h (GlobHex (downloads_dir m))
                        (snd (h (PathlibExists (downloads_dir m)) w))))) as Hro.
  destruct (exec h (stat_hex_files (downloads_dir m) names) m _)
    as [[[r2 m2] w2] t2].
  unfold manager_of in Hro; simpl in Hro; subst m2.
  unfold result_of, world_of, trace_of; cbn [fst snd].
  destruct r2 as [listed | e]; cbv beta iota; [| reflexivity].
  exec_steps. simpl. rewrite app_nil_r. reflexivity.
Qed.

(** C9, as the code has it.  [get_hex_files] leaves the manager as it is and
    asks the directory anew at every call.  When it returns (it raises when
    asking for the directory, listing it, the [stat] of a match or the
    formatting of its time raises), the sequence is sorted descending by the
    formatted modification time, the text ['%Y-%m-%d %H:%M'] compared as a
    string; it holds one entry for each match of [*.hex] in the directory,
    each with its path in the directory, the size that the [stat] of this
    path answered and, as its formatted time, the text that the formatting
    of that [stat]'s modification time answered; it is empty when the
    directory does not exist. *)
Theorem get_hex_files_sorted :
  forall (W : Type) (h : Handler W) (w : W) (m : Manager),
    manager_of (exec h get_hex_files m w) = m
    /\ (exists t,
          trace_of (exec h get_hex_files m w)
          = Ev (PathlibExists (downloads_dir m))
               (fst (h (PathlibExists (downloads_dir m)) w)) :: t)
    /\ (fst (h (PathlibExists (downloads_dir m)) w) = inr false ->
        result_of (exec h get_hex_files m w) = Ok [])
    /\ (forall files,
          result_of (exec h get_hex_files m w) = Ok files ->
          StronglySorted (descending hex_mtime PyStr.ltb) files
          /\ (forall f, In f files ->
                hex_path f = path_join (downloads_dir m) (hex_name f)
                /\ hex_entry_from (trace_of (exec h get_hex_files m w)) f)
          /\ (forall names,
                fst (h (PathlibExists (downloads_dir m)) w) = inr true ->
                fst (h (GlobHex (downloads_dir m))
                       (snd (h (PathlibExists (downloads_dir m)) w))) = inr names ->
                Permutation (map hex_name files) names)).
Proof.
  intros W h w m. split; [apply readonly_get_hex_files |].
  pose proof (exec_get_hex_files h m w) as E. cbv zeta in E. rewrite E. clear E.
  set (dir := downloads_dir m).
  destruct (fst (h (PathlibExists dir) w)) as [e | [|]] eqn:Ethere.
  - unfold trace_of, result_of; simpl fst; simpl snd.
    split; [eexists; reflexivity |]. split; [discriminate |].
    intros files H; discriminate H.
  - destruct (fst (h (GlobHex dir) (snd (h (PathlibExists dir) w)))) as [e | names]
      eqn:Eglob.
    + unfold trace_of, result_of; simpl.
      split; [eexists; reflexivity |]. split; [discriminate |].
      intros files H; discriminate H.
    + pose proof (stat_hex_files_entries h dir names m
                    (snd (h (GlobHex dir) (snd (h (PathlibExists dir) w)))))
        as Hentries.
      destruct (exec h (stat_hex_files dir names) m _) as [[[r2 m2] w2] t2].
      unfold result_of, trace_of, world_of in *; cbn [fst snd] in *.
      split; [eexists; reflexivity |]. split; [discriminate |].
      destruct r2 as [listed | e]; [| intros files H; discriminate H].
      intros files H; injection H as <-.
      destruct (Hentries listed eq_refl) as [Hn Hp].
      destruct (sorted_descending hex_mtime PyStr.ltb PyStrOrder.ltb_asym
                  PyStrOrder.geb_trans listed) as [Hs Hperm].
      split; [exact Hs |]. split.
      * intros f Hf. destruct (Hp f (Permutation_in _ Hperm Hf)) as [Hpath Hfrom].
        split; [exact Hpath |].
        apply (hex_entry_from_app
                 [Ev (PathlibExists dir) (inr true); Ev (GlobHex dir) (inr names)]
                 [] t2 f) in Hfrom.
        rewrite app_nil_r in Hfrom. exact Hfrom.
      * intros names' _ Hnames. injection Hnames as <-.
        rewrite <- Hn. apply Permutation_map. exact Hperm.
  - unfold trace_of, result_of; simpl fst; simpl snd.
    split; [eexists; reflexivity |]. split; [reflexivity |].
    intros files H; injection H as <-. simpl.
    split; [constructor |]. split; [intros f [] |].
    intros names Hf; discriminate Hf.
Qed.

Lemma get_hex_files_sorted_witness :
  StronglySorted (descending hex_mtime PyStr.ltb)
    [{| hex_name := "newer.hex"; hex_path := "/home/pi/Downloads/newer.hex";
        hex_size := 600000; hex_mtime := "2023-11-14 22:13" |};
     {| hex_name := "last_week.hex"; hex_path := "/home/pi/Downloads/last_week.hex";
        hex_size := 500000; hex_mtime := "2023-11-07 22:13" |}]
  /\ Permutation ["newer.hex"; "last_week.hex"] ["last_week.hex"; "newer.hex"].
Proof.
  pose proof (proj2 (proj2 (proj2
                (get_hex_files_sorted unit
                   (shelf "/home/pi/Downloads" [week_old_hex; newer_hex]) tt manager0)))
                _ eq_refl) as [Hs [_ Hp]].
  split; [exact Hs | exact (Hp _ eq_refl eq_refl)].
Defined.

(** C9 as stated fails: of two images saved within the same minute, the
    older one, first in the directory's order, is listed before the more
    recent one. *)
Lemma get_hex_files_counterexample :
  result_of (exec (shelf "/home/pi/Downloads" [older_hex; newer_hex])
               get_hex_files manager0 tt)
  = Ok [{| hex_name := "older.hex"; hex_path := "/home/pi/Downloads/older.hex";
           hex_size := 600000; hex_mtime := "2023-11-14 22:13" |};
        {| hex_name := "newer.hex"; hex_path := "/home/pi/Downloads/newer.hex";
           hex_size := 600000; hex_mtime := "2023-11-14 22:13" |}]
  /\ st_mtime_ns (shelf_stat older_hex) < st_mtime_ns (shelf_stat newer_hex).
Proof. split; vm_compute; reflexivity. Qed.

(** * Exceptions that never leave *)

Lemma never_raises_ret {A : Type} (a : A) : never_raises (ret a).
Proof. intros W h m w; eexists; reflexivity. Qed.

Lemma never_raises_gets {A : Type} (f : Manager -> A) : never_raises (gets f).
Proof. intros W h m w; eexists; reflexivity. Qed.

Lemma never_raises_modify (f : Manager -> Manager) : never_raises (modify f).
Proof. intros W h m w; eexists; reflexivity. Qed.

Lemma never_raises_ask (r : Request) : never_raises (ask r).
Proof. intros W h m w; rewrite exec_ask; eexists; reflexivity. Qed.

Lemma never_raises_bind {A B : Type} (c : M A) (f : A -> M B) :
  never_raises c -> (forall a, never_raises (f a)) -> never_raises (bind c f).
Proof.
  intros Hc Hf W h m w. rewrite exec_bind.
  destruct (Hc W h m w) as [a Ha].
  destruct (exec h c m w) as [[[r m1] w1] t1]. unfold result_of in Ha; simpl in Ha.
  subst r. destruct (Hf a W h m1 w1) as [b Hb].
  destruct (exec h (f a) m1 w1) as [[[r2 m2] w2] t2].
  unfold result_of in *; simpl in *. eauto.
Qed.

(** A handler that returns makes the whole [try] return, whatever its body
    does. *)
Lemma never_raises_try_except {A : Type} (c : M A) (handler : Exc -> M A) :
  (forall e, never_raises (handler e)) -> never_raises (try_except c handler).
Proof.
  intros Hf W h m w. rewrite exec_try_except.
  destruct (exec h c m w) as [[[r m1] w1] t1]. destruct r as [a | e].
  - exists a; reflexivity.
  - destruct (Hf e W h m1 w1) as [b Hb].
    destruct (exec h (handler e) m1 w1) as [[[r2 m2] w2] t2].
    unfold result_of in *; simpl in *. eauto.
Qed.

Lemma never_raises_os_path_exists p : never_raises (os_path_exists p).
Proof. exact (never_raises_ask (PathExists p)). Qed.

Lemma never_raises_os_path_isfile p : never_raises (os_path_isfile p).
Proof. exact (never_raises_ask (PathIsFile p)). Qed.

Create HintDb never_raises.
#[export] Hint Resolve never_raises_ret never_raises_gets never_raises_modify
  never_raises_os_path_exists never_raises_os_path_isfile : never_raises.

Ltac never_raises_step :=
  match goal with
  | |- never_raises (bind _ _) => apply never_raises_bind; [| intros ?]
  | |- never_raises (try_except _ _) => apply never_raises_try_except; intros ?
  | |- never_raises (match ?x with _ => _ end) => destruct x
  | |- never_raises (if ?x then _ else _) => destruct x
  | |- never_raises _ => solve [auto with never_raises]
  | |- never_raises _ => solve [apply never_raises_ask]
  end.

Ltac prove_never_raises := repeat never_raises_step.

Lemma never_raises_validate_hex_file p : never_raises (validate_hex_file p).
Proof. unfold validate_hex_file; prove_never_raises. Qed.

Lemma never_raises_check_space p : never_raises (check_space p).
Proof. unfold check_space; prove_never_raises. Qed.

Lemma never_raises_verify_copy p f d : never_raises (verify_copy p f d).
Proof. unfold verify_copy; prove_never_raises. Qed.

#[export] Hint Resolve never_raises_validate_hex_file never_raises_check_space
  never_raises_verify_copy : never_raises.

Lemma cp_raise_ret path r : cp_raise_spec path (ret r).
Proof. intros W h m w e H. discriminate H. Qed.

Lemma cp_raise_bind {A : Type} path (c : M A) (f : A -> M (bool * string)) :
  quiet c -> never_raises c -> (forall a, cp_raise_spec path (f a)) ->
  cp_raise_spec path (bind c f).
Proof.
  intros Hq Hc Hf W h m w e. rewrite exec_bind.
  destruct (Hq W h m w) as [Ht Hm]. destruct (Hc W h m w) as [a Ha].
  destruct (exec h c m w) as [[[r m1] w1] t1].
  unfold manager_of, trace_of, result_of in *; simpl in *. subst m1 r.
  specialize (Hf a W h m w1 e).
  destruct (exec h (f a) m w1) as [[[r2 m2] w2] t2].
  unfold trace_of, result_of in *; simpl in *.
  intros H. rewrite shell_free_app by exact Ht. exact (Hf H).
Qed.

Lemma cp_raise_command path :
  cp_raise_spec path
    (bind (run_command_with_error (copy_command path (dest_path_of path)))
       (fun x => let (success, result) := x in
                 if success
                 then verify_copy path (PyStr.basename path) (dest_path_of path)
                 else ret (classify_copy_error result))).
Proof.
  intros W h m w e. exec_steps.
  destruct (fst (h (SubprocessRun (copy_command path (dest_path_of path))) w))
    as [out | rc err | e1]; reduce_run.
  - match goal with
    | |- context [exec h (verify_copy ?p ?f ?d) ?m0 ?w0] =>
        destruct (never_raises_verify_copy p f d W h m0 w0) as [a Ha];
        destruct (exec h (verify_copy p f d) m0 w0) as [[[r2 m2] w2] t2]
    end.
    unfold result_of in *; simpl in *. subst r2. discriminate.
  - exec_steps. discriminate.
  - unfold trace_of, result_of; simpl. rewrite String.eqb_refl.
    intros H; injection H as <-. reflexivity.
Qed.

Lemma cp_raise_copy_hex_file path : cp_raise_spec path (copy_hex_file path).
Proof.
  unfold copy_hex_file.
  repeat first
    [ apply cp_raise_ret
    | apply cp_raise_command
    | apply cp_raise_bind; [solve [prove_quiet] | solve [prove_never_raises] | intros ?]
    | match goal with
      | |- cp_raise_spec _ (match ?x with _ => _ end) => destruct x
      | |- cp_raise_spec _ (if ?x then _ else _) => destruct x
      end ].
Qed.

(** X1. [validate_hex_file] never raises, whatever the environment answers
    (a missing or unreadable source included), and [copy_hex_file] raises
    only what running its copy command raised, in which case that command
    was the last thing asked: no other answer (a failing size or space
    query, a copy command that fails with a status) makes it raise.  Neither
    method changes the manager. *)
Theorem transfer_raises_only_from_cp :
  forall (W : Type) (h : Handler W) (w : W) (m : Manager) (hex_file_path : string),
    (exists outcome,
        result_of (exec h (validate_hex_file hex_file_path) m w) = Ok outcome)
    /\ (forall e,
          result_of (exec h (copy_hex_file hex_file_path) m w) = Raised e ->
          after_command (copy_command hex_file_path (dest_path_of hex_file_path))
            (trace_of (exec h (copy_hex_file hex_file_path) m w))
          = Some (RunRaised e, []))
    /\ manager_of (exec h (validate_hex_file hex_file_path) m w) = m
    /\ manager_of (exec h (copy_hex_file hex_file_path) m w) = m.
Proof.
  intros W h w m p. split; [apply never_raises_validate_hex_file |].
  split; [intros e; apply cp_raise_copy_hex_file |].
  split; [apply readonly_validate_hex_file | apply readonly_copy_hex_file].
Qed.

Lemma transfer_raises_only_from_cp_witness :
  result_of (exec (bench_garbled "sudo cp") (copy_hex_file blink_hex)
               manager_mounted bench_mounted) = Raised undecodable
  /\ after_command (copy_command blink_hex (dest_path_of blink_hex))
       (trace_of (exec (bench_garbled "sudo cp") (copy_hex_file blink_hex)
                    manager_mounted bench_mounted))
     = Some (RunRaised undecodable, []).
Proof.
  assert (H : result_of (exec (bench_garbled "sudo cp") (copy_hex_file blink_hex)
                           manager_mounted bench_mounted) = Raised undecodable)
    by (vm_compute; reflexivity).
  split; [exact H |].
  exact (proj1 (proj2 (transfer_raises_only_from_cp Bench (bench_garbled "sudo cp")
                         bench_mounted manager_mounted blink_hex))
           undecodable H).
Defined.

(** * Invariants kept by every operation *)

Section InvariantOfOperations.

Variable I : Manager -> Prop.
Hypothesis I_status : forall s m, I m -> I (set_status_message s m).
Hypothesis I_latch : forall b m, I m -> I (set_manual_unmount b m).
Hypothesis I_mount : preserves I mount_microbit.
Hypothesis I_unmount : preserves I unmount_microbit.
Hypothesis I_adjust : forall hex_files, preserves I (adjust_selected hex_files).
Hypothesis I_key : forall key hex_files, preserves I (handle_key key hex_files).

Lemma invariant_check_microbit_status : preserves I check_microbit_status.
Proof. unfold check_microbit_status; prove_preserves. Qed.

Lemma invariant_main_loop_iteration : preserves I main_loop_iteration.
Proof.
  pose proof invariant_check_microbit_status.
  unfold main_loop_iteration; prove_preserves.
Qed.

Lemma invariant_cleanup : preserves I cleanup.
Proof. unfold cleanup; prove_preserves. Qed.

Lemma invariant_reachable :
  (forall downloads, I (init downloads)) -> forall m, reachable m -> I m.
Proof.
  intros Hinit m. induction 1 as [downloads | W h w op m Hm IH].
  - apply Hinit.
  - destruct op; simpl.
    + apply I_mount; exact IH.
    + apply I_unmount; exact IH.
    + rewrite readonly_copy_hex_file; exact IH.
    + apply invariant_main_loop_iteration; exact IH.
    + apply invariant_cleanup; exact IH.
Qed.

End InvariantOfOperations.

(** The key handler keeps what the index, the status line and the two mount
    operations keep. *)
Lemma invariant_handle_key (I : Manager -> Prop) :
  (forall s m, I m -> I (set_status_message s m)) ->
  (forall b m, I m -> I (set_manual_unmount b m)) ->
  (forall b m, I m -> I (set_show_info_area b m)) ->
  (forall i m, I m -> I (set_selected_file_idx i m)) ->
  preserves I mount_microbit -> preserves I unmount_microbit ->
  forall key hex_files, preserves I (handle_key key hex_files).
Proof.
  intros H1 H2 H3 H4 H5 H6 key hex_files. unfold handle_key; prove_preserves.
Qed.

(** ** The recorded device *)

Lemma scan_blockdevices_under_dev devices d :
  scan_blockdevices devices = Ok (Some d) -> String.prefix "/dev/" d = true.
Proof.
  induction devices as [| device rest IH]; simpl; [discriminate |].
  destruct (Py.get device "rm" (JBool false)) as [rm | e]; [| discriminate].
  destruct (Py.truthy rm); [| exact IH].
  destruct (Py.get device "size" (JStr "")) as [size | e]; [| discriminate].
  destruct (size_matches size) as [[|] | e]; [| exact IH | discriminate].
  unfold device_path. destruct device; try discriminate.
  destruct (Py.lookup "name" fields); [| discriminate].
  intros H; injection H as <-. apply PyStrFacts.prefix_iff. eexists; reflexivity.
Qed.

Lemma get_microbit_block_device_under_dev {W : Type} (h : Handler W) m w d :
  result_of (exec h get_microbit_block_device m w) = Ok (Some d) ->
  String.prefix "/dev/" d = true.
Proof.
  assert (Hprobe : forall w',
             result_of (exec h (probe_common_devices ["/dev/sda"; "/dev/sdb"; "/dev/sdc"])
                          m w') = Ok (Some d) -> String.prefix "/dev/" d = true).
  { intros w' H. apply probe_common_devices_result in H.
    destruct H as [<- | [<- | [<- | []]]]; reflexivity. }
  unfold get_microbit_block_device. exec_steps.
  destruct (output_of _) as [lsblk_output | e]; cbv beta iota;
    [| simpl; discriminate].
  exec_steps.
  destruct (fst (h (JsonLoads _) _)) as [data |]; cbv beta iota.
  - destruct (find_removable data) as [[device |] | e] eqn:E.
    + exec_steps. simpl. intros H; injection H as <-.
      unfold find_removable in E.
      destruct (Py.get data "blockdevices" (JArr [])) as [devices | e]; [| discriminate].
      destruct (Py.iterate devices) as [l | e]; [| discriminate].
      exact (scan_blockdevices_under_dev l device E).
    + intros H. eapply Hprobe.
      destruct (exec h (probe_common_devices _) m _) as [[[r2 m2] w2] t2] eqn:E2.
      rewrite <- H. rewrite E2. reflexivity.
    + exec_steps. simpl. discriminate.
  - intros H. eapply Hprobe.
    destruct (exec h (probe_common_devices _) m _) as [[[r2 m2] w2] t2] eqn:E2.
    rewrite <- H. rewrite E2. reflexivity.
Qed.

(** What [mount_microbit] records is what the resolution returned. *)
Lemma mount_microbit_records_resolved {W : Type} (h : Handler W) m w msg :
  result_of (exec h mount_microbit m w) = Ok (true, msg) ->
  exists d,
    result_of (exec h get_microbit_block_device m w) = Ok (Some d)
    /\ manager_of (exec h mount_microbit m w)
       = set_microbit_device (Some d) (set_is_mounted true m).
Proof.
  unfold mount_microbit. rewrite exec_bind.
  pose proof (readonly_get_microbit_block_device W h m w) as Hro.
  destruct (exec h get_microbit_block_device m w) as [[[r m1] w1] t1].
  unfold manager_of in Hro; simpl in Hro; subst m1.
  destruct r as [device | e]; [| discriminate].
  destruct (truthy_device device) as [d |] eqn:Ed; [| discriminate].
  apply truthy_device_nonempty in Ed. destruct Ed as [Hd ->].
  exec_steps.
  destruct (output_of _) as [mount_output | e]; [| discriminate].
  destruct (PyStr.contains mount_point mount_output).
  { unfold record_mounted. exec_steps. simpl. intros _. exists d; auto. }
  exec_steps.
  destruct (fst (h (SubprocessRun ("sudo mkdir -p " ++ mount_point)) _))
    as [out | rc err | e]; reduce_run; simpl negb; cbv iota; exec_steps;
    [| discriminate | discriminate].
  destruct (fst (h (SubprocessRun ("sudo mount " ++ d ++ " " ++ mount_point)) _))
    as [out2 | rc err | e]; reduce_run; [| | discriminate].
  { unfold record_mounted. exec_steps. simpl. intros _. exists d; auto. }
  destruct (PyStr.contains "already mounted" _).
  { unfold record_mounted. exec_steps. simpl. intros _. exists d; auto. }
  repeat match goal with
         | |- context [if ?b then _ else _] => destruct b
         end; discriminate.
Qed.

Lemma device_under_dev_mount : preserves device_under_dev mount_microbit.
Proof.
  intros W h m w Hm. pose proof (mount_microbit_post h m w) as H.
  destruct (result_of (exec h mount_microbit m w)) as [[[|] msg] | e] eqn:Er.
  - destruct (mount_microbit_records_resolved h m w msg Er) as [d [Hd ->]].
    intros d' Hd'. simpl in Hd'. injection Hd' as <-.
    exact (get_microbit_block_device_under_dev h m w d Hd).
  - rewrite H; exact Hm.
  - rewrite H; exact Hm.
Qed.

Lemma device_under_dev_unmount : preserves device_under_dev unmount_microbit.
Proof.
  intros W h m w Hm. pose proof (unmount_microbit_post h m w) as H.
  destruct (result_of (exec h unmount_microbit m w)) as [[[|] msg] | e].
  - destruct H as [-> | [_ ->]]; [intros d Hd; discriminate Hd | exact Hm].
  - rewrite H; exact Hm.
  - rewrite H; exact Hm.
Qed.

(** X2. At every manager reached from [__init__] by any sequence of
    operations in any environment, the recorded device, when there is one,
    is a path that starts with [/dev/]: the structured resolution builds it
    from a device name and the fallback takes it from the list of common
    device paths. *)
Theorem recorded_device_under_dev :
  forall m : Manager, reachable m ->
    forall d, microbit_device m = Some d -> String.prefix "/dev/" d = true.
Proof.
  intros m Hm.
  apply (invariant_reachable device_under_dev); try exact Hm.
  - intros s m0 H; exact H.
  - intros b m0 H; exact H.
  - exact device_under_dev_mount.
  - exact device_under_dev_unmount.
  - intros hex_files. unfold adjust_selected.
    destruct hex_files; apply preserves_modify; intros m0 H; exact H.
  - apply invariant_handle_key; try (intros ? m0 H; exact H).
    + exact device_under_dev_mount.
    + exact device_under_dev_unmount.
  - intros downloads d Hd. discriminate Hd.
Qed.

Lemma recorded_device_under_dev_witness :
  microbit_device manager_mounted = Some "/dev/sdb"
  /\ String.prefix "/dev/" "/dev/sdb" = true.
Proof.
  split; [reflexivity |].
  refine (recorded_device_under_dev manager_mounted _ "/dev/sdb" eq_refl).
  exact (reach_step Bench bench bench_idle OpMount manager0
           (reach_init "/home/pi/Downloads")).
Defined.

(** * More on the mount controller *)

(** X3. [mount_microbit] changes the manager only when it returns success:
    when it returns a failure (no device, mount point not created, a
    classified or unclassified mount error) and when it raises (a value of
    the block-device tree has not the expected type, or running a command
    raised), the manager is exactly as before. *)
Theorem mount_changes_only_on_success :
  forall (W : Type) (h : Handler W) (w : W) (m : Manager),
    (forall msg, result_of (exec h mount_microbit m w) = Ok (false, msg) ->
       manager_of (exec h mount_microbit m w) = m)
    /\ (forall e, result_of (exec h mount_microbit m w) = Raised e ->
          manager_of (exec h mount_microbit m w) = m).
Proof.
  intros W h w m. pose proof (mount_microbit_post h m w) as H.
  split; [intros msg Hr | intros e Hr]; rewrite Hr in H; exact H.
Qed.

Lemma mount_changes_only_on_success_witness :
  manager_of (exec bench mount_microbit manager_latched bench_unplugged)
  = manager_latched.
Proof.
  exact (proj1 (mount_changes_only_on_success Bench bench bench_unplugged
                  manager_latched)
           "No microbit block device found" eq_refl).
Defined.

(** X4. When the device resolves to [d], the mount table does not show the
    mount point, the mount point is created, and the mount command fails
    with a standard error that contains "already mounted" in any case,
    [mount_microbit] reports success with "Already mounted d" and records
    [d] as the mounted device. *)
Theorem mount_already_mounted_diagnostic :
  forall (W : Type) (h : Handler W) (w : W) (m : Manager)
         (d out stderr : string) (returncode : Z),
    let w1 := world_of (exec h get_microbit_block_device m w) in
    let w2 := world_of (exec h is_microbit_mounted m w1) in
    let w3 := snd (h (SubprocessRun ("sudo mkdir -p " ++ mount_point)) w2) in
    result_of (exec h get_microbit_block_device m w) = Ok (Some d) ->
    result_of (exec h is_microbit_mounted m w1) = Ok false ->
    fst (h (SubprocessRun ("sudo mkdir -p " ++ mount_point)) w2) = Completed out ->
    fst (h (SubprocessRun ("sudo mount " ++ d ++ " " ++ mount_point)) w3)
    = CalledProcessError returncode stderr ->
    occurs_ci "already mounted" stderr ->
    result_of (exec h mount_microbit m w) = Ok (true, "Already mounted " ++ d)
    /\ manager_of (exec h mount_microbit m w)
       = set_microbit_device (Some d) (set_is_mounted true m).
Proof.
  intros W h w m d out stderr returncode w1 w2 w3 Hd Hmt Hmk Hmount Hocc.
  assert (Hne : d <> "") by exact (get_microbit_block_device_nonempty h m w d Hd).
  subst w3 w2 w1. unfold mount_microbit. rewrite exec_bind.
  pose proof (readonly_get_microbit_block_device W h m w) as Hro.
  destruct (exec h get_microbit_block_device m w) as [[[r m1] w1] t1].
  unfold manager_of in Hro; unfold result_of in Hd; unfold world_of in Hmt, Hmk, Hmount;
    simpl in Hro, Hd, Hmt, Hmk, Hmount; subst m1 r. cbv beta iota.
  simpl truthy_device. destruct (String.eqb_spec d ""); [contradiction |].
  rewrite exec_bind.
  pose proof (readonly_is_microbit_mounted W h m w1) as Hro2.
  destruct (exec h is_microbit_mounted m w1) as [[[r2 m2] w2] t2].
  unfold manager_of in Hro2; unfold result_of in Hmt; simpl in Hro2, Hmt, Hmk, Hmount;
    subst m2 r2. cbv beta iota.
  rewrite exec_bind, exec_run_command_with_error.
  destruct (fst (h (SubprocessRun ("sudo mkdir -p " ++ mount_point)) _))
    as [out1 | rc1 err1 | e1] eqn:E1;
    [| pose proof (eq_trans (eq_sym E1) Hmk) as X; discriminate X
     | pose proof (eq_trans (eq_sym E1) Hmk) as X; discriminate X].
  reduce_run. simpl negb. cbv iota.
  rewrite exec_bind, exec_run_command_with_error.
  destruct (fst (h (SubprocessRun ("sudo mount " ++ d ++ " " ++ mount_point)) _))
    as [out2 | rc2 err2 | e2] eqn:E2;
    pose proof (eq_trans (eq_sym E2) Hmount) as X;
    [discriminate X | | discriminate X].
  injection X as -> ->. reduce_run.
  rewrite (occurs_ci_found "already mounted" stderr returncode eq_refl eq_refl Hocc).
  unfold record_mounted. exec_steps. simpl. split; reflexivity.
Qed.

Lemma mount_already_mounted_diagnostic_witness :
  result_of (exec bench_mount_refused mount_microbit manager0 bench_idle)
  = Ok (true, "Already mounted /dev/sdb")
  /\ manager_of (exec bench_mount_refused mount_microbit manager0 bench_idle)
     = manager_mounted.
Proof.
  refine (mount_already_mounted_diagnostic Bench bench_mount_refused bench_idle
            manager0 "/dev/sdb" ""
            "mount: /mnt/microbit: /dev/sdb Already Mounted on /mnt/microbit." 32
            eq_refl eq_refl eq_refl eq_refl _).
  exists "mount: /mnt/microbit: /dev/sdb ", "Already Mounted", " on /mnt/microbit.".
  split; reflexivity.
Defined.

(** A run of [unmount_microbit] that issued the [umount] command ends as the
    part of the method that starts with that command. *)
Lemma unmount_command_issued {W : Type} (h : Handler W) m w (a : ProcResult) :
  In (Ev (SubprocessRun umount_command) a) (trace_of (exec h unmount_microbit m w)) ->
  exists w0,
    fst (h (SubprocessRun umount_command) w0) = a
    /\ result_of (exec h unmount_microbit m w)
       = result_of (exec h unmount_after_check m w0)
    /\ manager_of (exec h unmount_microbit m w)
       = manager_of (exec h unmount_after_check m w0).
Proof.
  intros Hin. rewrite exec_unmount_microbit in *.
  destruct (is_mounted m).
  - rewrite trace_unmount_after_check in Hin.
    destruct Hin as [Hin | []]. apply Ev_subprocess in Hin.
    exists w. auto.
  - cbv zeta in *.
    destruct (result_of (exec h is_microbit_mounted m w)) as [[|] | e].
    2, 3: (destruct Hin as [Hin | []]; apply Ev_request in Hin; discriminate).
    unfold trace_of at 1 in Hin; simpl snd in Hin.
    rewrite trace_unmount_after_check in Hin.
    destruct Hin as [Hin | [Hin | []]].
    + apply Ev_request in Hin; discriminate.
    + apply Ev_subprocess in Hin.
      exists (snd (h (SubprocessRun "mount") w)). auto.
Qed.

(** X5. In every run of [unmount_microbit] in which the [umount] command
    failed with a standard error that contains "not mounted" in any case, the
    method reports success with "Microbit was not mounted" and leaves the
    manager unmounted with no device, whatever else the diagnostic says: this
    test comes first in the classification. *)
Theorem unmount_not_mounted_diagnostic :
  forall (W : Type) (h : Handler W) (w : W) (m : Manager)
         (returncode : Z) (stderr : string),
    In (Ev (SubprocessRun umount_command) (CalledProcessError returncode stderr))
       (trace_of (exec h unmount_microbit m w)) ->
    occurs_ci "not mounted" stderr ->
    result_of (exec h unmount_microbit m w) = Ok (true, "Microbit was not mounted")
    /\ manager_of (exec h unmount_microbit m w)
       = set_microbit_device None (set_is_mounted false m).
Proof.
  intros W h w m returncode stderr Hin Hocc.
  destruct (unmount_command_issued h m w _ Hin) as [w0 [Ha [-> ->]]].
  unfold unmount_after_check.
  rewrite exec_bind, exec_run_command_with_error, Ha. reduce_run.
  rewrite (occurs_ci_found "not mounted" stderr returncode eq_refl eq_refl Hocc).
  unfold record_unmounted. exec_steps. split; reflexivity.
Qed.

Lemma unmount_not_mounted_diagnostic_witness :
  result_of (exec bench unmount_microbit manager_mounted bench_busy_and_not_mounted)
  = Ok (true, "Microbit was not mounted")
  /\ manager_of (exec bench unmount_microbit manager_mounted bench_busy_and_not_mounted)
     = set_microbit_device None (set_is_mounted false manager_mounted).
Proof.
  apply (unmount_not_mounted_diagnostic Bench bench bench_busy_and_not_mounted
           manager_mounted 32 "umount: /mnt/microbit: not mounted (target is busy)").
  - vm_compute. left; reflexivity.
  - exists "umount: /mnt/microbit: ", "not mounted", " (target is busy)".
    split; reflexivity.
Defined.



(** * Detection *)

Lemma append_cons (c : ascii) (a b : string) : String c a ++ b = String c (a ++ b).
Proof. reflexivity. Qed.

Lemma append_nil (b : string) : "" ++ b = b.
Proof. reflexivity. Qed.

Lemma rstrip_char_no_trailing (d : ascii) (s x : string) :
  PyStr.rstrip_char d s <> x ++ String d "".
Proof.
  revert x; induction s as [| c t IH]; intros x; simpl.
  - destruct x; [rewrite append_nil | rewrite append_cons]; discriminate.
  - destruct (PyStr.rstrip_char d t) as [| r0 r] eqn:E.
    + destruct (Ascii.eqb_spec c d) as [-> | Hne].
      * destruct x; [rewrite append_nil | rewrite append_cons]; discriminate.
      * destruct x as [| x0 x]; [rewrite append_nil; congruence |].
        rewrite append_cons. destruct x; [rewrite append_nil | rewrite append_cons];
          discriminate.
    + destruct x as [| x0 x]; [rewrite append_nil; discriminate |].
      rewrite append_cons. intros H. injection H as _ H. exact (IH x H).
Qed.

Lemma detect_in_lines_sound lines :
  match detect_in_lines lines with
  | (false, info) => info = None
  | (true, info) =>
      exists line bus device,
        In line lines
        /\ PyStr.contains microbit_vendor_id line = true
        /\ PyStr.contains microbit_product_id line = true
        /\ info = Some ("Bus " ++ bus ++ " Device " ++ device)
        /\ forall x, device <> x ++ ":"
  end.
Proof.
  induction lines as [| line rest IH]; [reflexivity |].
  unfold detect_in_lines; fold detect_in_lines.
  assert (Hrest : match detect_in_lines rest with
                  | (false, info) => info = None
                  | (true, info) =>
                      exists l bus device,
                        In l (line :: rest)
                        /\ PyStr.contains microbit_vendor_id l = true
                        /\ PyStr.contains microbit_product_id l = true
                        /\ info = Some ("Bus " ++ bus ++ " Device " ++ device)
                        /\ forall x, device <> x ++ ":"
                  end).
  { destruct (detect_in_lines rest) as [[|] info]; [| exact IH].
    destruct IH as [l [bus [device [Hin Hrest]]]].
    exists l, bus, device. split; [right; exact Hin | exact Hrest]. }
  destruct (PyStr.contains microbit_vendor_id line) eqn:Ev;
    destruct (PyStr.contains microbit_product_id line) eqn:Ep; simpl andb; cbv iota;
    try exact Hrest.
  destruct (PyStr.split_ws line) as [| p0 [| bus [| p2 [| device more]]]];
    try exact Hrest.
  exists line, bus, (PyStr.rstrip_char ":" device).
  split; [left; reflexivity |]. split; [exact Ev |]. split; [exact Ep |].
  split; [reflexivity |]. intros x. apply rstrip_char_no_trailing.
Qed.

(** X7. [detect_microbit] reports "not connected" with no locator when
    [lsusb] fails, and whenever it reports "not connected" the locator is
    none.  When it reports "connected", some line of the trimmed [lsusb]
    output contains both the vendor and the product identifier, and the
    locator reads "Bus b Device d" where [d] does not end with a colon. *)
Theorem detect_microbit_sound :
  forall (W : Type) (h : Handler W) (w : W) (m : Manager),
    (forall returncode stderr,
        fst (h (SubprocessRun "lsusb") w) = CalledProcessError returncode stderr ->
        result_of (exec h detect_microbit m w) = Ok (false, None))
    /\ (forall info,
          result_of (exec h detect_microbit m w) = Ok (false, info) -> info = None)
    /\ (forall info,
          result_of (exec h detect_microbit m w) = Ok (true, info) ->
          exists stdout line bus device,
            fst (h (SubprocessRun "lsusb") w) = Completed stdout
            /\ In line (PyStr.split_on newline (PyStr.strip stdout))
            /\ PyStr.contains microbit_vendor_id line = true
            /\ PyStr.contains microbit_product_id line = true
            /\ info = Some ("Bus " ++ bus ++ " Device " ++ device)
            /\ forall x, device <> x ++ ":").
Proof.
  intros W h w m. rewrite exec_detect_microbit. unfold result_of; cbn [fst].
  destruct (fst (h (SubprocessRun "lsusb") w)) as [stdout | rc err | e] eqn:E;
    unfold detection_of, output_of; cbv beta iota.
  - match goal with
    | |- context [detect_in_lines ?L] =>
        pose proof (detect_in_lines_sound L) as Hs;
        destruct (detect_in_lines L) as [connected locator]
    end.
    split; [intros returncode stderr Hr; cbn in Hr; discriminate Hr |]. split.
    + intros info Hr. injection Hr as -> ->. exact Hs.
    + intros info Hr. injection Hr as -> ->.
      destruct Hs as [line [bus [device Hs]]].
      exists stdout, line, bus, device. split; [reflexivity | exact Hs].
  - split; [intros returncode stderr Hr; reflexivity |]. split.
    + intros info Hr. vm_compute in Hr. injection Hr as <-. reflexivity.
    + intros info Hr. vm_compute in Hr. discriminate Hr.
  - split; [intros returncode stderr Hr; discriminate Hr |].
    split; intros info Hr; discriminate Hr.
Qed.

Lemma detect_microbit_sound_witness :
  exists stdout line bus device,
    fst (bench (SubprocessRun "lsusb") bench_idle) = Completed stdout
    /\ In line (PyStr.split_on newline (PyStr.strip stdout))
    /\ PyStr.contains microbit_vendor_id line = true
    /\ PyStr.contains microbit_product_id line = true
    /\ Some "Bus 001 Device 004" = Some ("Bus " ++ bus ++ " Device " ++ device)
    /\ forall x, device <> x ++ ":".
Proof.
  exact (proj2 (proj2 (detect_microbit_sound Bench bench bench_idle manager0))
           (Some "Bus 001 Device 004") eq_refl).
Defined.

(** * The automatic transitions of the poll cycle *)

(** X8. The status check with the board detected, the manager unmounted and
    the latch clear attempts a mount.  If the mount succeeds the manager is
    mounted, with the device recorded and the mount's message as the status
    message; if the mount returns a failure the manager is exactly as before:
    the failure message of an automatic mount is not shown. *)
Theorem auto_mount_on_connection :
  forall (W : Type) (h : Handler W) (w : W) (m : Manager) (info : option string),
    result_of (exec h detect_microbit m w) = Ok (true, info) ->
    is_mounted m = false ->
    manual_unmount m = false ->
    (forall msg,
        result_of (exec h mount_microbit m (world_of (exec h detect_microbit m w)))
        = Ok (true, msg) ->
        manager_of (exec h check_microbit_status m w)
        = set_status_message msg
            (manager_of (exec h mount_microbit m (world_of (exec h detect_microbit m w))))
        /\ is_mounted (manager_of (exec h check_microbit_status m w)) = true
        /\ microbit_device (manager_of (exec h check_microbit_status m w)) <> None)
    /\ (forall msg,
          result_of (exec h mount_microbit m (world_of (exec h detect_microbit m w)))
          = Ok (false, msg) ->
          manager_of (exec h check_microbit_status m w) = m).
Proof.
  intros W h w m info Hdet Hm Hl.
  unfold check_microbit_status. rewrite exec_bind.
  destruct (exec h detect_microbit m w) as [[[r0 m0] w0] t0] eqn:E0.
  pose proof (readonly_detect_microbit W h m w) as Hro. rewrite E0 in Hro.
  unfold result_of in Hdet; unfold manager_of in Hro; unfold world_of;
    simpl in Hdet, Hro |- *. subst r0 m0. cbv beta iota.
  exec_steps. rewrite Hm, Hl. simpl andb. cbv iota.
  rewrite exec_bind.
  pose proof (mount_microbit_post h m w0) as Hpost.
  destruct (exec h mount_microbit m w0) as [[[r1 m1] w1] t1].
  unfold result_of, manager_of in *; simpl in Hpost |- *.
  split; intros msg Hr; subst r1; cbv beta iota; exec_steps; simpl.
  - destruct Hpost as [d [_ ->]]. simpl. repeat split. discriminate.
  - exact Hpost.
Qed.

Lemma auto_mount_on_connection_witness :
  manager_of (exec bench check_microbit_status manager0 bench_idle)
  = set_status_message "Mounted /dev/sdb to /mnt/microbit" manager_mounted.
Proof.
  exact (proj1 (proj1 (auto_mount_on_connection Bench bench bench_idle manager0
                         (Some "Bus 001 Device 004") eq_refl eq_refl eq_refl)
                  "Mounted /dev/sdb to /mnt/microbit" eq_refl)).
Defined.



(** * The selected index *)

Lemma selected_idx_mount {W : Type} (h : Handler W) m w :
  selected_file_idx (manager_of (exec h mount_microbit m w)) = selected_file_idx m.
Proof.
  pose proof (mount_microbit_post h m w) as H.
  destruct (result_of (exec h mount_microbit m w)) as [[[|] msg] | e].
  - destruct H as [d [_ ->]]. reflexivity.
  - rewrite H; reflexivity.
  - rewrite H; reflexivity.
Qed.

Lemma selected_idx_unmount {W : Type} (h : Handler W) m w :
  selected_file_idx (manager_of (exec h unmount_microbit m w)) = selected_file_idx m.
Proof.
  pose proof (unmount_microbit_post h m w) as H.
  destruct (result_of (exec h unmount_microbit m w)) as [[[|] msg] | e].
  - destruct H as [-> | [_ ->]]; reflexivity.
  - rewrite H; reflexivity.
  - rewrite H; reflexivity.
Qed.

Lemma index_in_range_adjust hex_files :
  forall (W : Type) (h : Handler W) m w,
    index_nonneg m ->
    index_in_range hex_files (manager_of (exec h (adjust_selected hex_files) m w)).
Proof.
  intros W h m w Hm. unfold adjust_selected, index_nonneg, index_in_range in *.
  destruct hex_files as [| f fs]; cbv iota; rewrite exec_modify;
    unfold manager_of; cbn [fst snd selected_file_idx set_selected_file_idx].
  - split; [lia | congruence].
  - change (List.length (f :: fs)) with (S (List.length fs)).
    split; [| intros _]; lia.
Qed.

(** Goes through a branch of the key handler that does not move the
    selection. *)
Ltac keeps_index I_mount I_unmount :=
  repeat match goal with
         | |- preserves _ mount_microbit => exact I_mount
         | |- preserves _ unmount_microbit => exact I_unmount
         | |- preserves _ (bind _ _) => apply preserves_bind; [| intros ?]
         | |- preserves _ (modify _) =>
             apply preserves_modify; intros ? ?; assumption
         | |- preserves _ (match ?x with _ => _ end) => destruct x
         | |- preserves _ (if ?x then _ else _) => destruct x
         | |- preserves _ _ => apply preserves_readonly; solve [prove_readonly]
         end.

Lemma index_in_range_handle_key key hex_files :
  preserves (index_in_range hex_files) (handle_key key hex_files).
Proof.
  assert (I_mount : preserves (index_in_range hex_files) mount_microbit).
  { intros W h m w Hm. unfold index_in_range in *.
    rewrite selected_idx_mount. exact Hm. }
  assert (I_unmount : preserves (index_in_range hex_files) unmount_microbit).
  { intros W h m w Hm. unfold index_in_range in *.
    rewrite selected_idx_unmount. exact Hm. }
  unfold handle_key.
  destruct (key =? ord_q); [keeps_index I_mount I_unmount |].
  destruct ((key =? KEY_UP) || (key =? ord_k)).
  { intros W h m w [H0 Hlen]. exec_steps.
    destruct (nonempty hex_files && (selected_file_idx m >? 0)) eqn:E;
      exec_steps; unfold manager_of, index_in_range;
      cbn [fst snd selected_file_idx set_selected_file_idx]; [| auto].
    apply andb_true_iff in E. destruct E as [Hne Hgt].
    apply Z.gtb_lt in Hgt. split; [lia |].
    intros Hl. specialize (Hlen Hl). lia. }
  destruct ((key =? KEY_DOWN) || (key =? ord_j)).
  { intros W h m w [H0 Hlen]. exec_steps.
    destruct (nonempty hex_files
              && (selected_file_idx m <? Z.of_nat (List.length hex_files) - 1)) eqn:E;
      exec_steps; unfold manager_of, index_in_range;
      cbn [fst snd selected_file_idx set_selected_file_idx]; [| auto].
    apply andb_true_iff in E. destruct E as [Hne Hlt].
    apply Z.ltb_lt in Hlt. split; [lia | intros _; lia]. }
  keeps_index I_mount I_unmount.
Qed.

Lemma index_nonneg_handle_key key hex_files :
  preserves index_nonneg (handle_key key hex_files).
Proof.
  assert (I_mount : preserves index_nonneg mount_microbit).
  { intros W h m w Hm. unfold index_nonneg in *.
    rewrite selected_idx_mount. exact Hm. }
  assert (I_unmount : preserves index_nonneg unmount_microbit).
  { intros W h m w Hm. unfold index_nonneg in *.
    rewrite selected_idx_unmount. exact Hm. }
  unfold handle_key.
  destruct (key =? ord_q); [keeps_index I_mount I_unmount |].
  destruct ((key =? KEY_UP) || (key =? ord_k)).
  { intros W h m w H0. unfold index_nonneg in H0. exec_steps.
    destruct (nonempty hex_files && (selected_file_idx m >? 0)) eqn:E;
      exec_steps; unfold manager_of, index_nonneg;
      cbn [fst snd selected_file_idx set_selected_file_idx]; [| auto].
    apply andb_true_iff in E. destruct E as [Hne Hgt].
    apply Z.gtb_lt in Hgt. lia. }
  destruct ((key =? KEY_DOWN) || (key =? ord_j)).
  { intros W h m w H0. unfold index_nonneg in H0. exec_steps.
    destruct (nonempty hex_files
              && (selected_file_idx m <? Z.of_nat (List.length hex_files) - 1));
      exec_steps; unfold manager_of, index_nonneg;
      cbn [fst snd selected_file_idx set_selected_file_idx]; [lia | auto]. }
  keeps_index I_mount I_unmount.
Qed.

Lemma py_index_in_range hex_files m :
  hex_files <> [] -> index_in_range hex_files m ->
  exists f, py_index hex_files (selected_file_idx m) = Some f.
Proof.
  intros Hne [H0 Hlen]. specialize (Hlen Hne). unfold py_index.
  destruct (Z.ltb_spec (selected_file_idx m) 0); [lia |].
  destruct (nth_error hex_files (Z.to_nat (selected_file_idx m))) as [f |] eqn:E;
    [eauto |].
  apply nth_error_None in E. lia.
Qed.

(** With the selection in range the Enter key, in any of its three codes,
    finds the image it copies: it returns, having copied the selected image
    or only set the status message, or it raises what running the copy
    command of the selected image raised. *)
Lemma handle_key_enter_outcome {W : Type} (h : Handler W) key hex_files m w :
  (key =? ord_q) = false ->
  (key =? KEY_UP) || (key =? ord_k) = false ->
  (key =? KEY_DOWN) || (key =? ord_j) = false ->
  (key =? ord_newline) || (key =? KEY_ENTER) || (key =? 10) = true ->
  index_in_range hex_files m ->
  result_of (exec h (handle_key key hex_files) m w) = Ok true
  \/ exists f e,
       py_index hex_files (selected_file_idx m) = Some f
       /\ result_of (exec h (handle_key key hex_files) m w) = Raised e
       /\ after_command (copy_command (hex_path f) (dest_path_of (hex_path f)))
            (trace_of (exec h (handle_key key hex_files) m w))
          = Some (RunRaised e, []).
Proof.
  intros Hq Hup Hdown Henter Hr. unfold handle_key.
  rewrite Hq, Hup, Hdown, Henter. exec_steps.
  destruct (nonempty hex_files && is_mounted m) eqn:E.
  - apply andb_true_iff in E. destruct E as [Hne Hm].
    assert (Hne' : hex_files <> []) by (destruct hex_files; discriminate).
    destruct (py_index_in_range hex_files m Hne' Hr) as [f Hf].
    exec_steps. rewrite Hf. rewrite exec_bind.
    pose proof (cp_raise_copy_hex_file (hex_path f) W h m w) as Hcp.
    destruct (exec h (copy_hex_file (hex_path f)) m w) as [[[r1 m1] w1] t1].
    unfold result_of, trace_of in Hcp |- *; simpl in Hcp.
    destruct r1 as [[success msg] | e]; cbv beta iota.
    + left. exec_steps. reflexivity.
    + right. exists f, e. split; [reflexivity |]. split; [reflexivity |].
      simpl. exact (Hcp e eq_refl).
  - left. destruct (negb (is_mounted m)); exec_steps; reflexivity.
Qed.

Lemma index_nonneg_mount : preserves index_nonneg mount_microbit.
Proof.
  intros W h m w H. unfold index_nonneg. rewrite selected_idx_mount. exact H.
Qed.

Lemma index_nonneg_unmount : preserves index_nonneg unmount_microbit.
Proof.
  intros W h m w H. unfold index_nonneg. rewrite selected_idx_unmount. exact H.
Qed.

Lemma index_nonneg_adjust hex_files : preserves index_nonneg (adjust_selected hex_files).
Proof.
  intros W h m w H. exact (proj1 (index_in_range_adjust hex_files W h m w H)).
Qed.

Lemma index_nonneg_check_microbit_status : preserves index_nonneg check_microbit_status.
Proof.
  apply invariant_check_microbit_status;
    [intros s m H; exact H | intros b m H; exact H
    | exact index_nonneg_mount | exact index_nonneg_unmount].
Qed.

Lemma index_nonneg_main_loop_iteration : preserves index_nonneg main_loop_iteration.
Proof.
  apply invariant_main_loop_iteration;
    [intros s m H; exact H | intros b m H; exact H
    | exact index_nonneg_mount | exact index_nonneg_unmount
    | exact index_nonneg_adjust | exact index_nonneg_handle_key].
Qed.

Lemma index_nonneg_reachable m : reachable m -> index_nonneg m.
Proof.
  apply (invariant_reachable index_nonneg);
    [intros s m0 H; exact H | intros b m0 H; exact H
    | exact index_nonneg_mount | exact index_nonneg_unmount
    | exact index_nonneg_adjust | exact index_nonneg_handle_key |].
  intros downloads. unfold index_nonneg; simpl; lia.
Qed.

(** X10. At every manager reached from [__init__] the selected index is not
    negative, and once the poll cycle has adjusted it to a listing it
    designates an item of that listing whenever the listing has one; every
    key keeps it so.  The Enter key therefore finds the image it copies: it
    returns, or it raises what running the copy command of the selected
    image raised, that command being the last thing asked; indexing the
    listing never fails. *)
Theorem selected_index_in_range :
  forall m : Manager, reachable m ->
    0 <= selected_file_idx m
    /\ forall (hex_files : list HexFile) (W : Type) (h : Handler W) (w : W),
        let adjusted := manager_of (exec h (adjust_selected hex_files) m w) in
        index_in_range hex_files adjusted
        /\ (forall key w',
               index_in_range hex_files
                 (manager_of (exec h (handle_key key hex_files) adjusted w')))
        /\ (forall w',
               result_of (exec h (handle_key ord_newline hex_files) adjusted w')
               = Ok true
               \/ exists f e,
                    py_index hex_files (selected_file_idx adjusted) = Some f
                    /\ result_of (exec h (handle_key ord_newline hex_files) adjusted w')
                       = Raised e
                    /\ after_command
                         (copy_command (hex_path f) (dest_path_of (hex_path f)))
                         (trace_of (exec h (handle_key ord_newline hex_files)
                                      adjusted w'))
                       = Some (RunRaised e, [])).
Proof.
  intros m Hm. pose proof (index_nonneg_reachable m Hm) as H0.
  split; [exact H0 |].
  intros hex_files W h w adjusted.
  assert (Hr : index_in_range hex_files adjusted)
    by (apply index_in_range_adjust; exact H0).
  split; [exact Hr | split].
  - intros key w'. apply index_in_range_handle_key. exact Hr.
  - intros w'. apply handle_key_enter_outcome; [reflexivity .. | exact Hr].
Qed.

Lemma selected_index_in_range_witness :
  0 <= selected_file_idx manager_mounted
  /\ index_in_range
       [{| hex_path := "/home/pi/Downloads/blink.hex";
           hex_name := "blink.hex"; hex_size := 15;
           hex_mtime := "2023-11-14 22:13" |}]
       (manager_of (exec bench
          (handle_key KEY_DOWN
             [{| hex_path := "/home/pi/Downloads/blink.hex";
                 hex_name := "blink.hex"; hex_size := 15;
                 hex_mtime := "2023-11-14 22:13" |}])
          (manager_of (exec bench
             (adjust_selected
                [{| hex_path := "/home/pi/Downloads/blink.hex";
                    hex_name := "blink.hex"; hex_size := 15;
                    hex_mtime := "2023-11-14 22:13" |}])
             manager_mounted bench_mounted))
          bench_mounted)).
Proof.
  pose proof (selected_index_in_range manager_mounted
                (reach_step Bench bench bench_idle OpMount manager0
                   (reach_init "/home/pi/Downloads"))) as [H0 H].
  split; [exact H0 |].
  exact (proj1 (proj2 (H _ Bench bench bench_mounted)) KEY_DOWN bench_mounted).
Defined.

(** * [run] and its [finally] clause *)

Lemma exec_manager_run {W : Type} (h : Handler W) fuel m w :
  exec h (manager_run fuel) m w =
  let '(r, m1, w1, t1) := exec h (main_loop fuel) m w in
  match r with
  | Ok false => (Ok false, m1, w1, t1)
  | _ =>
      let '(r2, m2, w2, t2) := exec h cleanup m1 w1 in
      (match r2 with Ok _ => r | Raised e => Raised e end, m2, w2, (t1 ++ t2)%list)
  end.
Proof.
  unfold exec, manager_run. rewrite run_pbind.
  destruct (run h (main_loop fuel m) w) as [[[r m1] w1] t1].
  cbv beta iota. simpl fst. simpl snd.
  assert (Hfin :
    run h (try_finally (fun m0 => Ret (r, m0)) cleanup m1) w1 =
    let '(r2, m2, w2, t2) := run h (cleanup m1) w1 in
    (match r2 with Ok _ => r | Raised e => Raised e end, m2, w2, t2)).
  { unfold try_finally. simpl pbind. rewrite run_pbind.
    destruct (run h (cleanup m1) w1) as [[[r2 m2] w2] t2].
    simpl fst; simpl snd. destruct r2; simpl; rewrite app_nil_r; reflexivity. }
  destruct r as [[|] | e].
  - rewrite Hfin. destruct (run h (cleanup m1) w1) as [[[r2 m2] w2] t2]. reflexivity.
  - simpl. rewrite app_nil_r. reflexivity.
  - rewrite Hfin. destruct (run h (cleanup m1) w1) as [[[r2 m2] w2] t2]. reflexivity.
Qed.

(** The [finally] clause: nothing when the manager is unmounted, and the
    [umount] command when it is mounted; the outcome that the unmount
    returns is dropped, and what it raises is raised. *)
Lemma exec_cleanup {W : Type} (h : Handler W) m w :
  exec h cleanup m w =
  if is_mounted m then
    (match result_of (exec h unmount_after_check m w) with
     | Ok _ => Ok tt
     | Raised e => Raised e
     end,
     manager_of (exec h unmount_after_check m w),
     world_of (exec h unmount_after_check m w),
     [Ev (SubprocessRun umount_command) (fst (h (SubprocessRun umount_command) w))])
  else (Ok tt, m, w, []).
Proof.
  unfold cleanup. rewrite exec_bind, exec_gets. cbv beta iota.
  destruct (is_mounted m) eqn:Em; simpl app.
  - rewrite exec_bind, exec_unmount_microbit, Em.
    pose proof (trace_unmount_after_check h m w) as Ht.
    destruct (exec h unmount_after_check m w) as [[[r1 m1] w1] t1].
    unfold trace_of in Ht; simpl in Ht. subst t1.
    unfold result_of, manager_of, world_of. cbn [fst snd].
    destruct r1 as [outcome | e]; cbv beta iota.
    + rewrite exec_ret. reflexivity.
    + reflexivity.
  - rewrite exec_ret. reflexivity.
Qed.

(** What the [umount] command answered decides the unmount: done, a
    failure that is returned, or an exception that is raised with the
    manager untouched. *)
Lemma unmount_after_check_answer {W : Type} (h : Handler W) m w :
  match fst (h (SubprocessRun umount_command) w) with
  | Completed _ =>
      result_of (exec h unmount_after_check m w)
      = Ok (true, "Microbit unmounted successfully")
      /\ manager_of (exec h unmount_after_check m w)
         = set_microbit_device None (set_is_mounted false m)
  | CalledProcessError _ _ =>
      exists outcome, result_of (exec h unmount_after_check m w) = Ok outcome
  | RunRaised e =>
      result_of (exec h unmount_after_check m w) = Raised e
      /\ manager_of (exec h unmount_after_check m w) = m
  end.
Proof.
  unfold unmount_after_check. exec_steps.
  destruct (fst (h (SubprocessRun umount_command) w)) as [out | rc err | e];
    reduce_run; unfold record_unmounted.
  - exec_steps. split; reflexivity.
  - repeat match goal with
           | |- context [if ?b then _ else _] => destruct b
           end; exec_steps; eexists; reflexivity.
  - split; reflexivity.
Qed.

Lemma unmount_after_check_still_mounted {W : Type} (h : Handler W) m w :
  is_mounted (manager_of (exec h unmount_after_check m w)) = true ->
  (forall stdout, fst (h (SubprocessRun umount_command) w) <> Completed stdout)
  /\ manager_of (exec h unmount_after_check m w) = m.
Proof.
  unfold unmount_after_check. exec_steps.
  destruct (fst (h (SubprocessRun umount_command) w)) as [out | rc err | e];
    reduce_run; unfold record_unmounted.
  - exec_steps. unfold manager_of; simpl. discriminate.
  - intros H. split; [intros stdout; discriminate |]. revert H.
    repeat match goal with
           | |- context [if ?b then _ else _] => destruct b
           end; exec_steps; unfold manager_of; simpl; try discriminate; reflexivity.
  - intros _. split; [intros stdout; discriminate | reflexivity].
Qed.

(** The whole of [run] once its loop has ended, in terms of the loop and
    of the [umount] command of the [finally] clause. *)
Lemma manager_run_ended {W : Type} (h : Handler W) fuel m w :
  result_of (exec h (main_loop fuel) m w) <> Ok false ->
  exec h (manager_run fuel) m w =
  let loop := exec h (main_loop fuel) m w in
  if is_mounted (manager_of loop) then
    (match result_of (exec h unmount_after_check (manager_of loop) (world_of loop)) with
     | Ok _ => result_of loop
     | Raised e => Raised e
     end,
     manager_of (exec h unmount_after_check (manager_of loop) (world_of loop)),
     world_of (exec h unmount_after_check (manager_of loop) (world_of loop)),
     (trace_of loop
      ++ [Ev (SubprocessRun umount_command)
            (fst (h (SubprocessRun umount_command) (world_of loop)))])%list)
  else loop.
Proof.
  intros Hend. rewrite exec_manager_run. cbv zeta.
  destruct (exec h (main_loop fuel) m w) as [[[r m1] w1] t1].
  unfold result_of, manager_of, world_of, trace_of in *. cbn [fst snd] in *.
  assert (Hwhole :
    (let '(r2, m2, w2, t2) := exec h cleanup m1 w1 in
     (match r2 with Ok _ => r | Raised e => Raised e end, m2, w2, (t1 ++ t2)%list))
    = (if is_mounted m1 then
         (match fst (fst (fst (exec h unmount_after_check m1 w1))) with
          | Ok _ => r
          | Raised e => Raised e
          end,
          snd (fst (fst (exec h unmount_after_check m1 w1))),
          snd (fst (exec h unmount_after_check m1 w1)),
          (t1 ++ [Ev (SubprocessRun umount_command)
                    (fst (h (SubprocessRun umount_command) w1))])%list)
       else (r, m1, w1, t1))).
  { rewrite exec_cleanup. unfold result_of, manager_of, world_of.
    destruct (is_mounted m1).
    - destruct (fst (fst (fst (exec h unmount_after_check m1 w1)))); reflexivity.
    - rewrite app_nil_r. reflexivity. }
  destruct r as [[|] | e]; [| congruence |]; exact Hwhole.
Qed.



(** * The lines that the validation examines *)

Lemma total_len_nonneg lines : 0 <= total_len lines.
Proof.
  induction lines as [| l ls IH]; simpl; [lia |].
  unfold PyStr.len. lia.
Qed.

(** [readlines(hint)] returns the line of index [i] exactly when the lines
    before it hold at most [hint] characters. *)
Lemma take_hint_nth hint lines :
  forall total i line,
    total <= hint ->
    (nth_error (take_hint hint total lines) i = Some line
     <-> nth_error lines i = Some line
         /\ total + total_len (firstn i lines) <= hint).
Proof.
  induction lines as [| l ls IH]; intros total i line Htot.
  - simpl. destruct i; simpl; split; try discriminate; intros [H _]; discriminate.
  - cbn [take_hint].
    pose proof (total_len_nonneg (firstn (pred i) ls)) as Hnn.
    destruct (Z.gtb_spec (PyStr.len l) (hint - total)) as [Hover | Hfits].
    + destruct i as [| i]; cbn [nth_error firstn total_len fold_right].
      * split; [intros H; split; [exact H | lia] | intros [H _]; exact H].
      * simpl pred in Hnn. fold (total_len (firstn i ls)).
        split.
        -- destruct i; discriminate.
        -- intros [_ H]. lia.
    + destruct i as [| i]; cbn [nth_error firstn total_len fold_right].
      * split; [intros H; split; [exact H | lia] | intros [H _]; exact H].
      * fold (total_len (firstn i ls)).
        rewrite (IH (total + PyStr.len l) i line) by lia.
        rewrite Z.add_assoc. reflexivity.
Qed.

Lemma hex_line_count_positive lines :
  hex_line_count lines <> 0
  <-> exists i line,
        (i < 10)%nat /\ nth_error lines i = Some line /\ is_hex_line line = true.
Proof.
  unfold hex_line_count. split.
  - intros H.
    destruct (filter is_hex_line (firstn 10 lines)) as [| x xs] eqn:E;
      [simpl in H; congruence |].
    assert (Hin : In x (filter is_hex_line (firstn 10 lines)))
      by (rewrite E; left; reflexivity).
    apply filter_In in Hin. destruct Hin as [Hin Hx].
    apply In_nth_error in Hin. destruct Hin as [i Hi].
    assert (Hlt : (i < 10)%nat).
    { assert (Hsome : nth_error (firstn 10 lines) i <> None) by congruence.
      apply nth_error_Some in Hsome.
      pose proof (firstn_le_length 10 lines). lia. }
    exists i, x. split; [exact Hlt | split; [| exact Hx]].
    rewrite nth_error_firstn in Hi.
    destruct (Nat.ltb_spec i 10); [exact Hi | lia].
  - intros [i [line [Hlt [Hi Hx]]]].
    assert (Hin : In line (filter is_hex_line (firstn 10 lines))).
    { apply filter_In. split; [| exact Hx].
      apply (nth_error_In _ i). rewrite nth_error_firstn.
      destruct (Nat.ltb_spec i 10); [exact Hi | lia]. }
    destruct (filter is_hex_line (firstn 10 lines)); [destruct Hin |].
    simpl. lia.
Qed.

(** X12. A readable file is accepted by [validate_hex_file] exactly when one
    of its examined lines is a record line; a line is examined when it is
    among the first ten and the lines before it hold at most 100 characters
    together, which is what [readlines(100)] returns.  A record line is one
    that, stripped, starts with a colon, has at least 11 characters, and is
    accepted by [int(_, 16)] after the colon. *)
Theorem validate_hex_file_accepts_iff :
  forall (W : Type) (h : Handler W) (path : string) (m : Manager) (w : W)
         (text : string),
    fst (h (ReadText path) w) = inr text ->
    (result_of (exec h (validate_hex_file path) m w) = Ok (true, "Valid HEX file")
     <-> exists i line, examined text i line /\ is_hex_line line = true).
Proof.
  intros W h path m w text Hread.
  rewrite exec_validate_hex_file, Hread.
  unfold result_of, validation_of; simpl fst.
  assert (Hseen :
    (exists i line, (i < 10)%nat /\ nth_error (readlines 100 text) i = Some line
                    /\ is_hex_line line = true)
    <-> exists i line, examined text i line /\ is_hex_line line = true).
  { unfold examined, readlines.
    split; intros [i [line H]]; exists i, line.
    - destruct H as [Hlt [Hi Hx]].
      apply take_hint_nth in Hi; [| lia]. destruct Hi as [Hi Hsum].
      repeat split; try assumption; lia.
    - destruct H as [[Hlt [Hi Hsum]] Hx].
      repeat split; try assumption.
      apply take_hint_nth; [lia |]. split; [exact Hi | lia]. }
  rewrite <- Hseen. rewrite <- hex_line_count_positive.
  destruct (readlines 100 text) as [| line lines] eqn:E.
  - split; [discriminate | intros H; exfalso; apply H; reflexivity].
  - destruct (Z.eqb_spec (hex_line_count (line :: lines)) 0) as [H0 | H0].
    + split; [discriminate | congruence].
    + split; [intros _; exact H0 | reflexivity].
Qed.

Lemma validate_hex_file_accepts_iff_witness :
  result_of (exec bench (validate_hex_file blink_hex) manager0 bench_idle)
  = Ok (true, "Valid HEX file").
Proof.
  apply (proj2 (validate_hex_file_accepts_iff Bench bench blink_hex manager0 bench_idle
                  ":020000040000FA" eq_refl)).
  exists 0%nat, ":020000040000FA".
  split; [| vm_compute; reflexivity].
  split; [lia | split; [reflexivity | vm_compute; discriminate]].
Defined.

(** * The guards of the transfer *)

Lemma classify_copy_error_fails result : fst (classify_copy_error result) = false.
Proof.
  unfold classify_copy_error.
  repeat match goal with |- context [if ?b then _ else _] => destruct b end; reflexivity.
Qed.

(** The space check ends the method only with a failure. *)
Lemma check_space_verdict {W : Type} (h : Handler W) path m w v :
  result_of (exec h (check_space path) m w) = Ok (Some v) -> fst v = false.
Proof.
  unfold check_space, os_statvfs, os_path_getsize. exec_steps.
  destruct (fst (h (StatVfsOf mount_point) w)) as [e | statvfs]; cbv beta iota.
  - exec_steps. discriminate.
  - exec_steps.
    destruct (fst (h (GetSize path) _)) as [e | file_size]; cbv beta iota.
    + exec_steps. discriminate.
    + destruct (f_frsize statvfs * f_bavail statvfs <? file_size);
        exec_steps; unfold result_of; simpl; intros H; [| discriminate].
      injection H as <-. reflexivity.
Qed.

(** X13. [copy_hex_file] returns success only after every guard has passed,
    in the order of the source: the manager is mounted, the source exists
    and is a regular file, its text was read and validated, it was read a
    second time, the mount point exists, the space check ran without any
    shell command, the [cp] command from the source to the mount point
    reported success, and the destination was found on the board. *)
Theorem copy_success_guards :
  forall (W : Type) (h : Handler W) (path : string) (m : Manager) (w : W)
         (msg : string),
    result_of (exec h (copy_hex_file path) m w) = Ok (true, msg) ->
    is_mounted m = true
    /\ exists text again space out post,
        trace_of (exec h (copy_hex_file path) m w)
        = ([Ev (PathExists path) true; Ev (PathIsFile path) true;
            Ev (ReadText path) (inr text); Ev (ReadText path) (inr again);
            Ev (PathExists mount_point) true]
           ++ space
           ++ Ev (SubprocessRun (copy_command path (dest_path_of path))) (Completed out)
           :: Ev (PathExists (dest_path_of path)) true :: post)%list
        /\ fst (validation_of (inr text)) = true
        /\ shell_free space.
Proof.
  intros W h path m w msg.
  unfold copy_hex_file, read_text. exec_steps.
  destruct (is_mounted m); [| simpl; exec_steps; discriminate].
  simpl negb. cbv iota. exec_steps.
  destruct (fst (h (PathExists path) w)) eqn:E1; simpl negb; cbv iota.
  2: { exec_steps. discriminate. }
  exec_steps.
  destruct (fst (h (PathIsFile path) _)) eqn:E2; simpl negb; cbv iota.
  2: { exec_steps. discriminate. }
  exec_steps. rewrite exec_validate_hex_file. cbv beta iota.
  destruct (fst (h (ReadText path) _)) as [e | text] eqn:E3.
  { simpl. exec_steps. discriminate. }
  destruct (validation_of (inr text)) as [[|] vmsg] eqn:Eval; simpl negb; cbv iota.
  2: { exec_steps. discriminate. }
  exec_steps.
  destruct (fst (h (ReadText path) (snd (h (ReadText path) _)))) as [e | again] eqn:E4;
    cbv beta iota.
  { exec_steps. destruct (is_PermissionError e); exec_steps; discriminate. }
  exec_steps.
  destruct (fst (h (PathExists mount_point) _)) eqn:E5; simpl negb; cbv iota.
  2: { exec_steps. discriminate. }
  exec_steps.
  match goal with
  | |- context [exec h (check_space path) m ?w5] =>
      destruct (check_space_quiet h path m w5) as [Hfree [_ [verdict Hv]]];
      pose proof (check_space_verdict h path m w5) as Hfail;
      destruct (exec h (check_space path) m w5) as [[[r5 m5] w6] space]
  end.
  unfold result_of in Hv, Hfail; simpl in Hv, Hfail; subst r5.
  unfold trace_of in Hfree; simpl in Hfree.
  cbv beta iota.
  destruct verdict as [[ok why] |].
  { specialize (Hfail _ eq_refl). simpl in Hfail. subst ok.
    exec_steps. discriminate. }
  exec_steps.
  destruct (fst (h (SubprocessRun _) w6)) as [out | rc err | e] eqn:E6; reduce_run.
  3: { unfold result_of; simpl fst. discriminate. }
  2: { exec_steps. unfold result_of; simpl fst. intros H.
       pose proof (classify_copy_error_fails (error_msg rc err)) as Hc.
       injection H as H. rewrite H in Hc. discriminate Hc. }
  match goal with
  | |- context [exec h (verify_copy ?p ?f ?d) ?m0 ?w7] =>
      pose proof (verify_copy_cases h p f d m0 w7) as Hcases;
      destruct (exec h (verify_copy p f d) m0 w7) as [[[r7 m7] w8] post]
  end.
  unfold result_of, trace_of in *. simpl fst in *. simpl snd in *.
  intros Hres. split; [reflexivity |].
  assert (Hpost : exists post', post = Ev (PathExists (dest_path_of path)) true :: post').
  { subst r7.
    destruct Hcases as [[Ht Hr] | [[e [Ht Hr]] | [[c [e [Ht Hr]]] | [c [o [Ht Hr]]]]]];
      try discriminate Hr; rewrite Ht; eexists; reflexivity. }
  destruct Hpost as [post' ->].
  exists text, again, space, out, post'.
  split; [| split; [exact (f_equal fst Eval) | exact Hfree]].
  simpl. reflexivity.
Qed.

Lemma copy_success_guards_witness :
  is_mounted manager_mounted = true
  /\ exists text again space out post,
      trace_of (exec bench (copy_hex_file blink_hex) manager_mounted bench_mounted)
      = ([Ev (PathExists blink_hex) true; Ev (PathIsFile blink_hex) true;
          Ev (ReadText blink_hex) (inr text); Ev (ReadText blink_hex) (inr again);
          Ev (PathExists mount_point) true]
         ++ space
         ++ Ev (SubprocessRun (copy_command blink_hex (dest_path_of blink_hex)))
              (Completed out)
         :: Ev (PathExists (dest_path_of blink_hex)) true :: post)%list
      /\ fst (validation_of (inr text)) = true
      /\ shell_free space.
Proof.
  apply (copy_success_guards Bench bench blink_hex manager_mounted bench_mounted
           "Successfully copied blink.hex (15 bytes)").
  vm_compute. reflexivity.
Defined.

(** X14. When the [cp] command of [copy_hex_file] fails, the method returns
    a failure and asks nothing more of the environment: the destination is
    not looked at.  The diagnostic is classified in the order of the
    source: one that mentions "no space left", in any case, gives "No space
    left on microbit" whatever else it mentions. *)
Theorem copy_command_failure :
  forall (W : Type) (h : Handler W) (w : W) (m : Manager)
         (path : string) (returncode : Z) (stderr : string) (post : Trace),
    after_command (copy_command path (dest_path_of path))
      (trace_of (exec h (copy_hex_file path) m w))
    = Some (CalledProcessError returncode stderr, post) ->
    post = []
    /\ (exists msg, result_of (exec h (copy_hex_file path) m w) = Ok (false, msg))
    /\ (occurs_ci "no space left" stderr ->
        result_of (exec h (copy_hex_file path) m w)
        = Ok (false, "No space left on microbit")).
Proof.
  intros W h w m path returncode stderr post Hafter.
  pose proof (after_copy_hex_file path W h m w) as Hspec.
  rewrite Hafter in Hspec. destruct Hspec as [Hpost Hres].
  split; [exact Hpost | split].
  - rewrite Hres.
    pose proof (classify_copy_error_fails (error_msg returncode stderr)) as Hc.
    destruct (classify_copy_error (error_msg returncode stderr)) as [ok msg].
    simpl in Hc; subst ok. exists msg; reflexivity.
  - intros Hocc. rewrite Hres. unfold classify_copy_error.
    rewrite (occurs_ci_found "no space left" stderr returncode eq_refl eq_refl Hocc).
    reflexivity.
Qed.

Lemma copy_command_failure_witness :
  result_of (exec bench (copy_hex_file blink_hex) manager_mounted bench_full)
  = Ok (false, "No space left on microbit").
Proof.
  refine (proj2 (proj2 (copy_command_failure Bench bench bench_full manager_mounted
                          blink_hex 1
                          "cp: error writing '/mnt/microbit/blink.hex': No space left on device (Permission denied)"
                          [] _)) _).
  - vm_compute. reflexivity.
  - exists "cp: error writing '/mnt/microbit/blink.hex': ", "No space left",
      " on device (Permission denied)".
    split; vm_compute; reflexivity.
Defined.

(** * The firmware details *)

Lemma get_microbit_info_returns {W : Type} (h : Handler W) m w :
  exists info, result_of (exec h get_microbit_info m w) = Ok info.
Proof.
  unfold get_microbit_info, read_text. exec_steps.
  destruct (is_mounted m); simpl negb; cbv iota; [| exec_steps; eexists; reflexivity].
  exec_steps.
  destruct (fst (h (PathExists _) w)); cbv iota; [| exec_steps; eexists; reflexivity].
  exec_steps.
  destruct (fst (h (ReadText _) _)) as [e | text]; cbv beta iota;
    exec_steps; eexists; reflexivity.
Qed.

Lemma dict_set_keys key value d x :
  In x (map fst (dict_set key value d)) <-> x = key \/ In x (map fst d).
Proof.
  induction d as [| [k v] rest IH]; simpl.
  - intuition congruence.
  - destruct (String.eqb_spec k key) as [-> | Hne]; simpl.
    + intuition congruence.
    + rewrite IH. intuition congruence.
Qed.

Lemma dict_set_NoDup key value d :
  NoDup (map fst d) -> NoDup (map fst (dict_set key value d)).
Proof.
  induction d as [| [k v] rest IH]; simpl; intros Hnd.
  - constructor; [intros [] | constructor].
  - destruct (String.eqb_spec k key) as [-> | Hne]; simpl; [exact Hnd |].
    inversion Hnd as [| ? ? Hnotin Hrest]; subst.
    constructor; [| apply IH; exact Hrest].
    rewrite dict_set_keys. intros [-> | Hin]; [apply Hne; reflexivity | exact (Hnotin Hin)].
Qed.

Lemma add_detail_ok d line : details_ok d -> details_ok (add_detail d line).
Proof.
  intros [Hnd Hincl]. unfold add_detail.
  destruct (PyStr.contains ":" (PyStr.strip line)
            && negb (PyStr.startswith "#" (PyStr.strip line))); [| split; assumption].
  destruct (PyStr.split_once ":" (PyStr.strip line)) as [| key [| value rest]];
    try (split; assumption).
  destruct (existsb (String.eqb (PyStr.strip key)) detail_keys) eqn:E;
    [| split; assumption].
  apply existsb_exists in E. destruct E as [k [Hk Heq]].
  apply String.eqb_eq in Heq.
  split; [apply dict_set_NoDup; exact Hnd |].
  intros x Hx. apply dict_set_keys in Hx.
  destruct Hx as [-> | Hx]; [rewrite Heq; exact Hk | exact (Hincl x Hx)].
Qed.

Lemma fold_add_detail_ok lines :
  forall d, details_ok d -> details_ok (fold_left add_detail lines d).
Proof.
  induction lines as [| l ls IH]; intros d Hd; simpl; [exact Hd |].
  apply IH. apply add_detail_ok. exact Hd.
Qed.

(** X15. [get_microbit_details] never raises, whatever the board's
    [DETAILS.TXT] holds or however reading it fails, and the dictionary it
    returns has each key once and only keys among the seven the method
    keeps; so it has at most seven entries. *)
Theorem get_microbit_details_keys :
  forall (W : Type) (h : Handler W) (m : Manager) (w : W),
    exists details,
      result_of (exec h get_microbit_details m w) = Ok details
      /\ NoDup (map fst details)
      /\ incl (map fst details) detail_keys
      /\ (List.length details <= 7)%nat.
Proof.
  intros W h m w.
  assert (Hok : exists details,
             result_of (exec h get_microbit_details m w) = Ok details
             /\ details_ok details).
  { unfold get_microbit_details. rewrite exec_bind.
    destruct (get_microbit_info_returns h m w) as [info Hinfo].
    destruct (exec h get_microbit_info m w) as [[[r m1] w1] t1].
    unfold result_of in Hinfo; simpl in Hinfo; subst r. cbv beta iota.
    assert (Hnil : details_ok []) by (split; [constructor | intros x []]).
    destruct info as [text |];
      [| rewrite exec_ret; eexists; split; [reflexivity | exact Hnil]].
    destruct (String.eqb text ""); rewrite exec_ret; eexists;
      (split; [reflexivity |]); [exact Hnil |].
    apply fold_add_detail_ok. exact Hnil. }
  destruct Hok as [details [Hres [Hnd Hincl]]].
  exists details. repeat split; try assumption.
  rewrite <- (length_map fst).
  exact (NoDup_incl_length Hnd Hincl).
Qed.

Lemma prefix_app p : forall s, String.prefix p s = true -> exists t, s = p ++ t.
Proof.
  induction p as [| c p IH]; intros s H.
  - exists s. reflexivity.
  - destruct s as [| d s]; simpl in H; [discriminate |].
    destruct (ascii_dec c d) as [-> | Hne]; [| discriminate].
    destruct (IH s H) as [t ->]. exists t. reflexivity.
Qed.

Lemma prefix_app_true p t : String.prefix p (p ++ t) = true.
Proof.
  induction p as [| c p IH]; simpl.
  - destruct t; reflexivity.
  - destruct (ascii_dec c c); [exact IH | congruence].
Qed.

Lemma split_once_version remainder :
  PyStr.split_once ":" (version_prefix ++ remainder) = ["Interface Version"; remainder].
Proof. reflexivity. Qed.

(** The loop of [get_firmware_version] returns from the first line that
    starts with the prefix. *)
Lemma find_interface_version_spec lines version :
  find_interface_version lines = Some version <-> decisive lines version.
Proof.
  induction lines as [| l ls IH]; cbn [find_interface_version].
  - split; [discriminate |].
    intros [before [line [rest [remainder [H _]]]]].
    destruct before; discriminate.
  - destruct (PyStr.startswith "Interface Version:" (PyStr.strip l)) eqn:E.
    + apply prefix_app in E. destruct E as [remainder E].
      rewrite E. fold version_prefix. rewrite split_once_version.
      split.
      * intros H. injection H as <-.
        exists [], l, ls, remainder. repeat split; auto. intros x [].
      * intros [before [line [rest [rem' [Hl [Hb [Hs Hv]]]]]]].
        destruct before as [| b before].
        -- simpl in Hl. injection Hl as <- <-.
           rewrite E in Hs. unfold version_prefix in Hs.
           apply (f_equal (fun s => PyStr.split_once ":" s)) in Hs.
           change (PyStr.split_once ":" ("Interface Version:" ++ remainder))
             with ["Interface Version"; remainder] in Hs.
           change (PyStr.split_once ":" ("Interface Version:" ++ rem'))
             with ["Interface Version"; rem'] in Hs.
           injection Hs as ->. subst version. reflexivity.
        -- simpl in Hl. injection Hl as <- _.
           specialize (Hb l (or_introl eq_refl)).
           rewrite E in Hb. fold version_prefix in Hb.
           unfold PyStr.startswith in Hb. rewrite prefix_app_true in Hb. discriminate.
    + rewrite IH. split.
      * intros [before [line [rest [remainder [Hl [Hb [Hs Hv]]]]]]].
        exists (l :: before), line, rest, remainder.
        repeat split; auto; [rewrite Hl; reflexivity |].
        intros x [<- | Hx]; [exact E | apply Hb; exact Hx].
      * intros [before [line [rest [remainder [Hl [Hb [Hs Hv]]]]]]].
        destruct before as [| b before].
        -- simpl in Hl. injection Hl as <- <-.
           rewrite Hs in E. unfold PyStr.startswith in E.
           rewrite prefix_app_true in E. discriminate.
        -- simpl in Hl. injection Hl as <- ->.
           exists before, line, rest, remainder. repeat split; auto.
           intros x Hx. apply Hb. right; exact Hx.
Qed.

(** X16. When [get_microbit_info] returns a non-empty text,
    [get_firmware_version] returns a version exactly when some line of the
    text, stripped, starts with "Interface Version:"; the first such line
    decides, and the version is what follows the prefix on it, stripped.
    It returns none when no line does. *)
Theorem firmware_version_first_line :
  forall (W : Type) (h : Handler W) (m : Manager) (w : W) (text : string),
    result_of (exec h get_microbit_info m w) = Ok (Some text) ->
    text <> "" ->
    (forall version,
        result_of (exec h get_firmware_version m w) = Ok (Some version)
        <-> decisive (PyStr.split_on newline text) version)
    /\ (result_of (exec h get_firmware_version m w) = Ok None
        <-> forall line, In line (PyStr.split_on newline text) ->
              PyStr.startswith version_prefix (PyStr.strip line) = false).
Proof.
  intros W h m w text Hinfo Hne.
  assert (Hres : result_of (exec h get_firmware_version m w)
                 = Ok (find_interface_version (PyStr.split_on newline text))).
  { unfold get_firmware_version. rewrite exec_bind.
    destruct (exec h get_microbit_info m w) as [[[r m1] w1] t1].
    unfold result_of in Hinfo; simpl in Hinfo; subst r. cbv beta iota.
    destruct (String.eqb_spec text ""); [contradiction |].
    rewrite exec_ret. reflexivity. }
  rewrite Hres. split.
  - intros version. rewrite <- find_interface_version_spec.
    split; [intros H; injection H; auto | intros ->; reflexivity].
  - generalize (PyStr.split_on newline text) as lines. intros lines. split.
    + intros Hnone line Hin.
      destruct (PyStr.startswith version_prefix (PyStr.strip line)) eqn:E;
        [| reflexivity].
      exfalso. apply in_split in Hin. destruct Hin as [l1 [l2 ->]].
      assert (Hex : exists version,
                 find_interface_version (l1 ++ line :: l2)%list = Some version).
      { clear Hnone. induction l1 as [| x l1 IH]; cbn [find_interface_version app].
        - unfold version_prefix in E. rewrite E.
          apply prefix_app in E. destruct E as [remainder E]. rewrite E.
          eexists; reflexivity.
        - destruct (PyStr.startswith "Interface Version:" (PyStr.strip x)) eqn:Ex;
            [| exact IH].
          apply prefix_app in Ex. destruct Ex as [remainder Ex]. rewrite Ex.
          eexists; reflexivity. }
      destruct Hex as [version Hv]. injection Hnone as Hnone. congruence.
    + intros Hall.
      destruct (find_interface_version lines) as [version |] eqn:E; [| reflexivity].
      apply find_interface_version_spec in E.
      destruct E as [before [line [rest [remainder [Hl [_ [Hs _]]]]]]].
      assert (Hin : In line lines) by (rewrite Hl; apply in_elt).
      specialize (Hall line Hin). rewrite Hs in Hall.
      unfold PyStr.startswith in Hall. rewrite prefix_app_true in Hall. discriminate.
Qed.

Lemma firmware_version_first_line_witness :
  result_of (exec bench get_firmware_version manager_mounted bench_details)
  = Ok (Some "0255").
Proof.
  assert (Hne : details_txt <> "") by discriminate.
  apply (proj1 (firmware_version_first_line Bench bench manager_mounted bench_details
                  details_txt eq_refl Hne)).
  exists ["# DAPLink Firmware - see https://mbed.com/daplink";
          "Unique ID: 9904360258994e45"; "HIC ID: 97969901"],
    "Interface Version: 0255",
    ["Git SHA: 1436bdcc67029fdfc0ff03b73e12045bb6a9f272"; ""],
    " 0255".
  split; [vm_compute; reflexivity |].
  split; [| split; vm_compute; reflexivity].
  intros l [<- | [<- | [<- | []]]]; vm_compute; reflexivity.
Defined.

(** * The order of images saved within one minute *)

Section Stability.

Context {A K : Type} (key : A -> K) (lt : K -> K -> bool).
Variable p : A -> bool.
Hypothesis p_level : forall a b, p a = true -> p b = true -> lt (key a) (key b) = false.

Lemma filter_insert_sorted x l :
  filter p (insert_sorted key lt x l) = filter p (x :: l).
Proof.
  induction l as [| y r IH]; [reflexivity |].
  cbn [insert_sorted]. destruct (lt (key y) (key x)) eqn:E; [| reflexivity].
  cbn [filter] in *. rewrite IH.
  destruct (p y) eqn:Ey; [| reflexivity].
  destruct (p x) eqn:Ex; [| reflexivity].
  rewrite (p_level y x Ey Ex) in E. discriminate.
Qed.

Lemma filter_sort_stable l : filter p (sort_stable key lt l) = filter p l.
Proof.
  induction l as [| x l IH]; [reflexivity |].
  cbn [sort_stable fold_right]. fold (sort_stable key lt l).
  rewrite filter_insert_sorted. cbn [filter]. rewrite IH. reflexivity.
Qed.

(** Items none of which is below another keep their order, in both
    directions of [sorted]. *)
Lemma filter_sorted reverse l : filter p (sorted key lt reverse l) = filter p l.
Proof.
  destruct reverse; cbn [sorted]; [| apply filter_sort_stable].
  rewrite filter_rev, filter_sort_stable, filter_rev, rev_involutive. reflexivity.
Qed.

End Stability.

Lemma ltb_irrefl a : PyStr.ltb a a = false.
Proof.
  destruct (PyStr.ltb a a) eqn:E; [| reflexivity].
  rewrite (PyStrOrder.ltb_asym a a E) in E. discriminate.
Qed.

(** X17. The sort of [get_hex_files] is stable.  When the method returns
    from an existing directory, its result is a rearrangement of the entries
    made in the order in which the directory listed its matches, each
    holding the size that the [stat] of the match answered and, as its
    formatted time, the text that the formatting of that [stat]'s
    modification time answered; and the entries whose formatted time is one
    and the same minute stand in the result in the order in which the
    directory listed them, whichever was saved last. *)
Theorem get_hex_files_stable :
  forall (W : Type) (h : Handler W) (w : W) (m : Manager) (files : list HexFile),
    result_of (exec h get_hex_files m w) = Ok files ->
    fst (h (PathlibExists (downloads_dir m)) w) = inr true ->
    exists names listed,
      fst (h (GlobHex (downloads_dir m)) (snd (h (PathlibExists (downloads_dir m)) w)))
      = inr names
      /\ map hex_name listed = names
      /\ (forall f, In f listed ->
            hex_entry_from (trace_of (exec h get_hex_files m w)) f)
      /\ Permutation files listed
      /\ forall minute,
          filter (same_minute minute) files = filter (same_minute minute) listed.
Proof.
  intros W h w m files.
  pose proof (exec_get_hex_files h m w) as E. cbv zeta in E. rewrite E. clear E.
  set (dir := downloads_dir m). intros Hres Hthere. revert Hres. rewrite Hthere.
  destruct (fst (h (GlobHex dir) (snd (h (PathlibExists dir) w)))) as [e | names]
    eqn:Eglob; [discriminate |].
  pose proof (stat_hex_files_entries h dir names m
                (snd (h (GlobHex dir) (snd (h (PathlibExists dir) w)))))
    as Hentries.
  destruct (exec h (stat_hex_files dir names) m _) as [[[r2 m2] w2] t2].
  unfold result_of, trace_of, world_of in *; cbn [fst snd] in *.
  destruct r2 as [listed | e]; [| discriminate].
  intros H; injection H as <-.
  destruct (Hentries listed eq_refl) as [Hn Hp].
  exists names, listed. split; [reflexivity |].
  split; [exact Hn |]. split; [| split].
  - intros f Hf. destruct (Hp f Hf) as [_ Hfrom].
    apply (hex_entry_from_app
             [Ev (PathlibExists dir) (inr true); Ev (GlobHex dir) (inr names)]
             [] t2 f) in Hfrom.
    rewrite app_nil_r in Hfrom. exact Hfrom.
  - exact (proj2 (sorted_descending hex_mtime PyStr.ltb PyStrOrder.ltb_asym
                    PyStrOrder.geb_trans listed)).
  - intros minute.
    apply (filter_sorted hex_mtime PyStr.ltb (same_minute minute)) with (reverse := true).
    intros a b Ha Hb. unfold same_minute in *.
    apply String.eqb_eq in Ha, Hb. rewrite Ha, Hb. apply ltb_irrefl.
Qed.

Lemma get_hex_files_stable_witness :
  exists names listed,
    fst (shelf "/home/pi/Downloads" [older_hex; newer_hex]
           (GlobHex (downloads_dir manager0))
           (snd (shelf "/home/pi/Downloads" [older_hex; newer_hex]
                   (PathlibExists (downloads_dir manager0)) tt)))
    = inr names
    /\ map hex_name listed = names
    /\ (forall f, In f listed ->
          hex_entry_from
            (trace_of (exec (shelf "/home/pi/Downloads" [older_hex; newer_hex])
                         get_hex_files manager0 tt)) f)
    /\ Permutation
         [{| hex_name := "older.hex"; hex_path := "/home/pi/Downloads/older.hex";
             hex_size := 600000; hex_mtime := "2023-11-14 22:13" |};
          {| hex_name := "newer.hex"; hex_path := "/home/pi/Downloads/newer.hex";
             hex_size := 600000; hex_mtime := "2023-11-14 22:13" |}]
         listed
    /\ forall minute,
        filter (same_minute minute)
          [{| hex_name := "older.hex"; hex_path := "/home/pi/Downloads/older.hex";
              hex_size := 600000; hex_mtime := "2023-11-14 22:13" |};
           {| hex_name := "newer.hex"; hex_path := "/home/pi/Downloads/newer.hex";
              hex_size := 600000; hex_mtime := "2023-11-14 22:13" |}]
        = filter (same_minute minute) listed.
Proof.
  apply (get_hex_files_stable unit (shelf "/home/pi/Downloads" [older_hex; newer_hex])
           tt manager0).
  - vm_compute. reflexivity.
  - reflexivity.
Defined.

(** * Where the exceptions of [run] come from *)

Lemma output_of_raised r e : output_of r = Raised e -> r = RunRaised e.
Proof. destruct r; simpl; intros H; [discriminate .. | congruence]. Qed.

Lemma outcome_of_raised r e : outcome_of r = Raised e -> r = RunRaised e.
Proof. destruct r; simpl; intros H; [discriminate .. | congruence]. Qed.

Lemma blameless_never {A : Type} (P : Manager -> Prop) (c : M A) :
  never_raises c -> blameless P c.
Proof.
  intros Hc W h m w e _ Hr. destruct (Hc W h m w) as [a Ha]. congruence.
Qed.

Lemma blameless_bind {A B : Type} (P Q : Manager -> Prop) (c : M A) (f : A -> M B) :
  blameless P c ->
  (forall (W : Type) (h : Handler W) m w, P m -> Q (manager_of (exec h c m w))) ->
  (forall a, blameless Q (f a)) ->
  blameless P (bind c f).
Proof.
  intros Hc Hpq Hf W h m w e Hm. rewrite exec_bind.
  specialize (Hc W h m w). specialize (Hpq W h m w Hm).
  destruct (exec h c m w) as [[[r m1] w1] t1].
  unfold result_of, manager_of in *; simpl in *.
  destruct r as [a | e1].
  - specialize (Hf a W h m1 w1 e Hpq).
    destruct (exec h (f a) m1 w1) as [[[r2 m2] w2] t2]. simpl in *. exact Hf.
  - simpl. intros H; injection H as <-. apply Hc; [exact Hm | reflexivity].
Qed.

Lemma blameless_run_command P command : blameless P (run_command command).
Proof.
  intros W h m w e _. rewrite exec_run_command. unfold result_of; cbn [fst].
  intros H. apply output_of_raised in H. left. exists command, w. exact H.
Qed.

Lemma blameless_run_command_with_error P command :
  blameless P (run_command_with_error command).
Proof.
  intros W h m w e _. rewrite exec_run_command_with_error. unfold result_of; cbn [fst].
  intros H. apply outcome_of_raised in H. left. exists command, w. exact H.
Qed.

Create HintDb blameless.
#[export] Hint Resolve blameless_run_command blameless_run_command_with_error
  : blameless.

(** Goes through a method whose parts raise only what the environment
    raised, whatever the manager. *)
Ltac blameless_step :=
  match goal with
  | |- blameless _ (bind _ _) =>
      apply blameless_bind with (Q := fun _ => True); [| intros; exact I | intros ?]
  | |- blameless _ (match ?x with _ => _ end) => destruct x
  | |- blameless _ (if ?x then _ else _) => destruct x
  | |- blameless _ _ => solve [auto with blameless]
  | |- blameless _ _ => solve [apply blameless_never; prove_never_raises]
  end.

Ltac prove_blameless := repeat blameless_step.

Lemma blameless_probe_common_devices devices :
  forall P, blameless P (probe_common_devices devices).
Proof.
  induction devices as [| d rest IH]; intros P; simpl; prove_blameless.
Qed.

Lemma blameless_get_microbit_block_device P : blameless P get_microbit_block_device.
Proof.
  intros W h m w e _. unfold get_microbit_block_device.
  rewrite exec_bind, exec_run_command.
  destruct (output_of (fst (h (SubprocessRun "lsblk -J") w))) as [lsblk_output | e0]
    eqn:Eout; cbv beta iota.
  2: { unfold result_of; simpl. intros H; injection H as <-.
       apply output_of_raised in Eout. left. eauto. }
  exec_steps.
  destruct (fst (h (JsonLoads _) _)) as [data |] eqn:Eload; cbv beta iota.
  - destruct (find_removable data) as [[device |] | e1] eqn:E.
    + exec_steps. discriminate.
    + intros Hr.
      match type of Hr with
      | context [exec h (probe_common_devices ?l) ?m1 ?w1] =>
          pose proof (blameless_probe_common_devices l (fun _ => True) W h m1 w1 e I)
            as Hp;
          destruct (exec h (probe_common_devices l) m1 w1) as [[[r2 m2] w2] t2]
      end.
      unfold result_of in *; simpl in *. exact (Hp Hr).
    + exec_steps. unfold result_of; simpl. intros H; injection H as <-.
      right; left. eauto.
  - intros Hr.
    match type of Hr with
    | context [exec h (probe_common_devices ?l) ?m1 ?w1] =>
        pose proof (blameless_probe_common_devices l (fun _ => True) W h m1 w1 e I)
          as Hp;
        destruct (exec h (probe_common_devices l) m1 w1) as [[[r2 m2] w2] t2]
    end.
    unfold result_of in *; simpl in *. exact (Hp Hr).
Qed.

Lemma blameless_is_microbit_mounted P : blameless P is_microbit_mounted.
Proof. unfold is_microbit_mounted; prove_blameless. Qed.

Lemma blameless_detect_microbit P : blameless P detect_microbit.
Proof. unfold detect_microbit; prove_blameless. Qed.

#[export] Hint Resolve blameless_get_microbit_block_device blameless_is_microbit_mounted
  blameless_detect_microbit : blameless.

Lemma blameless_unmount_microbit P : blameless P unmount_microbit.
Proof.
  unfold unmount_microbit, unmount_after_check, record_unmounted. prove_blameless.
Qed.

Lemma blameless_mount_microbit P : blameless P mount_microbit.
Proof. unfold mount_microbit, record_mounted. prove_blameless. Qed.

Lemma blameless_copy_hex_file P path : blameless P (copy_hex_file path).
Proof. unfold copy_hex_file. prove_blameless. Qed.

#[export] Hint Resolve blameless_unmount_microbit blameless_mount_microbit
  blameless_copy_hex_file : blameless.

Lemma blameless_stat_hex_files P dir names : blameless P (stat_hex_files dir names).
Proof.
  induction names as [| name rest IH]; intros W h m w e Hm.
  - simpl. discriminate.
  - simpl stat_hex_files. unfold os_stat, format_mtime. exec_steps.
    destruct (fst (h (StatOf (path_join dir name)) w)) as [e1 | stat] eqn:Es;
      cbv beta iota.
    { unfold result_of; simpl. intros H; injection H as <-.
      do 4 right; left. eauto. }
    exec_steps.
    destruct (fst (h (LocalTime (st_mtime_ns stat)) _)) as [e1 | mtime] eqn:Et;
      cbv beta iota.
    { unfold result_of; simpl. intros H; injection H as <-.
      do 5 right. eauto. }
    rewrite exec_bind.
    match goal with
    | |- context [exec h (stat_hex_files dir rest) ?m1 ?w1] =>
        pose proof (IH W h m1 w1 e Hm) as IH';
        destruct (exec h (stat_hex_files dir rest) m1 w1) as [[[r2 m2] w2] t2]
    end.
    unfold result_of in *; simpl in IH'.
    destruct r2 as [later | e1]; cbv beta iota; simpl.
    + exec_steps. discriminate.
    + exact IH'.
Qed.

Lemma blameless_get_hex_files P : blameless P get_hex_files.
Proof.
  intros W h m w e Hm.
  pose proof (exec_get_hex_files h m w) as E. cbv zeta in E. rewrite E. clear E.
  destruct (fst (h (PathlibExists (downloads_dir m)) w)) as [e1 | [|]] eqn:Ethere.
  - unfold result_of; simpl. intros H; injection H as <-.
    do 2 right; left. eauto.
  - destruct (fst (h (GlobHex (downloads_dir m)) _)) as [e1 | names] eqn:Eg.
    + unfold result_of; simpl. intros H; injection H as <-.
      do 3 right; left. eauto.
    + pose proof (blameless_stat_hex_files P (downloads_dir m) names W h m
                    (snd (h (GlobHex (downloads_dir m))
                            (snd (h (PathlibExists (downloads_dir m)) w)))) e Hm)
        as Hs.
      unfold result_of in *. cbn [fst].
      destruct (fst (fst (fst (exec h (stat_hex_files (downloads_dir m) names) m _))))
        as [files | e1]; [discriminate |].
      exact Hs.
  - unfold result_of; simpl. discriminate.
Qed.

Lemma never_raises_get_microbit_info : never_raises get_microbit_info.
Proof. intros W h m w. apply get_microbit_info_returns. Qed.

Lemma never_raises_get_firmware_version : never_raises get_firmware_version.
Proof.
  pose proof never_raises_get_microbit_info.
  unfold get_firmware_version; prove_never_raises.
Qed.

Lemma never_raises_get_microbit_details : never_raises get_microbit_details.
Proof.
  pose proof never_raises_get_microbit_info.
  unfold get_microbit_details; prove_never_raises.
Qed.

Lemma never_raises_stat_microbit_files items : never_raises (stat_microbit_files items).
Proof.
  induction items as [| item rest IH]; simpl; unfold stat_entry;
    prove_never_raises; exact IH.
Qed.

Lemma never_raises_get_microbit_files : never_raises get_microbit_files.
Proof. unfold get_microbit_files; prove_never_raises. Qed.

Lemma blameless_draw_header P : blameless P draw_header.
Proof.
  pose proof never_raises_get_firmware_version.
  unfold draw_header; prove_blameless.
Qed.

Lemma never_raises_draw_microbit_files : never_raises draw_microbit_files.
Proof.
  pose proof never_raises_get_microbit_files.
  unfold draw_microbit_files; prove_never_raises.
Qed.

Lemma never_raises_draw_info_area : never_raises draw_info_area.
Proof.
  pose proof never_raises_get_microbit_details.
  unfold draw_info_area; prove_never_raises.
Qed.

Lemma blameless_check_microbit_status P : blameless P check_microbit_status.
Proof. unfold check_microbit_status. prove_blameless. Qed.

Lemma blameless_handle_key key hex_files :
  blameless (index_in_range hex_files) (handle_key key hex_files).
Proof.
  destruct (key =? ord_q) eqn:Eq.
  { apply blameless_never. unfold handle_key. rewrite Eq. prove_never_raises. }
  destruct ((key =? KEY_UP) || (key =? ord_k)) eqn:Eup.
  { apply blameless_never. unfold handle_key. rewrite Eq, Eup. prove_never_raises. }
  destruct ((key =? KEY_DOWN) || (key =? ord_j)) eqn:Edown.
  { apply blameless_never. unfold handle_key. rewrite Eq, Eup, Edown.
    prove_never_raises. }
  destruct ((key =? ord_newline) || (key =? KEY_ENTER) || (key =? 10)) eqn:Eenter.
  { intros W h m w e Hr. unfold handle_key. rewrite Eq, Eup, Edown, Eenter.
    exec_steps.
    destruct (nonempty hex_files && is_mounted m) eqn:E.
    - apply andb_true_iff in E. destruct E as [Hne Hm].
      assert (Hne' : hex_files <> []) by (destruct hex_files; discriminate).
      destruct (py_index_in_range hex_files m Hne' Hr) as [f Hf].
      exec_steps. rewrite Hf. rewrite exec_bind.
      pose proof (blameless_copy_hex_file (fun _ => True) (hex_path f) W h m w e I)
        as Hcp.
      destruct (exec h (copy_hex_file (hex_path f)) m w) as [[[r1 m1] w1] t1].
      unfold result_of in Hcp |- *; simpl in Hcp.
      destruct r1 as [[success msg] | e1]; cbv beta iota.
      + exec_steps. discriminate.
      + simpl. intros H; injection H as <-. exact (Hcp eq_refl).
    - destruct (negb (is_mounted m)); exec_steps; discriminate. }
  unfold handle_key. rewrite Eq, Eup, Edown, Eenter. prove_blameless.
Qed.

Lemma blameless_main_loop_iteration : blameless index_nonneg main_loop_iteration.
Proof.
  unfold main_loop_iteration.
  apply blameless_bind with (Q := index_nonneg).
  { apply blameless_draw_header. }
  { intros W h m w H. rewrite readonly_draw_header. exact H. }
  intros _.
  apply blameless_bind with (Q := index_nonneg).
  { apply blameless_check_microbit_status. }
  { exact index_nonneg_check_microbit_status. }
  intros _.
  apply blameless_bind with (Q := index_nonneg).
  { apply blameless_get_hex_files. }
  { intros W h m w H. rewrite readonly_get_hex_files. exact H. }
  intros hex_files.
  apply blameless_bind with (Q := index_in_range hex_files).
  { apply blameless_never. unfold adjust_selected. prove_never_raises. }
  { intros W h m w H. apply index_in_range_adjust. exact H. }
  intros _.
  apply blameless_bind with (Q := index_in_range hex_files).
  { apply blameless_never, never_raises_draw_microbit_files. }
  { intros W h m w H. rewrite readonly_draw_microbit_files. exact H. }
  intros _.
  apply blameless_bind with (Q := index_in_range hex_files).
  { apply blameless_never, never_raises_draw_info_area. }
  { intros W h m w H. rewrite readonly_draw_info_area. exact H. }
  intros _.
  apply blameless_bind with (Q := index_in_range hex_files).
  { apply blameless_never, never_raises_ask. }
  { intros W h m w H. rewrite readonly_ask. exact H. }
  intros key. apply blameless_handle_key.
Qed.

Lemma blameless_main_loop fuel : blameless index_nonneg (main_loop fuel).
Proof.
  induction fuel as [| n IH]; cbn [main_loop].
  - apply blameless_never. prove_never_raises.
  - apply blameless_bind with (Q := index_nonneg).
    + exact blameless_main_loop_iteration.
    + exact index_nonneg_main_loop_iteration.
    + intros [|]; [exact IH | apply blameless_never; prove_never_raises].
Qed.



(** * The keys *)

Lemma goes_on_bind {A B : Type} (c : M A) (f : A -> M B) stop :
  (forall a, goes_on (f a) stop) -> goes_on (bind c f) stop.
Proof.
  intros Hf W h m w. rewrite exec_bind.
  destruct (exec h c m w) as [[[r m1] w1] t1]. destruct r as [a | e].
  - specialize (Hf a W h m1 w1).
    destruct (exec h (f a) m1 w1) as [[[r2 m2] w2] t2]. exact Hf.
  - discriminate.
Qed.

Lemma goes_on_ret_true : goes_on (ret true) false.
Proof. intros W h m w. discriminate. Qed.

(** X19. Only the [q] key leaves the loop: the key handling asks for the
    [break] exactly when the key is [q], whatever the environment answers;
    and a key that is bound to nothing, such as the [-1] of a [getch] that
    timed out, changes nothing and asks nothing. *)
Theorem handle_key_bindings :
  forall (W : Type) (h : Handler W) (key : Z) (hex_files : list HexFile)
         (m : Manager) (w : W),
    (result_of (exec h (handle_key key hex_files) m w) = Ok false <-> key = ord_q)
    /\ (~ In key bound_keys ->
        exec h (handle_key key hex_files) m w = (Ok true, m, w, [])).
Proof.
  intros W h key hex_files m w. split; [split |].
  - unfold handle_key. destruct (Z.eqb_spec key ord_q) as [-> | Hne]; [reflexivity |].
    intros H; exfalso; revert H.
    repeat match goal with
           | |- context [if ?b then _ else _] =>
               match b with
               | context [key] => destruct b
               end
           end;
      repeat (apply goes_on_bind; intros ?); apply goes_on_ret_true.
  - intros ->. reflexivity.
  - intros Hk. unfold handle_key.
    assert (Hne : forall k, In k bound_keys -> (key =? k) = false).
    { intros k Hin. destruct (Z.eqb_spec key k) as [-> |]; [contradiction | reflexivity]. }
    rewrite !Hne by (unfold bound_keys; simpl; tauto).
    replace (key =? 10) with false; [reflexivity |].
    symmetry. apply (Hne ord_newline). unfold bound_keys; simpl; tauto.
Qed.

Lemma handle_key_bindings_witness :
  exec bench (handle_key (-1) []) manager_mounted bench_mounted
  = (Ok true, manager_mounted, bench_mounted, []).
Proof.
  apply (proj2 (handle_key_bindings Bench bench (-1) [] manager_mounted bench_mounted)).
  unfold bound_keys. simpl. intros H.
  repeat (destruct H as [H | H]; [discriminate H |]). exact H.
Defined.

(** X20. While the manager is unmounted the drawing asks nothing about the
    board: the header only runs [lsusb], and the listing of the board's
    files and the firmware area issue no request at all; the firmware area
    issues none either while it is switched off. *)
Theorem drawing_unmounted :
  forall (W : Type) (h : Handler W) (m : Manager) (w : W),
    (is_mounted m = false ->
     trace_of (exec h draw_header m w)
     = [Ev (SubprocessRun "lsusb") (fst (h (SubprocessRun "lsusb") w))]
     /\ exec h draw_microbit_files m w = (Ok tt, m, w, [])
     /\ exec h draw_info_area m w = (Ok tt, m, w, []))
    /\ (show_info_area m = false -> exec h draw_info_area m w = (Ok tt, m, w, [])).
Proof.
  intros W h m w. split.
  - intros Hm. split; [| split].
    + unfold draw_header. rewrite exec_bind, exec_detect_microbit.
      destruct (detection_of _) as [detected | e]; cbv beta iota; [| reflexivity].
      rewrite exec_bind, exec_gets, Hm. cbv beta iota. rewrite exec_ret. reflexivity.
    + unfold draw_microbit_files, get_microbit_files.
      exec_steps. rewrite Hm. simpl negb. cbv iota. exec_steps. reflexivity.
    + unfold draw_info_area. exec_steps. rewrite Hm. simpl negb.
      rewrite orb_true_r. exec_steps. reflexivity.
  - intros Hs. unfold draw_info_area. exec_steps. rewrite Hs. simpl negb. simpl orb.
    cbv iota. exec_steps. reflexivity.
Qed.

Lemma drawing_unmounted_witness :
  exec bench draw_microbit_files manager0 bench_idle = (Ok tt, manager0, bench_idle, [])
  /\ exec bench draw_info_area manager_mounted bench_mounted
     = (Ok tt, manager_mounted, bench_mounted, []).
Proof.
  split.
  - exact (proj1 (proj2 (proj1 (drawing_unmounted Bench bench manager0 bench_idle)
                           eq_refl))).
  - exact (proj2 (drawing_unmounted Bench bench manager_mounted bench_mounted) eq_refl).
Defined.
